(** * GreenOps planner: a shallow embedding of [src/server.js]

    The development follows the backend: the region catalog,
    [normalizeScores], [latencyBaseScore], [getWeights], [calcReplicas],
    [generateKubernetesYaml], [getCarbonIntensityForRegion] and the
    handlers of [POST /api/plan], [POST /api/deploy] and
    [GET /api/analytics].

    Number model.  JavaScript numbers are IEEE-754 binary64 values and are
    embedded as such ([PrimFloat.float]): arithmetic rounds to nearest
    even, overflows to the infinities and produces NaN as the code does.
    [getWeights] is written once over a small arithmetic interface and
    instantiated both at binary64 and at the exact rationals ([Q]), the
    arithmetic its weights are documented in.  Counts of array elements
    are integers ([Z]).

    String model.  Strings are [String.string]; a character is read as a
    code unit below 256 (Latin-1). *)

From Stdlib Require Import ZArith QArith Qround Lqa Lia.
From Stdlib Require Import List String Ascii Bool DecimalString.
From Stdlib Require Import Floats.
From Stdlib Require Import Permutation.
Import ListNotations.

Set Warnings "-inexact-float".

Local Open Scope string_scope.
Local Open Scope Z_scope.
Local Open Scope Q_scope.

(* ------------------------------------------------------------------ *)
(** ** JavaScript values and built-ins used by the server *)

Module JS.

(** Arithmetic of [number] as far as [getWeights] needs it: decimal
    literals, [+], [*] and [/]. *)
Class Number (T : Type) := {
  lit : Z -> positive -> T;      (* the literal n/d, e.g. 0.25 = lit 25 100 *)
  add : T -> T -> T;
  mul : T -> T -> T;
  div : T -> T -> T
}.

#[global] Instance NumberQ : Number Q := {
  lit n d := n # d;
  add := Qplus;
  mul := Qmult;
  div := Qdiv
}.

(** The Number value of an integer below 2^53 in magnitude (the integers
    used are digits of literals, counts of array elements and results of
    [Math.round] on numbers with a fractional part). *)
Definition float_of_Z (z : Z) : float :=
  if (z <? 0)%Z
  then PrimFloat.opp (PrimFloat.of_uint63 (Uint63.of_Z (- z)))
  else PrimFloat.of_uint63 (Uint63.of_Z z).

(** binary64: a decimal literal with few digits is the correctly rounded
    quotient of two exactly representable integers. *)
#[global] Instance NumberF64 : Number float := {
  lit n d := PrimFloat.div (float_of_Z n) (float_of_Z (Zpos d));
  add := PrimFloat.add;
  mul := PrimFloat.mul;
  div := PrimFloat.div
}.

(** The Number value of the fraction [num / den]: the binary64 value
    nearest to it, ties to even.  This is how a decimal text is read, by
    [Number(text)] and by [JSON.parse]. *)
Definition nearest (num : Z) (den : positive) : float :=
  match num with
  | Z0 => PrimFloat.zero
  | Zpos p => SF2Prim (SFdiv prec emax (S754_finite false p 0) (S754_finite false den 0))
  | Zneg p => SF2Prim (SFdiv prec emax (S754_finite true p 0) (S754_finite false den 0))
  end.

Definition is_neg_zero (x : float) : bool := PrimFloat.is_zero x && PrimFloat.get_sign x.
Definition is_pos_zero (x : float) : bool := PrimFloat.is_zero x && negb (PrimFloat.get_sign x).

(** One step of the scan of [Math.min]: -0 is below +0. *)
Definition minStep (lowest number : float) : float :=
  if is_neg_zero number && is_pos_zero lowest then number
  else if PrimFloat.ltb number lowest then number
  else lowest.

(** One step of the scan of [Math.max]: +0 is above -0. *)
Definition maxStep (highest number : float) : float :=
  if is_pos_zero number && is_neg_zero highest then number
  else if PrimFloat.ltb highest number then number
  else highest.

(** [Math.min(...v)]: NaN if an element is NaN; otherwise the scan of
    the specification, which starts at +Infinity. *)
Definition Math_min (v : list float) : float :=
  if existsb PrimFloat.is_nan v then PrimFloat.nan
  else fold_left minStep v PrimFloat.infinity.

(** [Math.max(...v)]: the same scan from -Infinity. *)
Definition Math_max (v : list float) : float :=
  if existsb PrimFloat.is_nan v then PrimFloat.nan
  else fold_left maxStep v PrimFloat.neg_infinity.

(** [Math.ceil] of a ratio of counts. *)
Definition Math_ceil (x : Q) : Z := Qceiling x.

(** [Math.round(x)]: the integer nearest to [x], a half going up; NaN, the
    infinities, the zeros and the numbers without a fractional part are
    returned as they are, and a result of zero keeps the sign of [x]. *)
Definition Math_round (x : float) : float :=
  match Prim2SF x with
  | S754_finite s m e =>
      if (0 <=? e)%Z then x
      else
        let n := ((2 * (if s then Zneg m else Zpos m) + 2 ^ (- e)) / 2 ^ (- e + 1))%Z in
        if (n =? 0)%Z then (if s then PrimFloat.neg_zero else PrimFloat.zero)
        else float_of_Z n
  | _ => x
  end.

(** [String(n)] for an integer. *)
Definition Z_toString (z : Z) : string :=
  NilZero.string_of_int (Z.to_int z).

Definition decimalLength (z : Z) : Z := Z.of_nat (String.length (Z_toString z)).

(** The fraction [num / den] times [10^p]. *)
Definition scale10 (num den p : Z) : Z * Z :=
  if (0 <=? p)%Z then ((num * 10 ^ p)%Z, den) else (num, (den * 10 ^ (- p))%Z).

(** The decimal exponent [n] of a positive fraction:
    [10^(n-1) <= num/den < 10^n]. *)
Definition decimalExponent (num den : Z) : Z :=
  if (den <=? num)%Z then decimalLength (num / den)
  else (1 - decimalLength ((den - 1) / num))%Z.

(** The Number value of [s * 10^p] is [x]. *)
Definition readsBack (x : float) (s p : Z) : bool :=
  let '(a, b) := scale10 s 1 p in
  PrimFloat.eqb (nearest a (Z.to_pos b)) x.

(** The digits of [Number::toString]: the least [k >= 1] for which some
    integer [s] of [k] digits has [s * 10^(n-k)] read back as [x]; of two
    such integers the one nearer to [x], the even one at a tie.  [num/den]
    is the exact value of [x].  The result is [(s, n)]. *)
Fixpoint shortestDigits (fuel : nat) (x : float) (num den n k : Z) : Z * Z :=
  let '(a, b) := scale10 num den (k - n) in
  let lo := (a / b)%Z in
  let hi := (lo + 1)%Z in
  let okLo := readsBack x lo (n - k) in
  let okHi := readsBack x hi (n - k) in
  let excess := (2 * a - (2 * lo + 1) * b)%Z in
  let preferHi := (0 <? excess)%Z || ((excess =? 0)%Z && Z.even hi) in
  let normal s := if (s =? 10 ^ k)%Z then ((10 ^ (k - 1))%Z, (n + 1)%Z) else (s, n) in
  if okLo && okHi then normal (if preferHi then hi else lo)
  else if okLo then normal lo
  else if okHi then normal hi
  else
    match fuel with
    | O => normal lo
    | S fuel' => shortestDigits fuel' x num den n (k + 1)
    end.

Definition zeros (n : Z) : string :=
  string_of_list_ascii (repeat "0"%char (Z.to_nat n)).

(** [String(x)] for a number ([Number::toString], radix 10). *)
Definition Number_toString (x : float) : string :=
  match Prim2SF x with
  | S754_nan => "NaN"
  | S754_zero _ => "0"
  | S754_infinity s => if s then "-Infinity" else "Infinity"
  | S754_finite s m e =>
      let num := if (0 <=? e)%Z then (Zpos m * 2 ^ e)%Z else Zpos m in
      let den := if (0 <=? e)%Z then 1%Z else (2 ^ (- e))%Z in
      let '(digits, n) :=
        shortestDigits 17 (PrimFloat.abs x) num den (decimalExponent num den) 1 in
      let ds := Z_toString digits in
      let k := Z.of_nat (String.length ds) in
      let body :=
        if (k <=? n)%Z && (n <=? 21)%Z then ds ++ zeros (n - k)
        else if (0 <? n)%Z && (n <=? 21)%Z then
          substring 0 (Z.to_nat n) ds ++ "." ++ substring (Z.to_nat n) (Z.to_nat (k - n)) ds
        else if (-6 <? n)%Z && (n <=? 0)%Z then "0." ++ zeros (- n) ++ ds
        else
          (if (k =? 1)%Z then ds
           else substring 0 1 ds ++ "." ++ substring 1 (Z.to_nat (k - 1)) ds)
          ++ "e" ++ (if (n - 1 <? 0)%Z then "-" else "+") ++ Z_toString (Z.abs (n - 1)) in
      (if s then "-" else "") ++ body
  end.

(** [Number(x.toFixed(digits))].  [toFixed] prints the integer [n] nearest
    to [|x| * 10^digits] (the larger one at a tie) with the point moved,
    and the sign of [x] in front when [x < 0]; from 1e21 on, and for NaN
    and the infinities, it prints the number itself. *)
Definition Number_toFixed (x : float) (digits : nat) : float :=
  match Prim2SF x with
  | S754_finite s m e =>
      if PrimFloat.leb 1e21 (PrimFloat.abs x) then x
      else
        let scale := (10 ^ Z.of_nat digits)%Z in
        let n :=
          if (0 <=? e)%Z then (Zpos m * 2 ^ e * scale)%Z
          else ((2 * Zpos m * scale + 2 ^ (- e)) / 2 ^ (- e + 1))%Z in
        if (n =? 0)%Z then (if s then PrimFloat.neg_zero else PrimFloat.zero)
        else nearest (if s then (- n)%Z else n) (Z.to_pos scale)
  | S754_zero _ => PrimFloat.zero
  | _ => x
  end.

(** Characters. *)
Definition code (c : ascii) : nat := nat_of_ascii c.
Definition between (lo hi : nat) (c : ascii) : bool :=
  (lo <=? code c)%nat && (code c <=? hi)%nat.

(** [String.prototype.toLowerCase] on code units below 256: A-Z and the
    Latin-1 capitals U+00C0..U+00DE (except the sign U+00D7) move up by
    32; everything else is unchanged. *)
Definition lower_char (c : ascii) : ascii :=
  if between 65 90 c || (between 192 222 c && negb (code c =? 215)%nat)
  then ascii_of_nat (code c + 32)
  else c.

Fixpoint map_string (f : ascii -> ascii) (s : string) : string :=
  match s with
  | EmptyString => EmptyString
  | String c s' => String (f c) (map_string f s')
  end.

Definition toLowerCase (s : string) : string := map_string lower_char s.

(** [s.replace(/[^a-z0-9-]/g, "-")]. *)
Definition in_a_z_0_9_dash (c : ascii) : bool :=
  between 97 122 c || between 48 57 c || (code c =? 45)%nat.

Definition replace_unsafe (s : string) : string :=
  map_string (fun c => if in_a_z_0_9_dash c then c else "-"%char) s.

(** Truthiness of a string, and [a || b] on strings. *)
Definition truthy (s : string) : bool :=
  match s with EmptyString => false | _ => true end.

Definition or_else (a b : string) : string := if truthy a then a else b.

(** [s.startsWith(p)]. *)
Definition startsWith (s p : string) : bool := String.prefix p s.

(** [lines.join(sep)]. *)
Fixpoint join (sep : string) (l : list string) : string :=
  match l with
  | [] => ""
  | [x] => x
  | x :: rest => x ++ sep ++ join sep rest
  end.

(** [encodeURIComponent]: unreserved characters are kept, any other code
    unit is written as the %XX escapes of its UTF-8 bytes. *)
Definition unreserved (c : ascii) : bool :=
  between 65 90 c || between 97 122 c || between 48 57 c ||
  existsb (fun k => (code c =? k)%nat) [45; 95; 46; 33; 126; 42; 39; 40; 41]%nat.

Definition hex_digit (n : nat) : ascii :=
  if (n <? 10)%nat then ascii_of_nat (48 + n) else ascii_of_nat (55 + n).

Definition percent_byte (b : nat) : string :=
  String "%" (String (hex_digit (b / 16)) (String (hex_digit (b mod 16)) "")).

Definition encode_char (c : ascii) : string :=
  if unreserved c then String c ""
  else if (code c <? 128)%nat then percent_byte (code c)
  else (percent_byte (192 + code c / 64) ++ percent_byte (128 + code c mod 64))%string.

Fixpoint encodeURIComponent (s : string) : string :=
  match s with
  | EmptyString => EmptyString
  | String c s' => (encode_char c ++ encodeURIComponent s')%string
  end.

(** Values produced by [JSON.parse]; a number is a binary64 value. *)
#[warnings="-register-all"]
Inductive json : Type :=
| JNull
| JBool (b : bool)
| JNumber (x : float)
| JString (s : string)
| JArray (items : list json)
| JObject (props : list (string * json)).

(** Own property [k] of a parsed object ([None] is [undefined]). *)
Fixpoint get_prop (k : string) (props : list (string * json)) : option json :=
  match props with
  | [] => None
  | (k', v) :: rest => if String.eqb k k' then Some v else get_prop k rest
  end.

(** A stable sort by insertion: [a] stays in front of [b] unless
    [behind a b]. *)
Section StableSort.
Context {A : Type} (behind : A -> A -> bool).

Fixpoint insert (a : A) (l : list A) : list A :=
  match l with
  | [] => [a]
  | b :: l' => if behind a b then b :: insert a l' else a :: b :: l'
  end.

Definition stable_sort (l : list A) : list A := fold_right insert [] l.
End StableSort.

(** [Array.prototype.sort(cmp)].  The specification makes the sort stable
    and reads a comparator result that is NaN as 0, so [a] stays in front
    of [b] unless [cmp a b > 0].  For a consistent comparator the result
    of a stable sort is unique, and stable insertion computes it; for a
    comparator that is not consistent (here: when some but not all of the
    compared numbers are NaN) the specification leaves the order to the
    implementation, and insertion is one of the orders it allows. *)
Definition sort {A : Type} (cmp : A -> A -> float) (l : list A) : list A :=
  stable_sort (fun a b => PrimFloat.ltb 0 (cmp a b)) l.

End JS.

(* ------------------------------------------------------------------ *)
(** ** Region metadata *)

Record Region := {
  id : string;
  label : string;
  defaultCarbonIntensity : float;
  baseCost : float;
  geoGroup : string
}.

Definition REGIONS : list Region := [
  {| id := "LON1"; label := "London, UK";
     defaultCarbonIntensity := 260; baseCost := 0.24; geoGroup := "eu" |};
  {| id := "FRA1"; label := "Frankfurt, Germany";
     defaultCarbonIntensity := 210; baseCost := 0.26; geoGroup := "eu" |};
  {| id := "NYC1"; label := "New York, USA";
     defaultCarbonIntensity := 390; baseCost := 0.23; geoGroup := "us-east" |};
  {| id := "SFO1"; label := "San Francisco, USA";
     defaultCarbonIntensity := 380; baseCost := 0.27; geoGroup := "us-west" |};
  {| id := "BLR1"; label := "Bengaluru, India";
     defaultCarbonIntensity := 650; baseCost := 0.18; geoGroup := "ap-south" |};
  {| id := "SGP1"; label := "Singapore";
     defaultCarbonIntensity := 510; baseCost := 0.21; geoGroup := "ap-southeast" |}
].

(** A member of [REGION_ZONE_MAP]: an own entry with its zone code, or a
    member inherited from [Object.prototype], which is truthy and whose
    [zone] is [undefined]. *)
Inductive ZoneMapping :=
| OwnMapping (zone : string)
| InheritedMember.

Definition Object_prototype_keys : list string :=
  ["constructor"; "hasOwnProperty"; "isPrototypeOf"; "propertyIsEnumerable";
   "toLocaleString"; "toString"; "valueOf"; "__proto__";
   "__defineGetter__"; "__defineSetter__"; "__lookupGetter__"; "__lookupSetter__"].

(** [REGION_ZONE_MAP[key]]; [None] is [undefined]. *)
Definition REGION_ZONE_MAP (key : string) : option ZoneMapping :=
  if String.eqb key "LON1" then Some (OwnMapping "GB")
  else if String.eqb key "FRA1" then Some (OwnMapping "DE")
  else if String.eqb key "NYC1" then Some (OwnMapping "US-NY-NYIS")
  else if String.eqb key "SFO1" then Some (OwnMapping "US-CAL-CISO")
  else if String.eqb key "BLR1" then Some (OwnMapping "IN")
  else if String.eqb key "SGP1" then Some (OwnMapping "SG")
  else if existsb (String.eqb key) Object_prototype_keys then Some InheritedMember
  else None.

(* ------------------------------------------------------------------ *)
(** ** Helper functions *)

(** [normalizeScores(values, invert)]. *)
Definition normalizeScores (values : list float) (invert : bool) : list float :=
  if (List.length values =? 0)%nat then []
  else
    let v := if invert then map (fun x => (- x)%float) values else values in
    let min := JS.Math_min v in
    let max := JS.Math_max v in
    if PrimFloat.eqb max min
    then map (fun _ => 0.7%float) v
    else map (fun x => ((x - min) / (max - min))%float) v.

(** [latencyBaseScore(userRegion, region)].  The lookup table [map] has five
    own keys; a key inherited from [Object.prototype] yields a value equal
    to none of the targets, so the function falls through to the final
    [return 0.6], the same number the "global" branch returns. *)
Definition latency_target (userRegion : string) : string :=
  if String.eqb userRegion "ap-south" then "ap-south"
  else if String.eqb userRegion "eu-west" then "eu"
  else if String.eqb userRegion "us-east" then "us-east"
  else if String.eqb userRegion "us-west" then "us-west"
  else "global".

Definition latencyBaseScore (userRegion : string) (region : Region) : float :=
  let target := latency_target userRegion in
  let g := geoGroup region in
  if String.eqb target "global" then 0.6
  else if String.eqb target "ap-south" then
    if String.eqb g "ap-south" then 1.0
    else if String.eqb g "ap-southeast" then 0.85
    else if String.eqb g "eu" then 0.6
    else if JS.startsWith g "us" then 0.45
    else 0.6
  else if String.eqb target "eu" then
    if String.eqb g "eu" then 1.0
    else if String.eqb g "us-east" then 0.8
    else if String.eqb g "us-west" then 0.7
    else if JS.startsWith g "ap" then 0.55
    else 0.6
  else if String.eqb target "us-east" then
    if String.eqb g "us-east" then 1.0
    else if String.eqb g "eu" then 0.8
    else if String.eqb g "us-west" then 0.75
    else if JS.startsWith g "ap" then 0.5
    else 0.6
  else if String.eqb target "us-west" then
    if String.eqb g "us-west" then 1.0
    else if String.eqb g "us-east" then 0.8
    else if String.eqb g "ap-southeast" then 0.7
    else if String.eqb g "eu" then 0.6
    else if String.eqb g "ap-south" then 0.5
    else 0.6
  else 0.6.

(** [getWeights(strategy, latencyTolerance)], over any number arithmetic. *)
Record Weights (T : Type) := { w_co2 : T; w_latency : T; w_cost : T }.
Arguments w_co2 {T} _.
Arguments w_latency {T} _.
Arguments w_cost {T} _.

Section GetWeights.
Context {T : Type} `{JS.Number T}.

(** The [switch]: base weights (wCo2, wLat, wCost). *)
Definition baseWeights (strategy : string) : T * T * T :=
  if String.eqb strategy "max-green" then
    (JS.lit 6 10, JS.lit 25 100, JS.lit 15 100)
  else if String.eqb strategy "budget" then
    (JS.lit 15 100, JS.lit 25 100, JS.lit 6 10)
  else (* case "balanced": default: *)
    (JS.lit 34 100, JS.lit 33 100, JS.lit 33 100).

(** The tolerance adjustment. *)
Definition adjustWeights (latencyTolerance : string) (w : T * T * T) : T * T * T :=
  let '(wCo2, wLat, wCost) := w in
  if String.eqb latencyTolerance "strict" then
    (JS.mul wCo2 (JS.lit 9 10), JS.mul wLat (JS.lit 12 10), JS.mul wCost (JS.lit 9 10))
  else if String.eqb latencyTolerance "relaxed" then
    (JS.mul wCo2 (JS.lit 11 10), JS.mul wLat (JS.lit 7 10), JS.mul wCost (JS.lit 11 10))
  else (wCo2, wLat, wCost).

Definition getWeights (strategy latencyTolerance : string) : Weights T :=
  let '(wCo2, wLat, wCost) := adjustWeights latencyTolerance (baseWeights strategy) in
  let sum := JS.add (JS.add wCo2 wLat) wCost in
  {| w_co2 := JS.div wCo2 sum;
     w_latency := JS.div wLat sum;
     w_cost := JS.div wCost sum |}.
End GetWeights.

(** A workload component: an item of the request's [components] array
    with its [name] and its [type]. *)
Record Component := { name : string; type : string }.

Definition runtimeTypes : list string :=
  ["api-gateway"; "frontend"; "container"; "function"].

Definition isRuntime (c : Component) : bool :=
  existsb (String.eqb (type c)) runtimeTypes.

(** [countRuntimeComponents(components)]. *)
Definition countRuntimeComponents (components : list Component) : Z :=
  Z.of_nat (List.length (filter isRuntime components)).

(** [calcReplicas(components, latencyTolerance)]. *)
Definition calcReplicas (components : list Component) (latencyTolerance : string) : Z :=
  let runtimeCount := countRuntimeComponents components in
  let replicas := Z.max 1 (JS.Math_ceil (inject_Z runtimeCount / 2)) in
  let replicas :=
    if String.eqb latencyTolerance "strict" && (1 <? runtimeCount)%Z
    then (replicas + 1)%Z else replicas in
  if (4 <? replicas)%Z then 4%Z else replicas.

(* ------------------------------------------------------------------ *)
(** ** Manifest generation *)

Definition newline : string := String (ascii_of_nat 10) "".
Definition dquote : string := String (ascii_of_nat 34) "".

(** [comp.name.toLowerCase().replace(/[^a-z0-9-]/g, "-")]. *)
Definition derivedName (comp : Component) : string :=
  JS.replace_unsafe (JS.toLowerCase (name comp)).

(** [safeName] of a workload unit: the derived name, or "service". *)
Definition safeName (comp : Component) : string :=
  JS.or_else (derivedName comp) "service".

Definition namespaceLines (planId : string) : list string :=
  [ "apiVersion: v1";
    "kind: Namespace";
    "metadata:";
    "  name: greenops-app";
    "  labels:";
    "    greenops-plan: " ++ planId;
    "" ].

Definition deploymentLines (planId regionId instanceClass : string) (replicas : Z)
    (comp : Component) : list string :=
  let safeName := safeName comp in
  [ "---";
    "apiVersion: apps/v1";
    "kind: Deployment";
    "metadata:";
    "  name: " ++ safeName;
    "  namespace: greenops-app";
    "  labels:";
    "    app: " ++ safeName;
    "    greenops-plan: " ++ planId;
    "spec:";
    "  replicas: " ++ JS.Z_toString replicas;
    "  selector:";
    "    matchLabels:";
    "      app: " ++ safeName;
    "  template:";
    "    metadata:";
    "      labels:";
    "        app: " ++ safeName;
    "        greenops-plan: " ++ planId;
    "    spec:";
    "      containers:";
    "        - name: " ++ safeName;
    "          image: your-docker-username/" ++ safeName ++ ":latest";
    "          ports:";
    "            - containerPort: 4000";
    "          env:";
    "            - name: GREENOPS_PLAN_ID";
    "              value: " ++ dquote ++ planId ++ dquote;
    "            - name: GREENOPS_REGION";
    "              value: " ++ dquote ++ regionId ++ dquote;
    "            - name: GREENOPS_INSTANCE_CLASS";
    "              value: " ++ dquote ++ instanceClass ++ dquote;
    "" ].

(** The component the service is bound to: the first runtime component
    typed "api-gateway", else the first runtime component. *)
Definition gatewayComponent (runtimeComponents : list Component) : option Component :=
  match find (fun c => String.eqb (type c) "api-gateway") runtimeComponents with
  | Some apiGateway => Some apiGateway
  | None => hd_error runtimeComponents
  end.

(** [gatewayName]; [None] is [null]. *)
Definition gatewayName (runtimeComponents : list Component) : option string :=
  option_map derivedName (gatewayComponent runtimeComponents).

Definition serviceLines (gatewayName : string) : list string :=
  [ "---";
    "apiVersion: v1";
    "kind: Service";
    "metadata:";
    "  name: " ++ gatewayName ++ "-svc";
    "  namespace: greenops-app";
    "spec:";
    "  type: LoadBalancer";
    "  selector:";
    "    app: " ++ gatewayName;
    "  ports:";
    "    - name: http";
    "      port: 80";
    "      targetPort: 4000";
    "" ].

(** The array [lines] at the point where it is joined. *)
Definition manifestLines (planId regionId instanceClass : string) (replicas : Z)
    (components : list Component) : list string :=
  let runtimeComponents := filter isRuntime components in
  let lines := namespaceLines planId in
  if (List.length runtimeComponents =? 0)%nat then lines
  else
    let lines :=
      (lines ++ flat_map (deploymentLines planId regionId instanceClass replicas)
                         runtimeComponents)%list in
    match gatewayName runtimeComponents with
    | Some g => if JS.truthy g then (lines ++ serviceLines g)%list else lines
    | None => lines
    end.

(** [generateKubernetesYaml(planId, regionId, instanceClass, replicas, components)]. *)
Definition generateKubernetesYaml (planId regionId instanceClass : string) (replicas : Z)
    (components : list Component) : string :=
  JS.join newline (manifestLines planId regionId instanceClass replicas components).

(* ------------------------------------------------------------------ *)
(** ** Asynchronous computations

    An [async] function either resolves or rejects, and the only effect of
    the planner on the outside world is the HTTP requests it sends: a
    computation maps the list of URLs requested so far to its completion and
    the extended list.  Console output is not recorded. *)

Module Async.

Inductive completion (A : Type) : Type :=
| Normal (a : A)
| Throw (message : string).
Arguments Normal {A} a.
Arguments Throw {A} message.

Definition t (A : Type) : Type := list string -> completion A * list string.

Definition ret {A} (a : A) : t A := fun tr => (Normal a, tr).

Definition bind {A B} (m : t A) (f : A -> t B) : t B :=
  fun tr =>
    match m tr with
    | (Normal a, tr') => f a tr'
    | (Throw e, tr') => (Throw e, tr')
    end.

(** [await p] for a promise that is already determined. *)
Definition await {A} (p : completion A) : t A := fun tr => (p, tr).

(** [try { m } catch (err) { h err }]. *)
Definition tryCatch {A} (m : t A) (h : string -> t A) : t A :=
  fun tr =>
    match m tr with
    | (Normal a, tr') => (Normal a, tr')
    | (Throw e, tr') => h e tr'
    end.

(** [Promise.all]: every computation is started, in order; the result
    resolves when all of them do. *)
Fixpoint all {A} (ps : list (t A)) : t (list A) :=
  fun tr =>
    match ps with
    | [] => (Normal [], tr)
    | p :: rest =>
        let (r, tr1) := p tr in
        let (rs, tr2) := all rest tr1 in
        (match r, rs with
         | Normal a, Normal l => Normal (a :: l)
         | Throw e, _ => Throw e
         | Normal _, Throw e => Throw e
         end, tr2)
    end.

(** A [fetch] response: [ok], [status], and what reading the body as text
    or as JSON gives. *)
Record Response := {
  ok : bool;
  status : Z;
  text : completion string;
  json : completion JS.json
}.

End Async.

Import Async.

Declare Scope async_scope.
Delimit Scope async_scope with async.
Notation "x <- m ;; k" := (Async.bind m (fun x => k))
  (at level 100, m at next level, right associativity) : async_scope.

(* ------------------------------------------------------------------ *)
(** ** Carbon intensity and the planner endpoint *)

Record CarbonReading := { value : float; source : string }.

Definition ELECTRICITYMAPS_API_BASE_URL : string := "https://api.electricitymaps.com/v3".

Definition fallbackReading (region : Region) : CarbonReading :=
  {| value := defaultCarbonIntensity region; source := "fallback-static" |}.

(** [data.carbonIntensity]: a [TypeError] on [null], the own property of an
    object, [undefined] ([None]) otherwise. *)
Definition carbonIntensityOf (data : JS.json) : completion (option JS.json) :=
  match data with
  | JS.JNull => Throw "Cannot read properties of null (reading 'carbonIntensity')"
  | JS.JObject props => Normal (JS.get_prop "carbonIntensity" props)
  | _ => Normal None
  end.

(** A region extended with the reading used for it. *)
Record LiveRegion := {
  base : Region;
  liveCarbonIntensity : float;
  carbonSource : string
}.

Record RegionScore := {
  region : LiveRegion;
  co2 : float;
  cost : float;
  latency : float
}.

Record ScoredRegion := { rs : RegionScore; overall : float }.

Record Scores := { s_co2 : float; s_latency : float; s_cost : float; s_overall : float }.

Record CarbonIntensity := { value_gCo2PerKwh : float; ci_source : string }.

Record Civo := {
  civo_region : string;
  regionLabel : string;
  clusterType : string;
  instanceClass : string;
  replicas : Z
}.

Record Plan := {
  plan_id : string;
  plan_label : string;
  description : string;
  scores : Scores;
  carbonIntensity : CarbonIntensity;
  civo : Civo;
  notes : list string;
  kubernetesYaml : string
}.

(** A request body; [None] is an absent property.  [components] is any
    JSON value. *)
Record PlanBody := {
  req_components : option JS.json;
  req_userRegion : option string;
  req_latencyTolerance : option string;
  req_optimizationPreference : option JS.json
}.

Record InputEcho := {
  echo_components : list JS.json;
  echo_userRegion : string;
  echo_latencyTolerance : string;
  echo_optimizationPreference : JS.json
}.

Record PlanResponse := {
  inputEcho : InputEcho;
  electricityMaps_enabled : bool;
  plans : list Plan
}.

Inductive HttpResponse :=
| StatusError (code : Z) (error : string)   (* res.status(code).json({ error }) *)
| StatusOk (payload : PlanResponse).        (* res.json(payload) *)

(** [Array.isArray(components)] with the items when it holds. *)
Definition arrayItems (components : JS.json) : option (list JS.json) :=
  match components with
  | JS.JArray items => Some items
  | _ => None
  end.

(** The own property [k] of an item when the item is an object and the
    property is a string. *)
Definition stringProperty (k : string) (c : JS.json) : option string :=
  match c with
  | JS.JObject props =>
      match JS.get_prop k props with
      | Some (JS.JString s) => Some s
      | _ => None
      end
  | _ => None
  end.

(** [comp.name.toLowerCase] has no receiver or is no function. *)
Definition nameError (c : JS.json) : string :=
  match c with
  | JS.JObject props =>
      match JS.get_prop "name" props with
      | None => "Cannot read properties of undefined (reading 'toLowerCase')"
      | Some JS.JNull => "Cannot read properties of null (reading 'toLowerCase')"
      | Some _ => "comp.name.toLowerCase is not a function"
      end
  | _ => "Cannot read properties of undefined (reading 'toLowerCase')"
  end.

(** What the planner reads of one item.  [runtimeTypes.has(c.type)] holds
    only for a string [type]; of a runtime component the code then calls
    [comp.name.toLowerCase()], a [TypeError] unless [name] is a string.
    An item that is no runtime component is not looked at again: it is
    kept with the strings it has, the empty string standing for a [type]
    or [name] that is absent or not a string. *)
Definition readComponent (c : JS.json) : completion Component :=
  let type := match stringProperty "type" c with Some t => t | None => "" end in
  if existsb (String.eqb type) runtimeTypes then
    match stringProperty "name" c with
    | Some name => Normal {| name := name; type := type |}
    | None => Throw (nameError c)
    end
  else
    Normal {| name := match stringProperty "name" c with Some n => n | None => "" end;
              type := type |}.

Fixpoint readEach (items : list JS.json) : completion (list Component) :=
  match items with
  | [] => Normal []
  | c :: rest =>
      match readComponent c with
      | Throw e => Throw e
      | Normal comp =>
          match readEach rest with
          | Throw e => Throw e
          | Normal comps => Normal (comp :: comps)
          end
      end
  end.

Definition isNull (c : JS.json) : bool :=
  match c with JS.JNull => true | _ => false end.

(** The items of the request as the planner reads them.  The first use of
    the array, the filter of [countRuntimeComponents], evaluates [c.type]
    for every item and throws a [TypeError] at an item that is [null];
    [generateKubernetesYaml] then reads the names of the runtime
    components. *)
Definition readComponents (items : list JS.json) : completion (list Component) :=
  if existsb isNull items
  then Throw "Cannot read properties of null (reading 'type')"
  else readEach items.

(** [(x) => Math.round(x * 100) / 100]. *)
Definition rounded (x : float) : float := (JS.Math_round (x * 100) / 100)%float.

(** The strategies evaluated for every request: [(id, label)]. *)
Definition strategies : list (string * string) :=
  [ ("balanced", "Balanced"); ("max-green", "Max Green"); ("budget", "Budget Friendly") ].

(** [(a, b) => b.overall - a.overall]. *)
Definition byOverallDesc (a b : ScoredRegion) : float := (overall b - overall a)%float.

(** The instance class chosen for a strategy id. *)
Definition instanceClassFor (strategyId : string) : string :=
  if String.eqb strategyId "max-green" then "eco-small"
  else if String.eqb strategyId "budget" then "standard-small"
  else "standard-medium".

Definition descriptionFor (strategyId : string) : string :=
  if String.eqb strategyId "max-green" then
    "Prioritizes regions with lower carbon intensity while still keeping latency and cost within acceptable bounds."
  else if String.eqb strategyId "budget" then
    "Prioritizes lower-cost regions and instance types, while keeping latency and carbon footprint reasonable."
  else
    "Balanced trade-off between carbon efficiency, latency, and cost for general workloads.".

(** [regionScores.map(rs => ({ ...rs, overall }))] for the given weights. *)
Definition scoreRegions (weights : Weights float) (regionScores : list RegionScore)
    : list ScoredRegion :=
  map (fun rs =>
         {| rs := rs;
            overall := (co2 rs * w_co2 weights
                        + latency rs * w_latency weights
                        + cost rs * w_cost weights)%float |})
      regionScores.

(** [scoredRegions.sort(...)[0]]; [None] is [undefined]. *)
Definition pickBest (scoredRegions : list ScoredRegion) : option ScoredRegion :=
  hd_error (JS.sort byOverallDesc scoredRegions).

Section Server.

(** Process configuration: [process.env.ELECTRICITYMAPS_API_KEY || ""]. *)
Variable ELECTRICITYMAPS_API_KEY : string.

(** The outside world: how [fetch(url, { headers: { "auth-token": token } })]
    settles. *)
Variable fetch_result : string -> string -> completion Response.

Definition fetch (url token : string) : Async.t Response :=
  fun tr => (fetch_result url token, (tr ++ [url])%list).

(** [getCarbonIntensityForRegion(region)].  For an inherited member of
    the zone map, [mapping.zone] is [undefined], which
    [encodeURIComponent] turns into the text "undefined". *)
Definition getCarbonIntensityForRegion (region : Region) : Async.t CarbonReading :=
  let mapping := REGION_ZONE_MAP (id region) in
  match JS.truthy ELECTRICITYMAPS_API_KEY, mapping with
  | true, Some mapping =>
      let zone :=
        match mapping with
        | OwnMapping zone => zone
        | InheritedMember => "undefined"
        end in
      let url := ELECTRICITYMAPS_API_BASE_URL ++ "/carbon-intensity/latest?zone="
                 ++ JS.encodeURIComponent zone in
      Async.tryCatch
        (resp <- fetch url ELECTRICITYMAPS_API_KEY ;;
         if negb (ok resp) then
           (_ <- Async.await (text resp) ;;
            Async.ret (fallbackReading region))
         else
           (data <- Async.await (json resp) ;;
            ci <- Async.await (carbonIntensityOf data) ;;
            match ci with
            | Some (JS.JNumber ci) =>
                Async.ret {| value := ci; source := "electricitymaps" |}
            | _ => Async.ret (fallbackReading region)
            end))%async
        (fun err => Async.ret (fallbackReading region))
  | _, _ => Async.ret (fallbackReading region)
  end.

(** [arr.map((x, idx) => f x idx)]. *)
Fixpoint mapi_from {A B} (f : A -> nat -> B) (i : nat) (l : list A) : list B :=
  match l with
  | [] => []
  | x :: l' => f x i :: mapi_from f (S i) l'
  end.

(** Step 2 of the handler: the score record of every region.  The four
    arrays indexed by [idx] have one entry per region, so every index is
    in range; a number read out of range would be [undefined], NaN in
    arithmetic. *)
Definition buildRegionScores (userRegion : string) (carbonResults : list CarbonReading)
    : list RegionScore :=
  let carbonValues := map value carbonResults in
  let costValues := map baseCost REGIONS in
  let co2Scores := normalizeScores carbonValues true in
  let costScores := normalizeScores costValues true in
  let latencyScores := map (latencyBaseScore userRegion) REGIONS in
  mapi_from
    (fun r idx =>
       {| region :=
            {| base := r;
               liveCarbonIntensity := nth idx carbonValues PrimFloat.nan;
               carbonSource := source (nth idx carbonResults (fallbackReading r)) |};
          co2 := nth idx co2Scores PrimFloat.nan;
          cost := nth idx costScores PrimFloat.nan;
          latency := nth idx latencyScores PrimFloat.nan |})
    0%nat REGIONS.

(** The body of [strategies.forEach]: the plan pushed for one strategy. *)
Definition buildPlan (components : list Component) (latencyTolerance : string)
    (regionScores : list RegionScore) (recommendedReplicas : Z)
    (strategy : string * string) : completion Plan :=
  let (strategy_id, strategy_label) := strategy in
  let weights := getWeights (T := float) strategy_id latencyTolerance in
  let scoredRegions := scoreRegions weights regionScores in
  match pickBest scoredRegions with
  | None => Throw "Cannot read properties of undefined (reading 'co2')"
  | Some best =>
      let instanceClass := instanceClassFor strategy_id in
      let r := region (rs best) in
      Normal
        {| plan_id := strategy_id;
           plan_label := strategy_label ++ " Plan";
           description := descriptionFor strategy_id;
           scores :=
             {| s_co2 := rounded (co2 (rs best));
                s_latency := rounded (latency (rs best));
                s_cost := rounded (cost (rs best));
                s_overall := rounded (overall best) |};
           carbonIntensity :=
             {| value_gCo2PerKwh := rounded (liveCarbonIntensity r);
                ci_source := carbonSource r |};
           civo :=
             {| civo_region := id (base r);
                regionLabel := label (base r);
                clusterType := "kubernetes";
                instanceClass := instanceClass;
                replicas := recommendedReplicas |};
           notes :=
             [ "Strategy: " ++ strategy_label;
               "Selected region " ++ id (base r) ++ " (" ++ label (base r)
                 ++ ") based on combined CO₂, latency, and cost scores.";
               "Estimated grid carbon intensity: "
                 ++ JS.Number_toString (rounded (liveCarbonIntensity r))
                 ++ " gCO₂eq/kWh (source: " ++ carbonSource r ++ ").";
               "Recommended replicas: " ++ JS.Z_toString recommendedReplicas
                 ++ " (derived from "
                 ++ JS.Z_toString (countRuntimeComponents components)
                 ++ " runtime components and " ++ dquote ++ latencyTolerance
                 ++ dquote ++ " latency tolerance).";
               "Weights used — CO₂: " ++ JS.Number_toString (rounded (w_co2 weights))
                 ++ ", Latency: " ++ JS.Number_toString (rounded (w_latency weights))
                 ++ ", Cost: " ++ JS.Number_toString (rounded (w_cost weights)) ++ "." ];
           kubernetesYaml :=
             generateKubernetesYaml strategy_id (id (base r)) instanceClass
               recommendedReplicas components |}
  end.

(** [strategies.forEach(...)]: plans are pushed in order; an exception
    leaves the loop. *)
Fixpoint forEachPlan (f : string * string -> completion Plan)
    (l : list (string * string)) : completion (list Plan) :=
  match l with
  | [] => Normal []
  | s :: rest =>
      match f s with
      | Throw e => Throw e
      | Normal p =>
          match forEachPlan f rest with
          | Throw e => Throw e
          | Normal ps => Normal (p :: ps)
          end
      end
  end.

Definition orDefault {A} (v : option A) (d : A) : A :=
  match v with Some x => x | None => d end.

(** [app.post("/api/plan", async (req, res) => ...)], on [req.body]
    ([None] when the request carries no body).  The handler has no
    [try]: an exception rejects the handler's promise ([Throw]) and no
    response is sent by it. *)
Definition planHandler (body : option PlanBody) : Async.t HttpResponse :=
  let components :=
    orDefault (match body with Some b => req_components b | None => None end)
              (JS.JArray []) in
  let userRegion :=
    orDefault (match body with Some b => req_userRegion b | None => None end)
              "global" in
  let latencyTolerance :=
    orDefault (match body with Some b => req_latencyTolerance b | None => None end)
              "balanced" in
  let optimizationPreference :=
    orDefault (match body with Some b => req_optimizationPreference b | None => None end)
              (JS.JString "balanced") in
  let badRequest :=
    Async.ret (StatusError 400 "At least one component is required to generate a plan.") in
  match arrayItems components with
  | None => badRequest
  | Some items =>
      if (List.length items =? 0)%nat then badRequest
      else
        (carbonResults <- Async.all (map getCarbonIntensityForRegion REGIONS) ;;
         let regionScores := buildRegionScores userRegion carbonResults in
         components <- Async.await (readComponents items) ;;
         let recommendedReplicas := calcReplicas components latencyTolerance in
         plans <- Async.await
                    (forEachPlan
                       (buildPlan components latencyTolerance regionScores
                                  recommendedReplicas)
                       strategies) ;;
         Async.ret
           (StatusOk
              {| inputEcho :=
                   {| echo_components := items;
                      echo_userRegion := userRegion;
                      echo_latencyTolerance := latencyTolerance;
                      echo_optimizationPreference := optimizationPreference |};
                 electricityMaps_enabled := JS.truthy ELECTRICITYMAPS_API_KEY;
                 plans := plans |}))%async
  end.

End Server.
(* ------------------------------------------------------------------ *)
(** ** Deployment records and the deploy endpoint *)

(** Truthiness of a parsed JSON value. *)
Definition json_truthy (v : JS.json) : bool :=
  match v with
  | JS.JNull => false
  | JS.JBool b => b
  | JS.JNumber x => negb (PrimFloat.is_zero x || PrimFloat.is_nan x)
  | JS.JString s => JS.truthy s
  | JS.JArray _ | JS.JObject _ => true
  end.

(** An entry of [DEPLOYMENTS_HISTORY]. *)
Record Deployment := {
  timestamp : string;
  d_planId : string;
  d_region : string;
  d_regionLabel : string;
  carbonIntensity_gCo2PerKwh : float;
  d_replicas : float;
  d_scores : JS.json;
  estimatedHourlyEnergyKwh : float;
  estimatedHourlyCO2Kg : float;
  estimatedHourlyCostUsd : float;
  estimatedHourlyCostInr : float
}.

(** The body of a deploy request; [None] is an absent property.  The
    handler checks the types of [carbonIntensity] and [replicas] itself. *)
Record DeployBody := {
  dep_planId : option string;
  dep_region : option string;
  dep_regionLabel : option string;
  dep_carbonIntensity : option JS.json;
  dep_replicas : option JS.json;
  dep_scores : option JS.json;
  dep_kubernetesYaml : option string
}.

Record DeployAnalytics := {
  a_timestamp : string;
  a_estimatedHourlyEnergyKwh : float;
  a_estimatedHourlyCO2Kg : float;
  a_estimatedHourlyCostUsd : float;
  a_estimatedHourlyCostInr : float
}.

Inductive DeployResponse :=
| DeployBadRequest (code : Z) (error : string)
| DeployWriteFailed (code : Z) (error details : string)
| DeployDryRun (status message command : string) (analytics : DeployAnalytics)
| DeployApplied (status message command stdout stderr : string)
                (analytics : DeployAnalytics)
| DeployApplyFailed (code : Z) (status message command error stdout stderr : string).

(** What the handler does to the machine. *)
Inductive DeployEffect :=
| WriteFile (path content : string)
| Exec (command : string).

(** How [execShellCommand] settles: resolved with the two streams, or
    rejected with the error and the two streams. *)
Inductive ExecOutcome :=
| ExecResolved (stdout stderr : string)
| ExecRejected (message stdout stderr : string).

Record DeployResult := {
  dr_response : DeployResponse;
  dr_history : list Deployment;
  dr_effects : list DeployEffect
}.

(** [x || d] on an optional string. *)
Definition stringOr (x : option string) (d : string) : string :=
  match x with
  | Some s => JS.or_else s d
  | None => d
  end.

(** [!x] on an optional string. *)
Definition falsy (x : option string) : bool :=
  match x with
  | Some s => negb (JS.truthy s)
  | None => true
  end.

Section Deploy.

(** Process configuration. *)
Variable ENABLE_CIVO_DEPLOY : bool.
Variable KUBECTL_CONTEXT : string.
Variable USD_TO_INR : float.

(** The outside world: the two clock readings, the temporary directory,
    [path.join], and how the file write and the command settle. *)
Variable now_iso : string.
Variable now_ms : Z.
Variable tmpdir : string.
Variable path_join : string -> string -> string.
Variable writeFile_result : string -> string -> completion unit.
Variable exec_result : string -> ExecOutcome.

(** [app.post("/api/deploy", ...)] on [req.body] and the history. *)
Definition deployHandler (body : option DeployBody) (history : list Deployment)
    : DeployResult :=
  let field {A} (f : DeployBody -> option A) : option A :=
    match body with Some b => f b | None => None end in
  let planId := field dep_planId in
  let region := field dep_region in
  let kubernetesYaml := field dep_kubernetesYaml in
  if falsy planId || falsy region || falsy kubernetesYaml then
    {| dr_response :=
         DeployBadRequest 400 "planId, region, and kubernetesYaml are required to deploy.";
       dr_history := history;
       dr_effects := [] |}
  else
    let planId := stringOr planId "" in
    let region := stringOr region "" in
    let kubernetesYaml := stringOr kubernetesYaml "" in
    let safeReplicas :=
      match field dep_replicas with
      | Some (JS.JNumber replicas) => if PrimFloat.ltb 0 replicas then replicas else 1
      | _ => 1
      end%float in
    let assumedPowerKwPerReplica := 0.1%float in
    let hourlyEnergyKwh := (safeReplicas * assumedPowerKwPerReplica)%float in
    let ci :=
      match field dep_carbonIntensity with
      | Some (JS.JNumber carbonIntensity) => carbonIntensity
      | _ => 500
      end%float in
    let estimatedHourlyCO2Kg := ((ci / 1000) * hourlyEnergyKwh)%float in
    let regionMeta := find (fun r => String.eqb (id r) region) REGIONS in
    let baseCostUsdPerReplica :=
      match regionMeta with Some r => baseCost r | None => 0.25%float end in
    let estimatedHourlyCostUsd := (baseCostUsdPerReplica * safeReplicas)%float in
    let estimatedHourlyCostInr := (estimatedHourlyCostUsd * USD_TO_INR)%float in
    let now := now_iso in
    let history :=
      (history ++
       [ {| timestamp := now;
            d_planId := planId;
            d_region := region;
            d_regionLabel := stringOr (field dep_regionLabel) region;
            carbonIntensity_gCo2PerKwh := ci;
            d_replicas := safeReplicas;
            d_scores :=
              match field dep_scores with
              | Some v => if json_truthy v then v else JS.JNull
              | None => JS.JNull
              end;
            estimatedHourlyEnergyKwh := JS.Number_toFixed hourlyEnergyKwh 3;
            estimatedHourlyCO2Kg := JS.Number_toFixed estimatedHourlyCO2Kg 3;
            estimatedHourlyCostUsd := JS.Number_toFixed estimatedHourlyCostUsd 4;
            estimatedHourlyCostInr := JS.Number_toFixed estimatedHourlyCostInr 2 |} ])%list in
    let tmpFile :=
      path_join tmpdir
        ("greenops-plan-" ++ JS.Z_toString now_ms ++ "-" ++ planId ++ ".yaml")%string in
    match writeFile_result tmpFile kubernetesYaml with
    | Throw message =>
        {| dr_response :=
             DeployWriteFailed 500 "Failed to write temporary YAML file for deployment."
                               message;
           dr_history := history;
           dr_effects := [WriteFile tmpFile kubernetesYaml] |}
    | Normal _ =>
        let baseCmd :=
          (if JS.truthy KUBECTL_CONTEXT
           then "kubectl --context " ++ KUBECTL_CONTEXT ++ " apply -f " ++ dquote
                ++ tmpFile ++ dquote
           else "kubectl apply -f " ++ dquote ++ tmpFile ++ dquote)%string in
        let analytics :=
          {| a_timestamp := now;
             a_estimatedHourlyEnergyKwh := JS.Number_toFixed hourlyEnergyKwh 3;
             a_estimatedHourlyCO2Kg := JS.Number_toFixed estimatedHourlyCO2Kg 3;
             a_estimatedHourlyCostUsd := JS.Number_toFixed estimatedHourlyCostUsd 4;
             a_estimatedHourlyCostInr := JS.Number_toFixed estimatedHourlyCostInr 2 |} in
        if negb ENABLE_CIVO_DEPLOY then
          {| dr_response :=
               DeployDryRun "dry-run"
                 "Deployment recorded for analytics, but kubectl apply was not executed because ENABLE_CIVO_DEPLOY is not true."
                 baseCmd analytics;
             dr_history := history;
             dr_effects := [WriteFile tmpFile kubernetesYaml] |}
        else
          match exec_result baseCmd with
          | ExecResolved stdout stderr =>
              {| dr_response :=
                   DeployApplied "ok" "Deployment applied to CIVO cluster via kubectl."
                                 baseCmd stdout stderr analytics;
                 dr_history := history;
                 dr_effects := [WriteFile tmpFile kubernetesYaml; Exec baseCmd] |}
          | ExecRejected message stdout stderr =>
              {| dr_response :=
                   DeployApplyFailed 500 "error" "kubectl apply failed. Check server logs."
                                     baseCmd message stdout stderr;
                 dr_history := history;
                 dr_effects := [WriteFile tmpFile kubernetesYaml; Exec baseCmd] |}
          end
    end.

End Deploy.
(* ------------------------------------------------------------------ *)
(** ** The analytics endpoint *)

(** An entry of [byPlan] or [byRegion] while the history is scanned;
    [g_regionLabel] is present in [byRegion] entries only. *)
Record Group := {
  g_key : string;
  g_regionLabel : option string;
  g_deployments : Z;
  g_totalCO2 : float;
  g_totalCI : float;
  g_totalCostUsd : float
}.

(** An element of the [byPlan] / [byRegion] arrays of the answer. *)
Record GroupRow := {
  row_group : Group;
  avgCI : float;
  avgCostUsd : float;
  totalCostInr : float
}.

Record AnalyticsSummary := {
  totalDeployments : Z;
  totalEstimatedHourlyCO2Kg : float;
  averageCarbonIntensity_gCo2PerKwh : float;
  totalEstimatedHourlyCostUsd : float;
  totalEstimatedHourlyCostInr : float;
  baselineEstimatedHourlyCostUsd : float;
  baselineEstimatedHourlyCostInr : float;
  estimatedHourlySavingsUsd : float;
  estimatedHourlySavingsInr : float
}.

Record AnalyticsResponse := {
  summary : AnalyticsSummary;
  byPlan : list GroupRow;
  byRegion : list GroupRow;
  deployments : list Deployment;
  currency_usdToInr : float
}.

(** The running totals of the scan. *)
Record Totals := {
  totalCO2 : float;
  totalCI : float;
  totalCostUsd : float;
  baselineCostUsd : float
}.

(** A property name that is an array index: the canonical decimal of an
    integer below 2^32 - 1.  [Object.values] lists such names first. *)
Definition arrayIndex (k : string) : option Z :=
  match NilEmpty.uint_of_string k with
  | Some u =>
      let n := Z.of_uint u in
      if String.eqb (JS.Z_toString n) k && (n <=? 4294967294)%Z then Some n else None
  | None => None
  end.

(** [Object.values(obj)] for an object whose own properties were created
    in the order of the list: array indices in ascending order, then the
    other names in creation order. *)
Definition Object_values (props : list Group) : list Group :=
  let isIndex g := match arrayIndex (g_key g) with Some _ => true | None => false end in
  let indexOf g := match arrayIndex (g_key g) with Some n => n | None => 0%Z end in
  (JS.stable_sort (fun a b => (indexOf b <? indexOf a)%Z) (filter isIndex props)
   ++ filter (fun g => negb (isIndex g)) props)%list.

(** One step of the scan on [byPlan] or [byRegion]: [obj[key]] is created
    when it is missing, then its counters are increased.  For a [key] that
    names a member of [Object.prototype] the lookup finds that member, so
    nothing is created and the increments do not land in [obj]. *)
Definition addToGroup (key : string) (regionLabel : option string) (d : Deployment)
    (obj : list Group) : list Group :=
  if existsb (String.eqb key) Object_prototype_keys then obj
  else
    let obj :=
      if existsb (fun g => String.eqb (g_key g) key) obj then obj
      else (obj ++ [ {| g_key := key; g_regionLabel := regionLabel;
                        g_deployments := 0; g_totalCO2 := 0; g_totalCI := 0;
                        g_totalCostUsd := 0 |} ])%list in
    map (fun g =>
           if String.eqb (g_key g) key then
             {| g_key := g_key g;
                g_regionLabel := g_regionLabel g;
                g_deployments := g_deployments g + 1;
                g_totalCO2 := (g_totalCO2 g + estimatedHourlyCO2Kg d)%float;
                g_totalCI := (g_totalCI g + carbonIntensity_gCo2PerKwh d)%float;
                g_totalCostUsd := (g_totalCostUsd g + estimatedHourlyCostUsd d)%float |}
           else g)
        obj.

(** [Math.max(...REGIONS.map((r) => r.baseCost))]. *)
Definition maxBaseCost : float := JS.Math_max (map baseCost REGIONS).

Section Analytics.

Variable USD_TO_INR : float.

(** The body of [deployments.forEach]. *)
Definition scanDeployment (acc : Totals * list Group * list Group) (d : Deployment)
    : Totals * list Group * list Group :=
  let '(t, byPlan, byRegion) := acc in
  ({| totalCO2 := (totalCO2 t + estimatedHourlyCO2Kg d)%float;
      totalCI := (totalCI t + carbonIntensity_gCo2PerKwh d)%float;
      totalCostUsd := (totalCostUsd t + estimatedHourlyCostUsd d)%float;
      baselineCostUsd := (baselineCostUsd t + maxBaseCost * d_replicas d)%float |},
   addToGroup (d_planId d) None d byPlan,
   addToGroup (d_region d) (Some (d_regionLabel d)) d byRegion).

(** [(p) => ({ ...p, avgCI, avgCostUsd, totalCostInr })]. *)
Definition groupRow (g : Group) : GroupRow :=
  {| row_group := g;
     avgCI := if (0 <? g_deployments g)%Z
              then (g_totalCI g / JS.float_of_Z (g_deployments g))%float else 0%float;
     avgCostUsd := if (0 <? g_deployments g)%Z
                   then (g_totalCostUsd g / JS.float_of_Z (g_deployments g))%float
                   else 0%float;
     totalCostInr := JS.Number_toFixed (g_totalCostUsd g * USD_TO_INR) 2 |}.

(** [app.get("/api/analytics", ...)] on the history. *)
Definition analyticsHandler (history : list Deployment) : AnalyticsResponse :=
  let deployments := history in
  let totalDeployments := Z.of_nat (List.length deployments) in
  let '(t, byPlan, byRegion) :=
    fold_left scanDeployment deployments
      ({| totalCO2 := 0; totalCI := 0; totalCostUsd := 0; baselineCostUsd := 0 |},
       [], []) in
  let avgCI :=
    if (0 <? totalDeployments)%Z
    then (totalCI t / JS.float_of_Z totalDeployments)%float else 0%float in
  let baselineCostInr := (baselineCostUsd t * USD_TO_INR)%float in
  let totalCostInr := (totalCostUsd t * USD_TO_INR)%float in
  let savingsUsd := (baselineCostUsd t - totalCostUsd t)%float in
  let savingsInr := (savingsUsd * USD_TO_INR)%float in
  {| summary :=
       {| totalDeployments := totalDeployments;
          totalEstimatedHourlyCO2Kg := JS.Number_toFixed (totalCO2 t) 3;
          averageCarbonIntensity_gCo2PerKwh := JS.Number_toFixed avgCI 2;
          totalEstimatedHourlyCostUsd := JS.Number_toFixed (totalCostUsd t) 4;
          totalEstimatedHourlyCostInr := JS.Number_toFixed totalCostInr 2;
          baselineEstimatedHourlyCostUsd := JS.Number_toFixed (baselineCostUsd t) 4;
          baselineEstimatedHourlyCostInr := JS.Number_toFixed baselineCostInr 2;
          estimatedHourlySavingsUsd := JS.Number_toFixed savingsUsd 4;
          estimatedHourlySavingsInr := JS.Number_toFixed savingsInr 2 |};
     byPlan := map groupRow (Object_values byPlan);
     byRegion := map groupRow (Object_values byRegion);
     deployments := deployments;
     currency_usdToInr := USD_TO_INR |}.

End Analytics.

(* ------------------------------------------------------------------ *)
(** ** Vocabulary of the statements *)

(** Comparisons of numbers in statements are those of the code: [<=],
    [<] and [===] on binary64, all false when an operand is NaN. *)
Definition num_le (x y : float) : Prop := PrimFloat.leb x y = true.
Definition num_lt (x y : float) : Prop := PrimFloat.ltb x y = true.
Definition num_eq (x y : float) : Prop := PrimFloat.eqb x y = true.

(** [best] sits at index [i] of [l], nothing scores higher, and everything
    in front of it scores strictly lower. *)
Definition first_max_at {A : Type} (score : A -> float) (l : list A) (i : nat) (best : A)
    : Prop :=
  nth_error l i = Some best /\
  (forall j other, nth_error l j = Some other -> num_le (score other) (score best)) /\
  (forall j other, (j < i)%nat -> nth_error l j = Some other ->
                   num_lt (score other) (score best)).

(** The overall score of a region under given weights. *)
Definition overallOf (w : Weights float) (entry : RegionScore) : float :=
  (co2 entry * w_co2 w + latency entry * w_latency w + cost entry * w_cost w)%float.

(** No region's overall score under the weights is NaN. *)
Definition scoresAreNumbers (w : Weights float) (regionScores : list RegionScore) : Prop :=
  Forall (fun entry => PrimFloat.is_nan (overallOf w entry) = false) regionScores.

(** The numbers are finite and, when there are any, their spread
    [max - min] does not overflow. *)
Definition finiteSpread (v : list float) : Prop :=
  Forall (fun x => PrimFloat.is_finite x = true) v /\
  (v <> [] -> PrimFloat.is_finite (JS.Math_max v - JS.Math_min v) = true).

Definition unitInterval (x : float) : Prop := num_le 0 x /\ num_le x 1.

(** [plan] is the plan of strategy [strategyId]: it names the catalog
    region at some index of the catalog, and when no overall score is NaN
    that region is the first one with the highest overall score. *)
Definition selectsFirstMaximum (latencyTolerance : string)
    (regionScores : list RegionScore) (strategyId : string) (plan : Plan) : Prop :=
  let w := getWeights (T := float) strategyId latencyTolerance in
  plan_id plan = strategyId /\
  exists i best catalogRegion,
    nth_error REGIONS i = Some catalogRegion /\
    nth_error regionScores i = Some best /\
    base (region best) = catalogRegion /\
    civo_region (civo plan) = id catalogRegion /\
    (scoresAreNumbers w regionScores -> first_max_at (overallOf w) regionScores i best).

(** The base weights (co2, latency, cost) of each strategy. *)
Definition baseWeightTable : list (string * (Q * Q * Q)) :=
  [ ("max-green", (60 # 100, 25 # 100, 15 # 100));
    ("budget",    (15 # 100, 25 # 100, 60 # 100));
    ("balanced",  (34 # 100, 33 # 100, 33 # 100)) ].

(** Per tolerance: the factor of the latency weight and the factor of the
    other two weights. *)
Definition toleranceTable : list (string * (Q * Q)) :=
  [ ("strict",   (12 # 10, 9 # 10));
    ("balanced", (1, 1));
    ("relaxed",  (7 # 10, 11 # 10)) ].

Definition strategyEnumeration : list string := ["max-green"; "budget"; "balanced"].

(** [|x - 1| <= 1e-9] and [0 <= x] on doubles. *)
Definition within_1e9_of_one (x : float) : bool :=
  PrimFloat.leb (PrimFloat.abs (PrimFloat.sub x (JS.lit 1 1)))
                (JS.lit 1 1000000000).

Definition nonnegF (x : float) : bool := PrimFloat.leb (JS.lit 0 1) x.

(** The payload is an object whose [carbonIntensity] is the number [ci]. *)
Definition numericCarbonIntensity (data : JS.json) (ci : float) : Prop :=
  exists props,
    data = JS.JObject props /\
    JS.get_prop "carbonIntensity" props = Some (JS.JNumber ci).

(** The [components] property of a request body, if any. *)
Definition bodyComponents (body : option PlanBody) : option JS.json :=
  match body with Some b => req_components b | None => None end.

(** The body [b] with its [optimizationPreference] replaced. *)
Definition withPreference (b : PlanBody) (p : option JS.json) : PlanBody :=
  {| req_components := req_components b;
     req_userRegion := req_userRegion b;
     req_latencyTolerance := req_latencyTolerance b;
     req_optimizationPreference := p |}.

(** Blocks of a manifest, counted by their [kind:] line. *)
Definition countLines (line : string) (lines : list string) : nat :=
  List.length (filter (String.eqb line) lines).

Definition serviceBlocks (lines : list string) : nat := countLines "kind: Service" lines.
Definition workloadUnits (lines : list string) : nat := countLines "kind: Deployment" lines.

(** The JSON object of a component whose name and type are strings. *)
Definition itemOf (c : Component) : JS.json :=
  JS.JObject [ ("name", JS.JString (name c)); ("type", JS.JString (type c)) ].

(** Sample inputs. *)
Definition sampleComponents : list Component :=
  [ {| name := "Checkout API"; type := "api-gateway" |};
    {| name := "orders-db"; type := "database" |} ].

Definition sampleBody : PlanBody :=
  {| req_components := Some (JS.JArray (map itemOf sampleComponents));
     req_userRegion := Some "eu-west";
     req_latencyTolerance := None;
     req_optimizationPreference := None |}.

Definition unnamedGateway : list Component := [ {| name := ""; type := "api-gateway" |} ].

Definition fiveRuntimeComponents : list Component :=
  [ {| name := "gw"; type := "api-gateway" |};
    {| name := "web"; type := "frontend" |};
    {| name := "worker"; type := "container" |};
    {| name := "cron"; type := "function" |};
    {| name := "mailer"; type := "function" |};
    {| name := "pg"; type := "database" |} ].

Definition london : Region :=
  {| id := "LON1"; label := "London, UK";
     defaultCarbonIntensity := 260; baseCost := 0.24; geoGroup := "eu" |}.

(** A provider that is unreachable, one that answers every request with
    the same well-formed payload, and one that answers the zones listed
    with the numbers given for them. *)
Definition offline (url token : string) : completion Response := Throw "fetch failed".

Definition payloadOf (zone : string) (ci : float) : Response :=
  {| ok := true; status := 200;
     text := Throw "body already read";
     json := Normal (JS.JObject [ ("zone", JS.JString zone);
                                  ("carbonIntensity", JS.JNumber ci) ]) |}.

Definition answering (ci : float) (url token : string) : completion Response :=
  Normal (payloadOf "GB" ci).

Definition liveNetwork : string -> string -> completion Response := answering 123.

(** The region scores when every reading is the static fallback. *)
Definition staticScores : list RegionScore :=
  buildRegionScores "eu-west" (map fallbackReading REGIONS).

(** The caller affinities the latency table knows, with the geography
    group each one targets. *)
Definition affinityTable : list (string * string) :=
  [ ("ap-south", "ap-south"); ("eu-west", "eu");
    ("us-east", "us-east"); ("us-west", "us-west") ].

(** The characters a generated name may contain. *)
Definition nameAlphabet : list ascii :=
  list_ascii_of_string "abcdefghijklmnopqrstuvwxyz0123456789-".

(** The provider URL for a zone, and the zones of the catalog regions in
    catalog order. *)
Definition zoneUrl (zone : string) : string :=
  "https://api.electricitymaps.com/v3/carbon-intensity/latest?zone=" ++ zone.

Definition catalogZones : list string :=
  ["GB"; "DE"; "US-NY-NYIS"; "US-CAL-CISO"; "IN"; "SG"].

Definition answeringPerZone (readings : list (string * float)) (url token : string)
    : completion Response :=
  match find (fun reading => String.eqb (zoneUrl (fst reading)) url) readings with
  | Some (zone, ci) => Normal (payloadOf zone ci)
  | None => Throw "fetch failed"
  end.

(** Readings with a tie between two regions once the scores are rounded
    sums of doubles, and readings of which one is a number too large for
    binary64 ([JSON.parse] reads 1e999 as Infinity). *)
Definition closeReadings : list (string * float) :=
  [ ("GB", 9); ("DE", 0); ("US-NY-NYIS", 9); ("US-CAL-CISO", 9); ("IN", 2); ("SG", 9) ]%float.

Definition spikingReadings : list (string * float) :=
  [ ("GB", PrimFloat.infinity); ("DE", 210); ("US-NY-NYIS", 390);
    ("US-CAL-CISO", 320); ("IN", 650); ("SG", 480) ]%float.

(** The readings the handler holds when the provider answers
    [spikingReadings]. *)
Definition spikingResults : list CarbonReading :=
  map (fun reading => {| value := snd reading; source := "electricitymaps" |})
      spikingReadings.

(** What a call for [region] sends under the API key [key]: nothing, or
    one request. *)
Definition requestsOf (key : string) (region : Region) : list string :=
  if JS.truthy key then
    match REGION_ZONE_MAP (id region) with
    | Some (OwnMapping zone) => [zoneUrl (JS.encodeURIComponent zone)]
    | Some InheritedMember => [zoneUrl "undefined"]
    | None => []
    end
  else [].

(** The body [b] with its [userRegion] or its [components] replaced. *)
Definition withUserRegion (b : PlanBody) (u : option string) : PlanBody :=
  {| req_components := req_components b;
     req_userRegion := u;
     req_latencyTolerance := req_latencyTolerance b;
     req_optimizationPreference := req_optimizationPreference b |}.

Definition withComponents (b : PlanBody) (items : list JS.json) : PlanBody :=
  {| req_components := Some (JS.JArray items);
     req_userRegion := req_userRegion b;
     req_latencyTolerance := req_latencyTolerance b;
     req_optimizationPreference := req_optimizationPreference b |}.

(** An affinity the latency table does not know ([None]: not sent). *)
Definition unrecognizedAffinity (u : option string) : Prop :=
  match u with
  | None => True
  | Some s => ~ In s (map fst affinityTable)
  end.

(** A required string of a deploy request that is absent or empty. *)
Definition missingOrEmpty (x : option string) : Prop := x = None \/ x = Some "".

(** Sum of a list of numbers, added from the left starting at 0. *)
Definition sumF (l : list float) : float := fold_left PrimFloat.add l 0%float.

(** The records of a history filed under [key] by [keyOf]. *)
Definition recordsOf (keyOf : Deployment -> string) (key : string)
    (history : list Deployment) : list Deployment :=
  filter (fun d => String.eqb (keyOf d) key) history.

Definition sampleDeployBody : DeployBody :=
  {| dep_planId := Some "max-green";
     dep_region := Some "FRA1";
     dep_regionLabel := Some "Frankfurt, Germany";
     dep_carbonIntensity := Some (JS.JNumber 210);
     dep_replicas := Some (JS.JNumber 2);
     dep_scores := None;
     dep_kubernetesYaml := Some "kind: Namespace" |}.

Definition simplePathJoin (dir file : string) : string := dir ++ "/" ++ file.

(** What an entry of [byPlan] / [byRegion] holds, in terms of the records
    of the history filed under its key: their number, the sums of their
    estimates, and the label taken from the first of them. *)
Definition groupFor (keyOf : Deployment -> string) (labelOf : Deployment -> option string)
    (history : list Deployment) (g : Group) : Prop :=
  let ds := recordsOf keyOf (g_key g) history in
  ~ In (g_key g) Object_prototype_keys /\
  (0 < g_deployments g)%Z /\
  g_deployments g = Z.of_nat (List.length ds) /\
  g_totalCO2 g = sumF (map estimatedHourlyCO2Kg ds) /\
  g_totalCI g = sumF (map carbonIntensity_gCo2PerKwh ds) /\
  g_totalCostUsd g = sumF (map estimatedHourlyCostUsd ds) /\
  g_regionLabel g = match hd_error ds with Some d => labelOf d | None => None end.

(** The entries are the groups of the history by [keyOf]: one entry per
    key that occurs and is not a member name of [Object.prototype]. *)
Definition groupedBy (keyOf : Deployment -> string) (labelOf : Deployment -> option string)
    (history : list Deployment) (groups : list Group) : Prop :=
  NoDup (map g_key groups) /\
  Forall (groupFor keyOf labelOf history) groups /\
  (forall d, In d history -> ~ In (keyOf d) Object_prototype_keys ->
             In (keyOf d) (map g_key groups)).

(** Sum of a list of integers. *)
Definition sumZ (l : list Z) : Z := fold_right Z.add 0%Z l.

(** The records whose key is not a member name of [Object.prototype]. *)
Definition ownKeyed (keyOf : Deployment -> string) (history : list Deployment)
    : list Deployment :=
  filter (fun d => negb (existsb (String.eqb (keyOf d)) Object_prototype_keys)) history.

(* ------------------------------------------------------------------ *)
(** ** Binary64 in integer units

    The proofs about sums, differences and quotients of doubles read a
    finite double as an integer number of units of 2^-1074, the spacing
    of the smallest doubles; the infinities are placed beyond every
    finite value. *)

Definition top : Z := (2 ^ 2100)%Z.

Definition SFrank (x : spec_float) : Z :=
  match x with
  | S754_zero _ => 0
  | S754_infinity s => if s then - top else top
  | S754_nan => 0
  | S754_finite s m e =>
      if s then - (Zpos m * 2 ^ (e + 1074)) else Zpos m * 2 ^ (e + 1074)
  end%Z.

Definition rank (x : float) : Z := SFrank (Prim2SF x).

(** [V / 2^k] rounded to the nearest integer, ties to even. *)
Definition rne (V k : Z) : Z :=
  let q := (V / 2 ^ k)%Z in
  let t := (V mod 2 ^ k)%Z in
  let h := (2 ^ (k - 1))%Z in
  if (h <? t)%Z || ((t =? h)%Z && Z.odd q) then (q + 1)%Z else q.

(** The double nearest to [V > 0] units, in units. *)
Definition roundPos (V : Z) : Z :=
  let k := Z.max (Z.log2 V - 52) 0 in
  let M := if (k =? 0)%Z then V else rne V k in
  let k' := if (M =? 2 ^ 53)%Z then (k + 1)%Z else k in
  if (k' <=? 2045)%Z then (M * 2 ^ k)%Z else top.

Definition roundZ (v : Z) : Z :=
  if (v =? 0)%Z then 0%Z else if (0 <? v)%Z then roundPos v else (- roundPos (- v))%Z.

Definition signed (s : bool) (v : Z) : Z := if s then (- v)%Z else v.

(** A zero or a finite number. *)
Definition SFfinite (x : spec_float) : bool :=
  match x with
  | S754_zero _ | S754_finite _ _ _ => true
  | _ => false
  end.

(** A zero of either sign, a positive number or +Infinity; and the same
    without +Infinity. *)
Definition SFnonneg (x : spec_float) : bool :=
  match x with
  | S754_zero _ | S754_finite false _ _ | S754_infinity false => true
  | _ => false
  end.

Definition SFnonnegFinite (x : spec_float) : bool :=
  match x with
  | S754_zero _ | S754_finite false _ _ => true
  | _ => false
  end.

Definition nonnegFinite (x : float) : bool := SFnonnegFinite (Prim2SF x).

(* ------------------------------------------------------------------ *)
(** ** Evaluations *)

Example normalizeScores_inverted :
  normalizeScores [260; 210; 390]%float true = [130 / 180; 1; 0]%float.
Proof. reflexivity. Qed.

Example normalizeScores_all_equal :
  normalizeScores [5; 5; 5]%float false = [0.7; 0.7; 0.7]%float.
Proof. reflexivity. Qed.

(** Rounding to two decimals works on the binary value: 1.005 is stored
    slightly below, and a product that overflows stays infinite. *)
Example rounded_samples :
  map rounded [1.005; 0.015; 0.125; -0.004; 1e308]%float
  = [1; 0.02; 0.13; -0; PrimFloat.infinity]%float.
Proof. reflexivity. Qed.

Example Number_toFixed_samples :
  map (fun x => JS.Number_toFixed x 3) [0.0045; 0.0005; 1.0005; -0.0001; 1e21]%float
  = [0.004; 0.001; 1; -0; 1e21]%float.
Proof. reflexivity. Qed.

Example Number_toString_samples :
  map JS.Number_toString [0.78; 260; 0.1 + 0.2; 1e21; 1e-7; -4.35; PrimFloat.nan]%float
  = ["0.78"; "260"; "0.30000000000000004"; "1e+21"; "1e-7"; "-4.35"; "NaN"].
Proof. reflexivity. Qed.

Example Math_min_signed_zero :
  JS.Math_min [0; -0; 3]%float = (-0)%float /\ JS.Math_max [-0; 0]%float = 0%float /\
  JS.Math_min [1; PrimFloat.nan]%float = PrimFloat.nan.
Proof. repeat split; reflexivity. Qed.

Example calcReplicas_five_strict : calcReplicas fiveRuntimeComponents "strict" = 4%Z.
Proof. reflexivity. Qed.

Example calcReplicas_single_gateway :
  calcReplicas [ {| name := "api"; type := "api-gateway" |} ] "balanced" = 1%Z.
Proof. reflexivity. Qed.

Example latency_eu_west_table :
  map (latencyBaseScore "eu-west") REGIONS = [1; 1; 0.8; 0.7; 0.55; 0.55]%float.
Proof. reflexivity. Qed.

Example safeName_sample : map safeName sampleComponents = ["checkout-api"; "orders-db"].
Proof. reflexivity. Qed.

(** Items of a request that are no component objects: an item without a
    type is no runtime component and is accepted; [null], and a runtime
    component without a name, make the planner throw. *)
Example readComponents_samples :
  readComponents (map itemOf sampleComponents) = Normal sampleComponents /\
  readComponents [JS.JNumber 5; JS.JObject [("name", JS.JString "db")]]
  = Normal [ {| name := ""; type := "" |}; {| name := "db"; type := "" |} ] /\
  readComponents [JS.JObject [("type", JS.JString "frontend")]]
  = Throw "Cannot read properties of undefined (reading 'toLowerCase')" /\
  readComponents [JS.JObject [("type", JS.JString "frontend")]; JS.JNull]
  = Throw "Cannot read properties of null (reading 'type')".
Proof. repeat split; reflexivity. Qed.

(** With static readings and an "eu-west" caller, the max-green plan goes
    to Frankfurt, the region with the lowest carbon intensity. *)
Example max_green_static_plan :
  exists plan,
    buildPlan [ {| name := "api"; type := "api-gateway" |} ] "balanced" staticScores 1
              ("max-green", "Max Green") = Normal plan /\
    civo_region (civo plan) = "FRA1" /\
    instanceClass (civo plan) = "eco-small".
Proof. eexists. split; [vm_compute; reflexivity|]. split; reflexivity. Qed.

(** Overall scores that agree as fractions can differ as doubles: with the
    readings 9, 0, 9, 9, 2, 9 and a relaxed tolerance, Frankfurt and
    Bengaluru both score 47/60 under max-green in exact arithmetic; the
    doubles differ in the last place and Bengaluru is ahead. *)
Example close_scores_on_doubles :
  let readings :=
    map (fun reading => {| value := snd reading; source := "electricitymaps" |})
        closeReadings in
  let w := getWeights (T := float) "max-green" "relaxed" in
  map (overallOf w) (buildRegionScores "global" readings)
  = [0.16000000000000003; 0.78333333333333333; 0.17833333333333334;
     0.105; 0.78333333333333344; 0.21500000000000002]%float /\
  option_map (fun best => id (base (region (rs best))))
             (pickBest (scoreRegions w (buildRegionScores "global" readings)))
  = Some "BLR1".
Proof. split; reflexivity. Qed.

(** The estimates of a deployment record are rounded from the doubles:
    45 g/kWh on one replica is the double just below 0.0045 kg, which
    [toFixed(3)] prints as 0.004. *)
Example deploy_record_estimates :
  map (fun d => (d_replicas d, estimatedHourlyEnergyKwh d, estimatedHourlyCO2Kg d,
                 estimatedHourlyCostUsd d, estimatedHourlyCostInr d))
      (dr_history
         (deployHandler false "" 85 "2025-01-01T00:00:00.000Z" 1735689600000 "/tmp"
            simplePathJoin (fun _ _ => Normal tt) (fun _ => ExecResolved "" "")
            (Some {| dep_planId := Some "budget"; dep_region := Some "SFO1";
                     dep_regionLabel := None;
                     dep_carbonIntensity := Some (JS.JNumber 45);
                     dep_replicas := None;
                     dep_scores := None;
                     dep_kubernetesYaml := Some "kind: Namespace" |}) []))
  = [(1, 0.1, 0.004, 0.27, 22.95)]%float.
Proof. reflexivity. Qed.

(* ------------------------------------------------------------------ *)
(** ** Binary64: order, rounding of sums and differences, quotients *)

Local Open Scope Z_scope.

Lemma digits2_size m : digits2_pos m = Pos.size m.
Proof. induction m; simpl; congruence. Qed.

Lemma digits_log2 m : Zpos (digits2_pos m) = Z.log2 (Zpos m) + 1.
Proof. rewrite digits2_size. destruct m; simpl; lia. Qed.

Lemma digits_bounds m :
  2 ^ (Zpos (digits2_pos m) - 1) <= Zpos m < 2 ^ Zpos (digits2_pos m).
Proof.
  rewrite digits_log2.
  replace (Z.log2 (Z.pos m) + 1 - 1) with (Z.log2 (Zpos m)) by lia.
  pose proof (Z.log2_spec (Zpos m) ltac:(lia)) as H.
  replace (Z.log2 (Z.pos m) + 1) with (Z.succ (Z.log2 (Zpos m))) by lia. exact H.
Qed.

Lemma valid_finite s m e :
  valid_binary (S754_finite s m e) = true ->
  -1074 <= e <= 971 /\ Zpos (digits2_pos m) <= 53 /\
  (e = -1074 \/ Zpos (digits2_pos m) = 53).
Proof.
  unfold valid_binary, SpecFloat.valid_binary, bounded, canonical_mantissa, fexp, FloatOps.emin, SpecFloat.emin, prec, emax.
  intros H. apply andb_prop in H as [H1 H2].
  apply Z.eqb_eq in H1. apply Z.leb_le in H2. lia.
Qed.

Lemma finite_rank_bounds s m e :
  valid_binary (S754_finite s m e) = true ->
  0 < Zpos m * 2 ^ (e + 1074) < 2 ^ 2099.
Proof.
  intros H. apply valid_finite in H as (He & Hd & _).
  pose proof (digits_bounds m) as [_ Hm].
  assert (Zpos m < 2 ^ 53).
  { eapply Z.lt_le_trans; [exact Hm|]. apply Z.pow_le_mono_r; lia. }
  assert (0 < 2 ^ (e + 1074)) by (apply Z.pow_pos_nonneg; lia).
  assert (2 ^ (e + 1074) <= 2 ^ 2045) by (apply Z.pow_le_mono_r; lia).
  split; [lia|].
  replace (2 ^ 2099) with (2 ^ 54 * 2 ^ 2045) by (rewrite <- Z.pow_add_r; [reflexivity|lia|lia]).
  assert (2 ^ 53 < 2 ^ 54) by (apply Z.pow_lt_mono_r; lia).
  nia.
Qed.

Lemma top_gt : 2 ^ 2099 < top.
Proof. unfold top. apply Z.pow_lt_mono_r; lia. Qed.

Lemma top_pos : 0 < top.
Proof. unfold top. apply Z.pow_pos_nonneg; lia. Qed.

Lemma magnitude_lt s1 m1 e1 s2 m2 e2 :
  valid_binary (S754_finite s1 m1 e1) = true ->
  valid_binary (S754_finite s2 m2 e2) = true ->
  e1 < e2 ->
  Zpos m1 * 2 ^ (e1 + 1074) < Zpos m2 * 2 ^ (e2 + 1074).
Proof.
  intros H1 H2 Hlt.
  apply valid_finite in H1 as (He1 & Hd1 & _).
  apply valid_finite in H2 as (He2 & _ & [He|Hd2]); [exfalso; clear - He He1 Hlt; lia|].
  pose proof (digits_bounds m1) as [_ Hm1].
  pose proof (digits_bounds m2) as [Hm2 _]. rewrite Hd2 in Hm2.
  assert (Zpos m1 < 2 ^ 53).
  { eapply Z.lt_le_trans; [exact Hm1|]. apply Z.pow_le_mono_r; lia. }
  replace (e2 + 1074) with ((e2 - e1 - 1) + 1 + (e1 + 1074)) by lia.
  rewrite (Z.pow_add_r 2 (e2 - e1 - 1 + 1) (e1 + 1074)) by lia.
  rewrite (Z.pow_add_r 2 (e2 - e1 - 1) 1) by lia.
  assert (0 < 2 ^ (e1 + 1074)) by (apply Z.pow_pos_nonneg; lia).
  assert (0 < 2 ^ (e2 - e1 - 1)) by (apply Z.pow_pos_nonneg; lia).
  change (2 ^ 1) with 2. change (2 ^ (53 - 1)) with (2 ^ 52) in Hm2.
  change (2 ^ 53) with (2 * 2 ^ 52) in H.
  set (a := 2 ^ 52) in *. set (b := 2 ^ (e1 + 1074)) in *. set (c := 2 ^ (e2 - e1 - 1)) in *.
  assert (0 < a) by (unfold a; apply Z.pow_pos_nonneg; lia).
  assert (Zpos m1 * b < 2 * a * b) by (apply Z.mul_lt_mono_pos_r; lia).
  assert (a * (2 * b) <= Zpos m2 * (2 * b)) by (apply Z.mul_le_mono_nonneg_r; lia).
  assert (Zpos m2 * (2 * b) * 1 <= Zpos m2 * (2 * b) * c) by (apply Z.mul_le_mono_nonneg_l; lia).
  lia.
Qed.

Lemma magnitude_compare s1 m1 e1 s2 m2 e2 :
  valid_binary (S754_finite s1 m1 e1) = true ->
  valid_binary (S754_finite s2 m2 e2) = true ->
  (Zpos m1 * 2 ^ (e1 + 1074) ?= Zpos m2 * 2 ^ (e2 + 1074))
  = match e1 ?= e2 with
    | Lt => Lt
    | Gt => Gt
    | Eq => Pos.compare_cont Eq m1 m2
    end.
Proof.
  intros H1 H2.
  destruct (Z.compare_spec e1 e2) as [->|Hlt|Hgt].
  - change (Pos.compare_cont Eq m1 m2) with (Zpos m1 ?= Zpos m2).
    symmetry. apply Zmult_compare_compat_r.
    apply valid_finite in H2 as (He & _). apply Z.lt_gt, Z.pow_pos_nonneg; lia.
  - apply Z.compare_lt_iff. eapply magnitude_lt; eauto.
  - apply Z.compare_gt_iff. eapply magnitude_lt; eauto.
Qed.

Ltac solve_compare :=
  first [ reflexivity
        | apply Z.compare_eq_iff; lia
        | apply Z.compare_lt_iff; lia
        | apply Z.compare_gt_iff; lia ].

Lemma SFcompare_rank x y :
  valid_binary x = true -> valid_binary y = true ->
  x <> S754_nan -> y <> S754_nan ->
  SFcompare x y = Some (SFrank x ?= SFrank y).
Proof.
  intros Vx Vy Nx Ny.
  pose proof top_gt as Ht. pose proof top_pos as Hp.
  destruct x as [sx|sx| |sx mx ex]; [| |congruence|];
    destruct y as [sy|sy| |sy my ey]; try congruence; clear Nx Ny;
    try (pose proof (finite_rank_bounds _ _ _ Vx));
    try (pose proof (finite_rank_bounds _ _ _ Vy));
    unfold SFcompare, SFrank; f_equal.
  - destruct sy; symmetry; solve_compare.
  - destruct sy; symmetry; solve_compare.
  - destruct sx; symmetry; solve_compare.
  - destruct sx, sy; symmetry; solve_compare.
  - destruct sx, sy; symmetry; solve_compare.
  - destruct sx; symmetry; solve_compare.
  - destruct sx, sy; symmetry; solve_compare.
  - pose proof (magnitude_compare _ _ _ _ _ _ Vx Vy) as Hc.
    pose proof (magnitude_compare _ _ _ _ _ _ Vy Vx) as Hc'.
    destruct sx, sy.
    + rewrite Z.compare_opp, Hc'.
      rewrite (Z.compare_antisym ex ey).
      destruct (ex ?= ey); simpl; try reflexivity.
      change (CompOpp (mx ?= my)%positive = (my ?= mx)%positive).
      symmetry. apply Pos.compare_antisym.
    + symmetry. solve_compare.
    + symmetry. solve_compare.
    + rewrite Hc. reflexivity.
Qed.

Lemma is_nan_spec x : is_nan x = true <-> Prim2SF x = S754_nan.
Proof.
  unfold is_nan. rewrite eqb_spec. unfold SFeqb.
  destruct (Prim2SF x) as [s|s| |s m e] eqn:E; simpl.
  - split; discriminate.
  - destruct s; split; discriminate.
  - split; reflexivity.
  - rewrite Z.compare_refl, Pos.compare_cont_refl. destruct s; simpl; split; discriminate.
Qed.

Lemma not_nan_spec x : is_nan x = false <-> Prim2SF x <> S754_nan.
Proof.
  rewrite <- is_nan_spec. destruct (is_nan x); split; congruence.
Qed.

Lemma compare_rank x y :
  is_nan x = false -> is_nan y = false ->
  SFcompare (Prim2SF x) (Prim2SF y) = Some (rank x ?= rank y).
Proof.
  intros Hx Hy. apply SFcompare_rank; try apply Prim2SF_valid; now apply not_nan_spec.
Qed.

Lemma leb_rank x y :
  is_nan x = false -> is_nan y = false -> (x <=? y)%float = (rank x <=? rank y).
Proof.
  intros Hx Hy. rewrite leb_spec. unfold SFleb. rewrite (compare_rank _ _ Hx Hy).
  unfold Z.leb. destruct (rank x ?= rank y); reflexivity.
Qed.

Lemma ltb_rank x y :
  is_nan x = false -> is_nan y = false -> (x <? y)%float = (rank x <? rank y).
Proof.
  intros Hx Hy. rewrite ltb_spec. unfold SFltb. rewrite (compare_rank _ _ Hx Hy).
  unfold Z.ltb. destruct (rank x ?= rank y); reflexivity.
Qed.

Lemma eqb_rank x y :
  is_nan x = false -> is_nan y = false -> (x =? y)%float = (rank x =? rank y).
Proof.
  intros Hx Hy. rewrite eqb_spec. unfold SFeqb. rewrite (compare_rank _ _ Hx Hy).
  destruct (Z.eqb_spec (rank x) (rank y)) as [E|E];
    destruct (Z.compare_spec (rank x) (rank y)); try reflexivity; lia.
Qed.

(** A comparison with NaN is false. *)
Lemma leb_nan_l x y : is_nan x = true -> (x <=? y)%float = false.
Proof.
  intros H. apply is_nan_spec in H. rewrite leb_spec, H. reflexivity.
Qed.

Lemma ltb_nan_r x y : is_nan y = true -> (x <? y)%float = false.
Proof.
  intros H. apply is_nan_spec in H. rewrite ltb_spec, H.
  unfold SFltb. now destruct (Prim2SF x).
Qed.

Lemma iter_pos_nat {A} (f : A -> A) p : forall x, iter_pos f p x = Nat.iter (Pos.to_nat p) f x.
Proof.
  induction p as [p IH|p IH|]; intros x; cbn [iter_pos].
  - rewrite !IH, Pos2Nat.inj_xI.
    replace (S (2 * Pos.to_nat p)) with (Pos.to_nat p + Pos.to_nat p + 1)%nat by lia.
    rewrite !Nat.iter_add. reflexivity.
  - rewrite !IH, Pos2Nat.inj_xO.
    replace (2 * Pos.to_nat p)%nat with (Pos.to_nat p + Pos.to_nat p)%nat by lia.
    rewrite Nat.iter_add. reflexivity.
  - reflexivity.
Qed.

Lemma shr_1_spec m r s :
  0 <= m ->
  shr_1 {| shr_m := m; shr_r := r; shr_s := s |}
  = {| shr_m := m / 2; shr_r := Z.odd m; shr_s := r || s |}.
Proof.
  intros Hm. destruct m as [|p|p]; [reflexivity| |lia].
  destruct p as [p|p|]; unfold shr_1.
  - f_equal. rewrite Pos2Z.inj_xI. apply Z.div_unique with 1; lia.
  - f_equal. rewrite Pos2Z.inj_xO. apply Z.div_unique with 0; lia.
  - reflexivity.
Qed.

Lemma mod_pow2_succ m n :
  0 <= n ->
  (m mod 2 ^ (n + 1) =? 0) = negb (Z.odd (m / 2 ^ n)) && (m mod 2 ^ n =? 0).
Proof.
  intros Hn.
  assert (Hp : 0 < 2 ^ n) by (apply Z.pow_pos_nonneg; lia).
  rewrite Z.pow_add_r by lia. change (2 ^ 1) with 2.
  rewrite Z.rem_mul_r by lia.
  pose proof (Z.mod_pos_bound m (2 ^ n) Hp) as Hb.
  rewrite (Zodd_mod (m / 2 ^ n)).
  pose proof (Z.mod_pos_bound (m / 2 ^ n) 2 ltac:(lia)) as Hc.
  destruct (Z.eqb_spec (m mod 2 ^ n + 2 ^ n * ((m / 2 ^ n) mod 2)) 0) as [E|E];
    destruct (Z.eqb_spec ((m / 2 ^ n) mod 2) 1) as [E1|E1];
    destruct (Z.eqb_spec (m mod 2 ^ n) 0) as [E2|E2]; simpl; try reflexivity; try nia.
Qed.

Lemma iter_shr_1 (n : nat) m r s :
  0 <= m ->
  Nat.iter (S n) shr_1 {| shr_m := m; shr_r := r; shr_s := s |}
  = {| shr_m := m / 2 ^ Z.of_nat (S n);
       shr_r := Z.odd (m / 2 ^ Z.of_nat n);
       shr_s := r || s || negb (m mod 2 ^ Z.of_nat n =? 0) |}.
Proof.
  intros Hm. induction n as [|n IH].
  - unfold Nat.iter; cbn [nat_rect]. rewrite shr_1_spec by exact Hm.
    change (2 ^ Z.of_nat 1) with 2. change (2 ^ Z.of_nat 0) with 1.
    rewrite Z.div_1_r, Z.mod_1_r. simpl. now rewrite orb_false_r.
  - rewrite Nat.iter_succ.
    rewrite IH.
    assert (Hp : 0 < 2 ^ Z.of_nat (S n)) by (apply Z.pow_pos_nonneg; lia).
    rewrite shr_1_spec by (apply Z.div_pos; lia).
    f_equal.
    + rewrite Z.div_div by lia.
      f_equal. rewrite (Nat2Z.inj_succ (S n)), Z.pow_succ_r by lia. lia.
    + replace (Z.of_nat (S n)) with (Z.of_nat n + 1) by lia.
      rewrite (mod_pow2_succ m (Z.of_nat n)) by lia.
      destruct (Z.odd (m / 2 ^ Z.of_nat n)), r, s, (m mod 2 ^ Z.of_nat n =? 0); reflexivity.
Qed.

(** [shr] by [n > 0] bits. *)
Lemma shr_spec m r s e n :
  0 <= m -> 0 < n ->
  shr {| shr_m := m; shr_r := r; shr_s := s |} e n
  = ({| shr_m := m / 2 ^ n;
        shr_r := Z.odd (m / 2 ^ (n - 1));
        shr_s := r || s || negb (m mod 2 ^ (n - 1) =? 0) |}, e + n).
Proof.
  intros Hm Hn. destruct n as [|p|p]; try lia.
  unfold shr. rewrite iter_pos_nat.
  destruct (Pos.to_nat p) as [|k] eqn:E; [lia|].
  rewrite iter_shr_1 by exact Hm.
  replace (Z.of_nat (S k)) with (Zpos p) by lia.
  replace (Z.of_nat k) with (Zpos p - 1) by lia.
  reflexivity.
Qed.

Lemma shr_nonpos mrs e n : n <= 0 -> shr mrs e n = (mrs, e).
Proof. intros Hn. destruct n; try reflexivity; lia. Qed.

Lemma round_bits q r s :
  round_nearest_even q (loc_of_shr_record {| shr_m := q; shr_r := r; shr_s := s |})
  = if r && (s || Z.odd q) then q + 1 else q.
Proof.
  rewrite <- Z.negb_even.
  destruct r, s; simpl; try reflexivity. now destruct (Z.even q).
Qed.

Lemma rne_bits m k :
  0 <= m -> 0 < k ->
  (if Z.odd (m / 2 ^ (k - 1)) && (negb (m mod 2 ^ (k - 1) =? 0) || Z.odd (m / 2 ^ k))
   then m / 2 ^ k + 1 else m / 2 ^ k)
  = rne m k.
Proof.
  intros Hm Hk. unfold rne.
  set (h := 2 ^ (k - 1)).
  assert (Hh : 0 < h) by (apply Z.pow_pos_nonneg; lia).
  assert (E : 2 ^ k = h * 2).
  { unfold h. replace k with ((k - 1) + 1) at 1 by lia. now rewrite Z.pow_add_r by lia. }
  rewrite E.
  rewrite <- (Z.div_div m h 2) by lia.
  rewrite Z.rem_mul_r by lia.
  rewrite (Zodd_mod (m / h)).
  pose proof (Z.mod_pos_bound m h Hh) as Hb.
  pose proof (Z.mod_pos_bound (m / h) 2 ltac:(lia)) as Hc.
  set (a := (m / h) mod 2) in *. set (b := m mod h) in *.
  destruct (Z.odd (m / h / 2));
    destruct (Z.eqb_spec a 1); destruct (Z.eqb_spec b 0);
    destruct (Z.ltb_spec h (b + h * a)); destruct (Z.eqb_spec (b + h * a) h);
    simpl; try reflexivity; try nia.
Qed.

Lemma fexp_eq x : fexp prec emax x = Z.max (x - 53) (-1074).
Proof. reflexivity. Qed.

Lemma Zdigits2_pos_log2 z : 0 < z -> Zdigits2 z = Z.log2 z + 1.
Proof. destruct z as [|p|p]; try lia. intros _. apply digits_log2. Qed.

Lemma log2_bounds z : 0 < z -> 2 ^ Z.log2 z <= z < 2 ^ (Z.log2 z + 1).
Proof. intros H. apply (Z.log2_spec z H). Qed.

Lemma pos_iter_xO m d : Zpos (Pos.iter xO m d) = Zpos m * 2 ^ Zpos d.
Proof.
  induction d as [|d IH] using Pos.peano_ind.
  - simpl. lia.
  - rewrite Pos.iter_succ, Pos2Z.inj_xO, IH, Pos2Z.inj_succ, Z.pow_succ_r by lia. lia.
Qed.

Lemma shl_align_spec m e e' :
  let '(mz, ez) := shl_align m e e' in
  ez = Z.min e e' /\ Zpos mz = Zpos m * 2 ^ (e - ez).
Proof.
  unfold shl_align. destruct (e' - e) as [|p|p] eqn:E.
  - split; [lia|]. rewrite Z.sub_diag, Z.pow_0_r. lia.
  - split; [lia|]. rewrite Z.sub_diag, Z.pow_0_r. lia.
  - split; [lia|]. rewrite pos_iter_xO. f_equal. f_equal. lia.
Qed.

(** Rounding to nearest even does not see a common power of two. *)
Lemma rne_scale m n a :
  0 <= m -> 0 < n -> 0 <= a -> rne (m * 2 ^ a) (n + a) = rne m n.
Proof.
  intros Hm Hn Ha. unfold rne.
  assert (Hpa : 0 < 2 ^ a) by (apply Z.pow_pos_nonneg; lia).
  assert (Hpn : 0 < 2 ^ n) by (apply Z.pow_pos_nonneg; lia).
  assert (Hph : 0 < 2 ^ (n - 1)) by (apply Z.pow_pos_nonneg; lia).
  rewrite Z.pow_add_r by lia.
  replace (n + a - 1) with ((n - 1) + a) by lia. rewrite (Z.pow_add_r 2 (n - 1) a) by lia.
  rewrite Z.div_mul_cancel_r by lia.
  rewrite Z.mul_mod_distr_r by lia.
  set (t := m mod 2 ^ n). set (h := 2 ^ (n - 1)). set (q := m / 2 ^ n).
  replace (h * 2 ^ a <? t * 2 ^ a) with (h <? t).
  2:{ destruct (Z.ltb_spec h t); destruct (Z.ltb_spec (h * 2 ^ a) (t * 2 ^ a)); try reflexivity; nia. }
  replace (t * 2 ^ a =? h * 2 ^ a) with (t =? h).
  2:{ destruct (Z.eqb_spec t h); destruct (Z.eqb_spec (t * 2 ^ a) (h * 2 ^ a)); try reflexivity; nia. }
  reflexivity.
Qed.

Lemma rne_exact q k : 0 < k -> 0 <= q -> rne (q * 2 ^ k) k = q.
Proof.
  intros Hk Hq. unfold rne.
  assert (Hp : 0 < 2 ^ k) by (apply Z.pow_pos_nonneg; lia).
  assert (Hh : 0 < 2 ^ (k - 1)) by (apply Z.pow_pos_nonneg; lia).
  rewrite Z.div_mul by lia. rewrite Z.mod_mul by lia.
  destruct (Z.ltb_spec (2 ^ (k - 1)) 0); [lia|].
  destruct (Z.eqb_spec 0 (2 ^ (k - 1))); [lia|]. reflexivity.
Qed.

Lemma rne_range m k : 0 <= m -> 0 < k -> m / 2 ^ k <= rne m k <= m / 2 ^ k + 1.
Proof.
  intros _ _. unfold rne.
  destruct (_ || _); lia.
Qed.

(** The rounding of an aligned exact mantissa. *)
Lemma binary_round_aux_exact s mz ez :
  -1074 <= ez ->
  ez <= fexp prec emax (Zdigits2 (Zpos mz) + ez) ->
  let r := binary_round_aux prec emax s (Zpos mz) ez loc_Exact in
  r <> S754_nan /\ SFrank r = signed s (roundPos (Zpos mz * 2 ^ (ez + 1074))).
Proof.
  intros Hez Hal.
  rewrite fexp_eq in Hal.
  rewrite Zdigits2_pos_log2 in Hal by lia.
  pose proof (log2_bounds (Zpos mz) ltac:(lia)) as Hlog.
  set (L := Z.log2 (Zpos mz)) in *.
  assert (HL : 0 <= L) by apply Z.log2_nonneg.
  set (a := ez + 1074).
  assert (Hpa : 0 < 2 ^ a) by (apply Z.pow_pos_nonneg; lia).
  assert (HlogV : Z.log2 (Zpos mz * 2 ^ a) = L + a).
  { rewrite Z.log2_mul_pow2 by lia. unfold L. lia. }
  unfold binary_round_aux, shr_fexp.
  rewrite fexp_eq, Zdigits2_pos_log2 by lia. fold L.
  unfold shr_record_of_loc.
  unfold roundPos. rewrite HlogV.
  destruct (Z.eq_dec (Z.max (L + 1 + ez - 53) (-1074) - ez) 0) as [En|En].
  - (* no shift: the mantissa is kept *)
    rewrite En. cbn [shr shr_m loc_of_shr_record round_nearest_even fst snd].
    rewrite fexp_eq, Zdigits2_pos_log2 by lia. fold L. rewrite En.
    cbn [shr shr_m].
    assert (Ek : Z.max (L + a - 52) 0 = a) by (unfold a; lia).
    rewrite Ek.
    assert (HM : (if a =? 0 then Zpos mz * 2 ^ a else rne (Zpos mz * 2 ^ a) a) = Zpos mz).
    { destruct (Z.eqb_spec a 0) as [E0|E0].
      - rewrite E0. simpl. lia.
      - apply rne_exact; lia. }
    rewrite HM.
    assert (Hlt : Zpos mz < 2 ^ 53).
    { eapply Z.lt_le_trans; [apply Hlog|]. apply Z.pow_le_mono_r; lia. }
    destruct (Z.eqb_spec (Zpos mz) (2 ^ 53)) as [E|_]; [lia|].
    replace (a <=? 2045) with (ez <=? 971)
      by (unfold a; destruct (Z.leb_spec ez 971); destruct (Z.leb_spec (ez + 1074) 2045); try reflexivity; lia).
    change (emax - prec) with 971.
    destruct (ez <=? 971); split; try discriminate; destruct s; reflexivity.
  - (* a right shift by [n > 0] bits: the mantissa has more than 53 bits *)
    set (n := Z.max (L + 1 + ez - 53) (-1074) - ez) in *.
    assert (Hn : 0 < n) by lia.
    assert (En' : n = L - 52) by (unfold n; lia).
    rewrite shr_spec by lia.
    cbn [shr_m shr_r shr_s orb].
    rewrite round_bits. rewrite rne_bits by lia.
    pose proof (rne_range (Zpos mz) n ltac:(lia) Hn) as Hr.
    assert (Hq : 2 ^ 52 <= Zpos mz / 2 ^ n < 2 ^ 53).
    { assert (Hpn : 0 < 2 ^ n) by (apply Z.pow_pos_nonneg; lia).
      replace L with (52 + n) in Hlog by lia.
      replace (52 + n + 1) with (53 + n) in Hlog by lia.
      rewrite !Z.pow_add_r in Hlog by lia.
      split.
      - apply Z.div_le_lower_bound; lia.
      - apply Z.div_lt_upper_bound; lia. }
    set (m1 := rne (Zpos mz) n) in *.
    assert (Ek : Z.max (L + a - 52) 0 = n + a) by (unfold a; lia).
    rewrite Ek.
    destruct (Z.eqb_spec (n + a) 0) as [E0|_]; [lia|].
    rewrite rne_scale by lia. fold m1.
    rewrite fexp_eq.
    destruct (Z.eqb_spec m1 (2 ^ 53)) as [E53|N53].
    + (* the rounded mantissa has 54 bits and is shifted once more *)
      rewrite E53.
      change (Zdigits2 (2 ^ 53)) with 54.
      replace (Z.max (54 + (ez + n) - 53) (-1074) - (ez + n)) with 1 by lia.
      rewrite shr_spec by lia. cbn [shr_m].
      change (2 ^ 53 / 2 ^ 1) with (Zpos 4503599627370496).
      cbv iota.
      change (emax - prec) with 971.
      replace (n + a + 1 <=? 2045) with (ez + n + 1 <=? 971)
        by (unfold a; destruct (Z.leb_spec (ez + n + 1) 971);
            destruct (Z.leb_spec (n + (ez + 1074) + 1) 2045); try reflexivity; lia).
      destruct (ez + n + 1 <=? 971); split; try discriminate; [|destruct s; reflexivity].
      unfold SFrank.
      replace (ez + n + 1 + 1074) with (1 + (n + a)) by (unfold a; lia).
      rewrite Z.pow_add_r by lia.
      change (Zpos 4503599627370496) with (2 ^ 52). change (2 ^ 53) with (2 ^ 52 * 2 ^ 1).
      destruct s; unfold signed; lia.
    + assert (Hm1 : 2 ^ 52 <= m1 < 2 ^ 53) by lia.
      assert (Hd1 : Zdigits2 m1 = 53).
      { rewrite Zdigits2_pos_log2 by lia.
        assert (Z.log2 m1 = 52); [|lia].
        apply Z.log2_unique; [lia|]. exact Hm1. }
      rewrite Hd1.
      replace (Z.max (53 + (ez + n) - 53) (-1074) - (ez + n)) with 0 by lia.
      cbn [shr shr_m].
      destruct m1 as [|p1|p1] eqn:Em1; try lia.
      change (emax - prec) with 971.
      replace (n + a <=? 2045) with (ez + n <=? 971)
        by (unfold a; destruct (Z.leb_spec (ez + n) 971);
            destruct (Z.leb_spec (n + (ez + 1074)) 2045); try reflexivity; lia).
      destruct (ez + n <=? 971); split; try discriminate; [|destruct s; reflexivity].
      unfold SFrank. replace (ez + n + 1074) with (n + a) by (unfold a; lia).
      destruct s; reflexivity.
Qed.

Lemma binary_round_rank s m e :
  -1074 <= e ->
  let r := binary_round prec emax s m e in
  r <> S754_nan /\ SFrank r = signed s (roundPos (Zpos m * 2 ^ (e + 1074))).
Proof.
  intros He. unfold binary_round.
  pose proof (shl_align_spec m e (fexp prec emax (Zpos (digits2_pos m) + e))) as Hal.
  destruct (shl_align m e _) as [mz ez]. destruct Hal as (Hez & Hmz).
  rewrite fexp_eq in Hez.
  assert (Hd : Zdigits2 (Zpos mz) + ez = Zpos (digits2_pos m) + e).
  { rewrite Zdigits2_pos_log2 by lia. rewrite Hmz, Z.log2_mul_pow2, digits_log2 by lia. lia. }
  replace (Zpos m * 2 ^ (e + 1074)) with (Zpos mz * 2 ^ (ez + 1074)).
  2:{ rewrite Hmz, <- Z.mul_assoc, <- Z.pow_add_r by lia. f_equal. f_equal. lia. }
  apply binary_round_aux_exact; [lia|].
  rewrite Hd, fexp_eq. lia.
Qed.

Lemma binary_normalize_rank N e sz :
  -1074 <= e ->
  let r := binary_normalize prec emax N e sz in
  r <> S754_nan /\ SFrank r = roundZ (N * 2 ^ (e + 1074)).
Proof.
  intros He. unfold roundZ.
  assert (Hp : 0 < 2 ^ (e + 1074)) by (apply Z.pow_pos_nonneg; lia).
  destruct N as [|p|p]; cbn [binary_normalize].
  - split; [discriminate | reflexivity].
  - destruct (Z.eqb_spec (Zpos p * 2 ^ (e + 1074)) 0); [lia|].
    destruct (Z.ltb_spec 0 (Zpos p * 2 ^ (e + 1074))); [|lia].
    apply (binary_round_rank false p e He).
  - destruct (Z.eqb_spec (Zneg p * 2 ^ (e + 1074)) 0); [lia|].
    destruct (Z.ltb_spec 0 (Zneg p * 2 ^ (e + 1074))); [lia|].
    replace (- (Zneg p * 2 ^ (e + 1074))) with (Zpos p * 2 ^ (e + 1074)) by lia.
    apply (binary_round_rank true p e He).
Qed.

Lemma roundZ_0 : roundZ 0 = 0.
Proof. reflexivity. Qed.

Lemma aligned_rank s m e ez :
  -1074 <= ez -> ez <= e ->
  cond_Zopp s (Zpos (fst (shl_align m e ez))) * 2 ^ (ez + 1074)
  = SFrank (S754_finite s m e).
Proof.
  intros H1 H2.
  pose proof (shl_align_spec m e ez) as Hal.
  destruct (shl_align m e ez) as [mz ez']. destruct Hal as (Hez & Hmz).
  cbn [fst]. rewrite Hmz.
  assert (Zpos m * 2 ^ (e - ez') * 2 ^ (ez + 1074) = Zpos m * 2 ^ (e + 1074)).
  { rewrite <- Z.mul_assoc, <- Z.pow_add_r by lia. f_equal. f_equal. lia. }
  unfold cond_Zopp, SFrank. destruct s; lia.
Qed.

Lemma roundPos_representable s m e :
  valid_binary (S754_finite s m e) = true ->
  roundPos (Zpos m * 2 ^ (e + 1074)) = Zpos m * 2 ^ (e + 1074).
Proof.
  intros V.
  pose proof (valid_finite _ _ _ V) as (He & Hd & Hc).
  pose proof (binary_round_aux_exact false m e ltac:(lia)) as H.
  pose proof (digits_bounds m) as Hm.
  unfold roundPos.
  rewrite Z.log2_mul_pow2 by lia.
  pose proof (digits_log2 m) as Hl.
  assert (Ek : Z.max (e + 1074 + Z.log2 (Zpos m) - 52) 0 = e + 1074) by lia.
  rewrite Ek.
  assert (HM : (if e + 1074 =? 0 then Zpos m * 2 ^ (e + 1074)
                else rne (Zpos m * 2 ^ (e + 1074)) (e + 1074)) = Zpos m).
  { destruct (Z.eqb_spec (e + 1074) 0) as [E0|E0].
    - rewrite E0. simpl. lia.
    - apply rne_exact; lia. }
  rewrite HM.
  assert (Zpos m < 2 ^ 53).
  { eapply Z.lt_le_trans; [apply Hm|]. apply Z.pow_le_mono_r; lia. }
  destruct (Z.eqb_spec (Zpos m) (2 ^ 53)); [lia|].
  destruct (Z.leb_spec (e + 1074) 2045); [reflexivity | lia].
Qed.

Lemma roundZ_representable x :
  valid_binary x = true -> SFfinite x = true -> roundZ (SFrank x) = SFrank x.
Proof.
  intros V F. destruct x as [s|s| |s m e]; try discriminate; [reflexivity|].
  pose proof (finite_rank_bounds _ _ _ V) as Hb.
  pose proof (roundPos_representable _ _ _ V) as Hr.
  unfold roundZ, SFrank. destruct s.
  - destruct (Z.eqb_spec (- (Zpos m * 2 ^ (e + 1074))) 0); [lia|].
    destruct (Z.ltb_spec 0 (- (Zpos m * 2 ^ (e + 1074)))); [lia|].
    rewrite Z.opp_involutive, Hr. reflexivity.
  - destruct (Z.eqb_spec (Zpos m * 2 ^ (e + 1074)) 0); [lia|].
    destruct (Z.ltb_spec 0 (Zpos m * 2 ^ (e + 1074))); [|lia].
    exact Hr.
Qed.

Lemma roundZ_opp v : roundZ (- v) = - roundZ v.
Proof.
  unfold roundZ.
  destruct (Z.eqb_spec v 0) as [->|Hv]; [reflexivity|].
  destruct (Z.eqb_spec (- v) 0); [lia|].
  destruct (Z.ltb_spec 0 v); destruct (Z.ltb_spec 0 (- v)); try lia.
  now rewrite Z.opp_involutive.
Qed.

(** Subtraction of finite numbers: the exact difference, rounded. *)
Lemma SFsub_rank x y :
  valid_binary x = true -> valid_binary y = true ->
  SFfinite x = true -> SFfinite y = true ->
  SF64sub x y <> S754_nan /\
  SFrank (SF64sub x y) = roundZ (SFrank x - SFrank y).
Proof.
  intros Vx Vy Fx Fy.
  destruct x as [sx|sx| |sx mx ex]; try discriminate;
    destruct y as [sy|sy| |sy my ey]; try discriminate.
  - split; [destruct sx, sy; discriminate | destruct sx, sy; reflexivity].
  - split; [discriminate|].
    change (SF64sub (S754_zero sx) (S754_finite sy my ey)) with (S754_finite (negb sy) my ey).
    change (SFrank (S754_zero sx)) with 0. rewrite Z.sub_0_l, roundZ_opp.
    rewrite (roundZ_representable _ Vy eq_refl).
    unfold SFrank. destruct sy; simpl; lia.
  - split; [discriminate|].
    change (SF64sub (S754_finite sx mx ex) (S754_zero sy)) with (S754_finite sx mx ex).
    change (SFrank (S754_zero sy)) with 0. rewrite Z.sub_0_r.
    symmetry. apply (roundZ_representable _ Vx eq_refl).
  - pose proof (valid_finite _ _ _ Vx) as (Hex & _).
    pose proof (valid_finite _ _ _ Vy) as (Hey & _).
    unfold SF64sub, SFsub.
    set (ez := Z.min ex ey).
    rewrite <- (aligned_rank sx mx ex ez), <- (aligned_rank sy my ey ez) by (unfold ez; lia).
    rewrite <- Z.mul_sub_distr_r.
    apply binary_normalize_rank. unfold ez; lia.
Qed.

Lemma SFadd_rank x y :
  valid_binary x = true -> valid_binary y = true ->
  SFfinite x = true -> SFfinite y = true ->
  SF64add x y <> S754_nan /\
  SFrank (SF64add x y) = roundZ (SFrank x + SFrank y).
Proof.
  intros Vx Vy Fx Fy.
  destruct x as [sx|sx| |sx mx ex]; try discriminate;
    destruct y as [sy|sy| |sy my ey]; try discriminate.
  - split; [destruct sx, sy; discriminate | destruct sx, sy; reflexivity].
  - split; [discriminate|].
    change (SF64add (S754_zero sx) (S754_finite sy my ey)) with (S754_finite sy my ey).
    change (SFrank (S754_zero sx)) with 0. rewrite Z.add_0_l.
    symmetry. apply (roundZ_representable _ Vy eq_refl).
  - split; [discriminate|].
    change (SF64add (S754_finite sx mx ex) (S754_zero sy)) with (S754_finite sx mx ex).
    change (SFrank (S754_zero sy)) with 0. rewrite Z.add_0_r.
    symmetry. apply (roundZ_representable _ Vx eq_refl).
  - pose proof (valid_finite _ _ _ Vx) as (Hex & _).
    pose proof (valid_finite _ _ _ Vy) as (Hey & _).
    unfold SF64add, SFadd.
    set (ez := Z.min ex ey).
    rewrite <- (aligned_rank sx mx ex ez), <- (aligned_rank sy my ey ez) by (unfold ez; lia).
    rewrite <- Z.mul_add_distr_r.
    apply binary_normalize_rank. unfold ez; lia.
Qed.

Lemma rne_mono V1 V2 k :
  0 < k -> 0 <= V1 <= V2 -> rne V1 k <= rne V2 k.
Proof.
  intros Hk HV. unfold rne.
  assert (Hh : 0 < 2 ^ (k - 1)) by (apply Z.pow_pos_nonneg; lia).
  assert (E : 2 ^ k = 2 * 2 ^ (k - 1)).
  { replace k with (1 + (k - 1)) at 1 by lia. now rewrite Z.pow_add_r by lia. }
  assert (Hp : 0 < 2 ^ k) by lia.
  pose proof (Z.div_mod V1 (2 ^ k) ltac:(lia)) as D1.
  pose proof (Z.div_mod V2 (2 ^ k) ltac:(lia)) as D2.
  pose proof (Z.mod_pos_bound V1 (2 ^ k) Hp) as B1.
  pose proof (Z.mod_pos_bound V2 (2 ^ k) Hp) as B2.
  assert (Hq : V1 / 2 ^ k <= V2 / 2 ^ k) by (apply Z.div_le_mono; lia).
  set (q1 := V1 / 2 ^ k) in *. set (q2 := V2 / 2 ^ k) in *.
  set (t1 := V1 mod 2 ^ k) in *. set (t2 := V2 mod 2 ^ k) in *.
  set (h := 2 ^ (k - 1)) in *. set (P := 2 ^ k) in *.
  destruct (Z.eq_dec q1 q2) as [Eq|Nq].
  - assert (t1 <= t2) by nia.
    rewrite <- Eq.
    destruct (Z.ltb_spec h t1); destruct (Z.ltb_spec h t2);
      destruct (Z.eqb_spec t1 h); destruct (Z.eqb_spec t2 h);
      destruct (Z.odd q1); simpl; lia.
  - destruct (_ || _); destruct (_ || _); lia.
Qed.

(** The parts of [roundPos]: the shift [k] and the rounded mantissa [M]. *)
Lemma roundPos_parts V :
  0 < V ->
  exists k M,
    k = Z.max (Z.log2 V - 52) 0 /\
    M = (if k =? 0 then V else rne V k) /\
    1 <= M <= 2 ^ 53 /\
    (0 < k -> 2 ^ 52 <= M) /\
    roundPos V = if (if M =? 2 ^ 53 then k + 1 else k) <=? 2045 then M * 2 ^ k else top.
Proof.
  intros HV. eexists _, _. split; [reflexivity|]. split; [reflexivity|].
  pose proof (log2_bounds V HV) as Hlog.
  pose proof (Z.log2_nonneg V) as HL.
  set (L := Z.log2 V) in *. set (k := Z.max (L - 52) 0).
  split; [|split; [|reflexivity]].
  - destruct (Z.eqb_spec k 0) as [E|E].
    + assert (V < 2 ^ 53); [|lia].
      eapply Z.lt_le_trans; [apply Hlog|]. apply Z.pow_le_mono_r; lia.
    + assert (Hk : 0 < k) by lia.
      pose proof (rne_range V k ltac:(lia) Hk) as Hr.
      assert (Hpk : 0 < 2 ^ k) by (apply Z.pow_pos_nonneg; lia).
      assert (2 ^ 52 <= V / 2 ^ k < 2 ^ 53); [|lia].
      replace L with (52 + k) in Hlog by lia.
      replace (52 + k + 1) with (53 + k) in Hlog by lia.
      rewrite !Z.pow_add_r in Hlog by lia.
      split; [apply Z.div_le_lower_bound | apply Z.div_lt_upper_bound]; lia.
  - intros Hk. destruct (Z.eqb_spec k 0) as [E|E]; [lia|].
    pose proof (rne_range V k ltac:(lia) Hk) as Hr.
    assert (Hpk : 0 < 2 ^ k) by (apply Z.pow_pos_nonneg; lia).
    assert (2 ^ 52 <= V / 2 ^ k); [|lia].
    replace L with (52 + k) in Hlog by lia.
    rewrite !Z.pow_add_r in Hlog by lia.
    apply Z.div_le_lower_bound; lia.
Qed.

Lemma finite_product_below_top M k :
  0 <= M <= 2 ^ 53 -> 0 <= k <= 2045 -> M * 2 ^ k < top.
Proof.
  intros HM Hk.
  assert (2 ^ k <= 2 ^ 2045) by (apply Z.pow_le_mono_r; lia).
  assert (0 < 2 ^ k) by (apply Z.pow_pos_nonneg; lia).
  assert (2 ^ 53 * 2 ^ 2045 < top).
  { unfold top. rewrite <- Z.pow_add_r by lia. apply Z.pow_lt_mono_r; lia. }
  assert (M * 2 ^ k <= 2 ^ 53 * 2 ^ 2045) by (apply Z.mul_le_mono_nonneg; lia).
  lia.
Qed.

Lemma roundPos_range V : 0 < V -> 0 < roundPos V <= top.
Proof.
  intros HV. destruct (roundPos_parts V HV) as (k & M & Hk & HM & HMr & _ & ->).
  pose proof top_pos.
  destruct (Z.leb_spec (if M =? 2 ^ 53 then k + 1 else k) 2045) as [Hle|]; [|lia].
  assert (0 <= k <= 2045) by (destruct (M =? 2 ^ 53); lia).
  pose proof (finite_product_below_top M k ltac:(lia) ltac:(lia)).
  assert (0 < 2 ^ k) by (apply Z.pow_pos_nonneg; lia).
  nia.
Qed.

Lemma roundPos_mono V1 V2 : 0 < V1 <= V2 -> roundPos V1 <= roundPos V2.
Proof.
  intros HV.
  destruct (roundPos_parts V1 ltac:(lia)) as (k1 & M1 & Hk1 & HM1 & HMr1 & Hlo1 & ->).
  destruct (roundPos_parts V2 ltac:(lia)) as (k2 & M2 & Hk2 & HM2 & HMr2 & Hlo2 & ->).
  assert (HL : Z.log2 V1 <= Z.log2 V2) by (apply Z.log2_le_mono; lia).
  assert (Hk : 0 <= k1 <= k2) by lia.
  set (k1' := if M1 =? 2 ^ 53 then k1 + 1 else k1).
  set (k2' := if M2 =? 2 ^ 53 then k2 + 1 else k2).
  assert (Hfin1 : k1' <= 2045 -> M1 * 2 ^ k1 < top).
  { intros H. apply finite_product_below_top; [lia|].
    unfold k1' in H. destruct (M1 =? 2 ^ 53); lia. }
  assert (Hmain : k2' <= 2045 -> k1' <= 2045 /\ M1 * 2 ^ k1 <= M2 * 2 ^ k2).
  { intros H2.
    destruct (Z.eq_dec k1 k2) as [Ek|Nk].
    - assert (HM : M1 <= M2).
      { rewrite HM1, HM2, <- Ek.
        destruct (Z.eqb_spec k1 0); [lia|]. apply rne_mono; lia. }
      rewrite <- Ek in *.
      assert (0 < 2 ^ k1) by (apply Z.pow_pos_nonneg; lia).
      split; [|nia].
      unfold k1', k2' in *.
      destruct (Z.eqb_spec M1 (2 ^ 53)); destruct (Z.eqb_spec M2 (2 ^ 53)); lia.
    - assert (Hlt : k1 + 1 <= k2) by lia.
      assert (k1' <= k2').
      { unfold k1', k2'. destruct (M1 =? 2 ^ 53); destruct (M2 =? 2 ^ 53); lia. }
      split; [lia|].
      assert (H52 : 2 ^ 52 <= M2) by (apply Hlo2; lia).
      assert (Hp1 : 0 < 2 ^ k1) by (apply Z.pow_pos_nonneg; lia).
      assert (Hpow : 2 * 2 ^ k1 <= 2 ^ k2).
      { replace (2 * 2 ^ k1) with (2 ^ (k1 + 1)) by (rewrite Z.pow_add_r by lia; lia).
        apply Z.pow_le_mono_r; lia. }
      assert (M1 * 2 ^ k1 <= 2 ^ 53 * 2 ^ k1) by (apply Z.mul_le_mono_nonneg_r; lia).
      assert (2 ^ 52 * 2 ^ k2 <= M2 * 2 ^ k2) by (apply Z.mul_le_mono_nonneg_r; lia).
      change (2 ^ 53) with (2 ^ 52 * 2) in *.
      assert (0 < 2 ^ 52) by (apply Z.pow_pos_nonneg; lia).
      nia. }
  fold k1' k2'.
  destruct (Z.leb_spec k2' 2045) as [H2|H2].
  - destruct (Hmain H2) as (H1 & Hle).
    destruct (Z.leb_spec k1' 2045); lia.
  - destruct (Z.leb_spec k1' 2045) as [H1|H1]; [|lia].
    specialize (Hfin1 H1). lia.
Qed.

Lemma roundZ_mono v1 v2 : v1 <= v2 -> roundZ v1 <= roundZ v2.
Proof.
  intros Hv. unfold roundZ.
  destruct (Z.eqb_spec v1 0) as [E1|E1]; destruct (Z.eqb_spec v2 0) as [E2|E2];
    destruct (Z.ltb_spec 0 v1); destruct (Z.ltb_spec 0 v2); try lia.
  - pose proof (roundPos_range v2 ltac:(lia)). lia.
  - pose proof (roundPos_range (- v1) ltac:(lia)). lia.
  - apply roundPos_mono. lia.
  - pose proof (roundPos_range (- v1) ltac:(lia)).
    pose proof (roundPos_range v2 ltac:(lia)). lia.
  - pose proof (roundPos_mono (- v2) (- v1) ltac:(lia)). lia.
Qed.

Lemma roundZ_sign v :
  (0 < v -> 0 < roundZ v) /\ (v < 0 -> roundZ v < 0) /\ (v = 0 -> roundZ v = 0).
Proof.
  unfold roundZ.
  destruct (Z.eqb_spec v 0); destruct (Z.ltb_spec 0 v); repeat split; try lia.
  - intros _. pose proof (roundPos_range v ltac:(lia)). lia.
  - intros _. pose proof (roundPos_range (- v) ltac:(lia)). lia.
Qed.

Lemma roundZ_range v : - top <= roundZ v <= top.
Proof.
  unfold roundZ. pose proof top_pos.
  destruct (Z.eqb_spec v 0); [lia|].
  destruct (Z.ltb_spec 0 v).
  - pose proof (roundPos_range v ltac:(lia)). lia.
  - pose proof (roundPos_range (- v) ltac:(lia)). lia.
Qed.

Lemma is_finite_spec x : is_finite x = SFfinite (Prim2SF x).
Proof.
  unfold is_finite, is_infinity, is_nan.
  rewrite !eqb_spec, abs_spec.
  change (Prim2SF infinity) with (S754_infinity false).
  destruct (Prim2SF x) as [s|s| |s m e]; try reflexivity.
  - now destruct s.
  - unfold SFeqb. simpl. rewrite Z.compare_refl, Pos.compare_cont_refl. now destruct s.
Qed.

Lemma finite_not_nan x : is_finite x = true -> is_nan x = false.
Proof.
  rewrite is_finite_spec. intros H. apply not_nan_spec. intros E. now rewrite E in H.
Qed.

Lemma finite_rank x : is_finite x = true -> - 2 ^ 2099 < rank x < 2 ^ 2099.
Proof.
  rewrite is_finite_spec. unfold rank. pose proof (Prim2SF_valid x) as V.
  destruct (Prim2SF x) as [s|s| |s m e]; try discriminate; intros _.
  - simpl. assert (0 < 2 ^ 2099) by (apply Z.pow_pos_nonneg; lia). lia.
  - pose proof (finite_rank_bounds _ _ _ V). unfold SFrank. destruct s; lia.
Qed.

Lemma rank_finite x :
  is_nan x = false -> - top < rank x < top -> is_finite x = true.
Proof.
  rewrite is_finite_spec, not_nan_spec. unfold rank.
  destruct (Prim2SF x) as [s|s| |s m e]; try reflexivity; try congruence.
  simpl. destruct s; lia.
Qed.

(** [x - y] for finite [x] and [y]. *)
Lemma sub_rank x y :
  is_finite x = true -> is_finite y = true ->
  is_nan (x - y) = false /\ rank (x - y) = roundZ (rank x - rank y).
Proof.
  rewrite !is_finite_spec. intros Fx Fy.
  destruct (SFsub_rank _ _ (Prim2SF_valid x) (Prim2SF_valid y) Fx Fy) as (Hn & Hr).
  rewrite <- sub_spec in Hn, Hr.
  split; [now apply not_nan_spec | exact Hr].
Qed.

Lemma add_rank x y :
  is_finite x = true -> is_finite y = true ->
  is_nan (x + y) = false /\ rank (x + y) = roundZ (rank x + rank y).
Proof.
  rewrite !is_finite_spec. intros Fx Fy.
  destruct (SFadd_rank _ _ (Prim2SF_valid x) (Prim2SF_valid y) Fx Fy) as (Hn & Hr).
  rewrite <- add_spec in Hn, Hr.
  split; [now apply not_nan_spec | exact Hr].
Qed.

Lemma rank_zero : rank 0 = 0.
Proof. reflexivity. Qed.

(** The sign of a difference decides the order, also at the infinities. *)
Lemma sub_positive x y :
  is_nan x = false -> is_nan y = false ->
  (0 <? y - x)%float = (x <? y)%float.
Proof.
  intros Nx Ny.
  destruct (is_finite x) eqn:Fx; destruct (is_finite y) eqn:Fy.
  - destruct (sub_rank y x Fy Fx) as (Hn & Hr).
    rewrite (ltb_rank 0 (y - x) eq_refl Hn), (ltb_rank x y Nx Ny), rank_zero, Hr.
    pose proof (roundZ_sign (rank y - rank x)) as (Hp & Hm & Hz).
    destruct (Z.ltb_spec (rank x) (rank y)); destruct (Z.ltb_spec 0 (roundZ (rank y - rank x)));
      try reflexivity; try lia.
  - rewrite !ltb_spec, sub_spec.
    rewrite is_finite_spec in Fx, Fy. apply not_nan_spec in Ny.
    change (Prim2SF 0) with (S754_zero false).
    destruct (Prim2SF x) as [sx|sx| |sx mx ex]; try discriminate;
      destruct (Prim2SF y) as [sy|sy| |sy my ey]; try discriminate; try congruence;
      destruct sy; try destruct sx; reflexivity.
  - rewrite !ltb_spec, sub_spec.
    rewrite is_finite_spec in Fx, Fy. apply not_nan_spec in Nx.
    change (Prim2SF 0) with (S754_zero false).
    destruct (Prim2SF x) as [sx|sx| |sx mx ex]; try discriminate; try congruence;
      destruct (Prim2SF y) as [sy|sy| |sy my ey]; try discriminate;
      destruct sx; try destruct sy; reflexivity.
  - rewrite !ltb_spec, sub_spec.
    rewrite is_finite_spec in Fx, Fy. apply not_nan_spec in Nx. apply not_nan_spec in Ny.
    change (Prim2SF 0) with (S754_zero false).
    destruct (Prim2SF x) as [sx|sx| |sx mx ex]; try discriminate; try congruence;
      destruct (Prim2SF y) as [sy|sy| |sy my ey]; try discriminate; try congruence;
      destruct sx, sy; reflexivity.
Qed.

Lemma round_nearest_even_range m l :
  m <= round_nearest_even m l <= m + 1.
Proof.
  destruct l as [|[ | | ]]; simpl; try lia. destruct (Z.even m); lia.
Qed.

Lemma shr_m_spec mrs e n :
  0 <= shr_m mrs ->
  let '(mrs', e') := shr mrs e n in
  (n <= 0 -> shr_m mrs' = shr_m mrs /\ e' = e) /\
  (0 < n -> shr_m mrs' = shr_m mrs / 2 ^ n /\ e' = e + n).
Proof.
  intros Hm. destruct mrs as [m r s]. cbn [shr_m] in *.
  destruct (Z.ltb_spec 0 n) as [Hn|Hn].
  - rewrite shr_spec by lia. cbn [shr_m]. split; [lia|]. auto.
  - rewrite shr_nonpos by lia. cbn [shr_m]. split; [auto|lia].
Qed.

Lemma Zdigits2_nonneg_bound z p :
  0 <= p -> 0 <= z <= 2 ^ p -> Zdigits2 z <= p + 1.
Proof.
  intros Hp Hz. destruct (Z.eq_dec z 0) as [->|Hnz]; [simpl; lia|].
  rewrite Zdigits2_pos_log2 by lia.
  assert (Z.log2 z <= Z.log2 (2 ^ p)) by (apply Z.log2_le_mono; lia).
  rewrite Z.log2_pow2 in H by lia. lia.
Qed.

Lemma Zdigits2_lt_bound z p :
  0 <= p -> 0 <= z < 2 ^ p -> Zdigits2 z <= p.
Proof.
  intros Hp Hz. destruct (Z.eq_dec z 0) as [->|Hnz]; [simpl; lia|].
  rewrite Zdigits2_pos_log2 by lia.
  assert (Z.log2 z < p); [|lia].
  apply Z.log2_lt_pow2; lia.
Qed.

(** Rounding a quotient below one gives at most one. *)
Lemma binary_round_aux_unit q e lz :
  e <= -53 -> 0 <= q < 2 ^ (- e) ->
  let r := binary_round_aux prec emax false q e lz in
  r <> S754_nan /\ 0 <= SFrank r <= 2 ^ 1074.
Proof.
  intros He Hq.
  unfold binary_round_aux, shr_fexp.
  assert (Hq0 : 0 <= shr_m (shr_record_of_loc q lz)).
  { destruct lz as [|[ | | ]]; simpl; lia. }
  assert (Eq0 : shr_m (shr_record_of_loc q lz) = q).
  { destruct lz as [|[ | | ]]; reflexivity. }
  pose proof (shr_m_spec (shr_record_of_loc q lz) e
                (fexp prec emax (Zdigits2 q + e) - e) Hq0) as H1.
  destruct (shr (shr_record_of_loc q lz) e _) as [mrs1 e1].
  rewrite Eq0 in H1. rewrite fexp_eq in H1.
  pose proof (Zdigits2_lt_bound q (- e) ltac:(lia) Hq) as Hdq.
  set (m1 := shr_m mrs1) in *.
  assert (Hm1 : -1074 <= e1 <= -53 /\ 0 <= m1 < 2 ^ (- e1)).
  { destruct H1 as (Hno & Hsh).
    destruct (Z.ltb_spec 0 (Z.max (Zdigits2 q + e - 53) (-1074) - e)) as [Hn|Hn].
    - destruct (Hsh Hn) as (Em & Ee). split; [lia|].
      rewrite Em.
      set (n := Z.max (Zdigits2 q + e - 53) (-1074) - e) in *.
      assert (0 < 2 ^ n) by (apply Z.pow_pos_nonneg; lia).
      split; [apply Z.div_pos; lia|].
      apply Z.div_lt_upper_bound; [lia|].
      rewrite <- Z.pow_add_r by lia. replace (n + - e1) with (- e) by lia. lia.
    - destruct (Hno Hn) as (Em & Ee). rewrite Em, Ee. lia. }
  destruct Hm1 as (He1 & Hm1).
  pose proof (round_nearest_even_range m1 (loc_of_shr_record mrs1)) as Hr.
  set (m1' := round_nearest_even m1 (loc_of_shr_record mrs1)) in *.
  assert (Hm1' : 0 <= m1' <= 2 ^ (- e1)) by lia.
  pose proof (shr_m_spec (shr_record_of_loc m1' loc_Exact) e1
                (fexp prec emax (Zdigits2 m1' + e1) - e1) ltac:(simpl; lia)) as H2.
  destruct (shr (shr_record_of_loc m1' loc_Exact) e1 _) as [mrs2 e2].
  cbn [shr_record_of_loc shr_m] in H2. rewrite fexp_eq in H2.
  pose proof (Zdigits2_nonneg_bound m1' (- e1) ltac:(lia) Hm1') as Hd1.
  set (m2 := shr_m mrs2) in *.
  assert (Hm2 : -1074 <= e2 <= -52 /\ 0 <= m2 <= 2 ^ (- e2)).
  { destruct H2 as (Hno & Hsh).
    destruct (Z.ltb_spec 0 (Z.max (Zdigits2 m1' + e1 - 53) (-1074) - e1)) as [Hn|Hn].
    - destruct (Hsh Hn) as (Em & Ee). split; [lia|].
      rewrite Em.
      set (n := Z.max (Zdigits2 m1' + e1 - 53) (-1074) - e1) in *.
      assert (0 < 2 ^ n) by (apply Z.pow_pos_nonneg; lia).
      split; [apply Z.div_pos; lia|].
      apply Z.div_le_upper_bound; [lia|].
      rewrite <- Z.pow_add_r by lia. replace (n + - e2) with (- e1) by lia. lia.
    - destruct (Hno Hn) as (Em & Ee). rewrite Em, Ee. lia. }
  destruct Hm2 as (He2 & Hm2).
  assert (Hone : 0 <= m2 * 2 ^ (e2 + 1074) <= 2 ^ 1074).
  { assert (0 < 2 ^ (e2 + 1074)) by (apply Z.pow_pos_nonneg; lia).
    split; [nia|].
    replace (2 ^ 1074) with (2 ^ (- e2) * 2 ^ (e2 + 1074))
      by (rewrite <- Z.pow_add_r by lia; f_equal; lia).
    apply Z.mul_le_mono_nonneg_r; lia. }
  destruct m2 as [|p2|p2] eqn:E2.
  - split; [discriminate|]. simpl. assert (0 < 2 ^ 1074) by (apply Z.pow_pos_nonneg; lia). lia.
  - change (emax - prec) with 971.
    destruct (Z.leb_spec e2 971); [|lia].
    split; [discriminate|]. exact Hone.
  - lia.
Qed.

Lemma div_eucl_div a b : fst (Z.div_eucl a b) = a / b.
Proof. reflexivity. Qed.

(** The quotient of two positive finite numbers, the smaller one first. *)
Lemma SFdiv_unit ma ea md ed :
  valid_binary (S754_finite false ma ea) = true ->
  valid_binary (S754_finite false md ed) = true ->
  Zpos ma * 2 ^ (ea + 1074) < Zpos md * 2 ^ (ed + 1074) ->
  let r := SF64div (S754_finite false ma ea) (S754_finite false md ed) in
  r <> S754_nan /\ 0 <= SFrank r <= 2 ^ 1074.
Proof.
  intros Va Vd Hlt.
  pose proof (valid_finite _ _ _ Va) as (Hea & _).
  pose proof (valid_finite _ _ _ Vd) as (Hed & _).
  unfold SF64div, SFdiv, SFdiv_core_binary.
  rewrite fexp_eq, !Zdigits2_pos_log2 by lia.
  pose proof (log2_bounds (Zpos ma) ltac:(lia)) as Hla.
  pose proof (log2_bounds (Zpos md) ltac:(lia)) as Hld.
  pose proof (Z.log2_nonneg (Zpos ma)) as Hna.
  pose proof (Z.log2_nonneg (Zpos md)) as Hnd.
  set (La := Z.log2 (Zpos ma)) in *. set (Ld := Z.log2 (Zpos md)) in *.
  assert (HX : La + ea <= Ld + ed).
  { assert (2 ^ (La + (ea + 1074)) < 2 ^ (Ld + 1 + (ed + 1074))).
    { rewrite (Z.pow_add_r 2 La (ea + 1074)), (Z.pow_add_r 2 (Ld + 1) (ed + 1074)) by lia.
      assert (0 < 2 ^ (ea + 1074)) by (apply Z.pow_pos_nonneg; lia).
      assert (0 < 2 ^ (ed + 1074)) by (apply Z.pow_pos_nonneg; lia).
      assert (2 ^ La * 2 ^ (ea + 1074) <= Zpos ma * 2 ^ (ea + 1074))
        by (apply Z.mul_le_mono_nonneg_r; lia).
      assert (Zpos md * 2 ^ (ed + 1074) < 2 ^ (Ld + 1) * 2 ^ (ed + 1074))
        by (apply Z.mul_lt_mono_pos_r; lia).
      lia. }
    apply Z.pow_lt_mono_r_iff in H; lia. }
  set (e' := Z.min (Z.max (La + 1 + ea - (Ld + 1 + ed) - 53) (-1074)) (ea - ed)).
  assert (He' : e' <= -53) by (unfold e'; lia).
  set (s := ea - ed - e').
  assert (Hs : 0 <= s) by (unfold s, e'; lia).
  assert (Em' : match s with
                | 0 => Zpos ma
                | Zpos _ => Z.shiftl (Zpos ma) s
                | Zneg _ => 0
                end = Zpos ma * 2 ^ s).
  { destruct s as [|p|p] eqn:Es; try lia.
    - rewrite Z.shiftl_mul_pow2 by lia. reflexivity. }
  rewrite Em'.
  pose proof (div_eucl_div (Zpos ma * 2 ^ s) (Zpos md)) as Hq.
  destruct (Z.div_eucl (Zpos ma * 2 ^ s) (Zpos md)) as [q r]. cbn [fst] in Hq.
  apply binary_round_aux_unit; [exact He'|].
  rewrite Hq.
  assert (Hps : 0 < 2 ^ s) by (apply Z.pow_pos_nonneg; lia).
  split; [apply Z.div_pos; lia|].
  apply Z.div_lt_upper_bound; [lia|].
  (* ma * 2^s < md * 2^(-e') *)
  assert (Hpd : 0 < 2 ^ (ed + 1074)) by (apply Z.pow_pos_nonneg; lia).
  apply (Z.mul_lt_mono_pos_r (2 ^ (ed + 1074))); [exact Hpd|].
  replace (Zpos ma * 2 ^ s * 2 ^ (ed + 1074))
    with (Zpos ma * 2 ^ (ea + 1074) * 2 ^ (- e')).
  2:{ rewrite <- !Z.mul_assoc, <- !Z.pow_add_r by lia. f_equal. f_equal. unfold s. lia. }
  assert (0 < 2 ^ (- e')) by (apply Z.pow_pos_nonneg; lia).
  nia.
Qed.

(** A finite number divided by itself. *)
Lemma SFdiv_self s m e :
  SF64div (S754_finite s m e) (S754_finite s m e) = Prim2SF 1.
Proof.
  unfold SF64div, SFdiv, SFdiv_core_binary.
  replace (Zdigits2 (Zpos m) + e - (Zdigits2 (Zpos m) + e)) with 0 by lia.
  rewrite Z.sub_diag.
  change (Z.min (fexp prec emax 0) 0) with (-53).
  change (0 - -53) with 53.
  rewrite Z.shiftl_mul_pow2 by lia.
  pose proof (div_eucl_div (Zpos m * 2 ^ 53) (Zpos m)) as Hq.
  pose proof (Z.mod_mul (2 ^ 53) (Zpos m) ltac:(lia)) as Hr.
  rewrite (Z.mul_comm (2 ^ 53)) in Hr. unfold Z.modulo in Hr.
  destruct (Z.div_eucl (Zpos m * 2 ^ 53) (Zpos m)) as [q r]. cbn [fst] in Hq.
  rewrite Z.mul_comm, Z.div_mul in Hq by lia. subst q r.
  replace (new_location (Zpos m) 0) with loc_Exact
    by (unfold new_location; now destruct (Z.even (Zpos m))).
  rewrite xorb_nilpotent.
  vm_compute. reflexivity.
Qed.

(* ------------------------------------------------------------------ *)
(** ** ScoreNormalizer *)

Local Open Scope Z_scope.

Lemma rank_one : rank 1 = 2 ^ 1074.
Proof. vm_compute. reflexivity. Qed.

Lemma rank_le_top x : - top <= rank x <= top.
Proof.
  unfold rank. pose proof (Prim2SF_valid x) as V. pose proof top_pos. pose proof top_gt.
  destruct (Prim2SF x) as [s|s| |s m e]; unfold SFrank; try lia.
  - destruct s; lia.
  - pose proof (finite_rank_bounds _ _ _ V). destruct s; lia.
Qed.

(** Numbers that compare equal and are not zero are the same number. *)
Lemma rank_inj x y :
  is_nan x = false -> is_nan y = false -> rank x = rank y -> rank x <> 0 -> x = y.
Proof.
  intros Nx Ny E Hnz.
  pose proof (compare_rank x y Nx Ny) as Hc. rewrite E, Z.compare_refl in Hc.
  unfold rank in Hnz. apply not_nan_spec in Nx, Ny.
  apply Prim2SF_inj.
  destruct (Prim2SF x) as [sx|sx| |sx mx ex]; try congruence;
    destruct (Prim2SF y) as [sy|sy| |sy my ey]; try congruence; cbn [SFcompare] in Hc; unfold SFrank in Hnz;
    try lia; try (destruct sx, sy; try reflexivity; discriminate);
    try (destruct sx; discriminate); try (destruct sy; discriminate).
  destruct sx, sy; try discriminate;
    destruct (Z.compare_spec ex ey) as [->| |]; try discriminate; f_equal.
  - injection Hc as Hc. apply (f_equal CompOpp) in Hc. rewrite CompOpp_involutive in Hc.
    now apply Pos.compare_eq.
  - injection Hc as Hc. now apply Pos.compare_eq.
Qed.

Lemma finite_zero_shape x :
  is_finite x = true -> rank x = 0 -> exists s, Prim2SF x = S754_zero s.
Proof.
  rewrite is_finite_spec. unfold rank. pose proof (Prim2SF_valid x) as V.
  destruct (Prim2SF x) as [s|s| |s m e]; try discriminate; intros _ H; [eauto|].
  pose proof (finite_rank_bounds _ _ _ V). unfold SFrank in H. destruct s; lia.
Qed.

Lemma finite_positive_shape x :
  is_finite x = true -> 0 < rank x -> exists m e, Prim2SF x = S754_finite false m e.
Proof.
  rewrite is_finite_spec. unfold rank. pose proof (Prim2SF_valid x) as V.
  destruct (Prim2SF x) as [s|s| |s m e]; try discriminate; intros _ H; unfold SFrank in H.
  pose proof (finite_rank_bounds _ _ _ V). destruct s; [lia|eauto].
Qed.

(** The quotient of [0 <= a <= d], [0 < d]. *)
Lemma div_unit a d :
  is_finite a = true -> is_finite d = true ->
  0 <= rank a <= rank d -> 0 < rank d ->
  is_nan (a / d) = false /\ 0 <= rank (a / d) <= rank 1.
Proof.
  intros Fa Fd Ha Hd. rewrite rank_one.
  destruct (finite_positive_shape d Fd Hd) as (md & ed & Ed).
  rewrite not_nan_spec. unfold rank at 1 2. rewrite div_spec.
  destruct (Z.eq_dec (rank a) 0) as [Ez|Nz].
  - destruct (finite_zero_shape a Fa Ez) as (s & Ea). rewrite Ea, Ed.
    split; [discriminate|]. cbn [SF64div SFdiv xorb SFrank].
    assert (0 < 2 ^ 1074) by (apply Z.pow_pos_nonneg; lia). lia.
  - destruct (finite_positive_shape a Fa ltac:(lia)) as (ma & ea & Ea).
    destruct (Z.eq_dec (rank a) (rank d)) as [Eq|Ne].
    + assert (a = d) by (apply rank_inj; auto using finite_not_nan).
      subst a. rewrite Ed, SFdiv_self. split; [discriminate|].
      change (SFrank (Prim2SF 1)) with (rank 1). rewrite rank_one. 
      assert (0 < 2 ^ 1074) by (apply Z.pow_pos_nonneg; lia). lia.
    + pose proof (Prim2SF_valid a) as Va. pose proof (Prim2SF_valid d) as Vd.
      unfold rank in Ha, Ne. rewrite Ea, Ed in *.
      apply SFdiv_unit; auto. unfold SFrank in Ha, Ne. lia.
Qed.

Lemma div_self d : is_finite d = true -> rank d <> 0 -> (d / d)%float = 1%float.
Proof.
  rewrite is_finite_spec. unfold rank. intros F Hnz.
  apply Prim2SF_inj. rewrite div_spec.
  destruct (Prim2SF d) as [s|s| |s m e]; try discriminate; [unfold SFrank in Hnz; lia|].
  apply SFdiv_self.
Qed.

Lemma eqb_zero_rank x : is_nan x = false -> rank x = 0 -> (x =? 0)%float = true.
Proof.
  intros N E. rewrite (eqb_rank x 0 N eq_refl), E. reflexivity.
Qed.

(** The scans of [Math.min] and [Math.max]. *)
Lemma is_zero_rank x : is_nan x = false -> is_zero x = true -> rank x = 0.
Proof.
  intros N H. unfold is_zero in H. rewrite (eqb_rank x zero N eq_refl) in H.
  apply Z.eqb_eq in H. exact H.
Qed.

Lemma minStep_spec acc x :
  is_nan acc = false -> is_nan x = false ->
  is_nan (JS.minStep acc x) = false /\
  (JS.minStep acc x = acc \/ JS.minStep acc x = x) /\
  rank (JS.minStep acc x) <= rank acc /\ rank (JS.minStep acc x) <= rank x.
Proof.
  intros Na Nx. unfold JS.minStep, JS.is_neg_zero, JS.is_pos_zero.
  destruct (is_zero x && get_sign x && (is_zero acc && negb (get_sign acc))) eqn:Ez.
  - apply andb_prop in Ez as [Ex Ea].
    apply andb_prop in Ex as [Ex _]. apply andb_prop in Ea as [Ea _].
    pose proof (is_zero_rank x Nx Ex). pose proof (is_zero_rank acc Na Ea).
    repeat split; auto; lia.
  - rewrite (ltb_rank x acc Nx Na).
    destruct (Z.ltb_spec (rank x) (rank acc)); repeat split; auto; lia.
Qed.

Lemma maxStep_spec acc x :
  is_nan acc = false -> is_nan x = false ->
  is_nan (JS.maxStep acc x) = false /\
  (JS.maxStep acc x = acc \/ JS.maxStep acc x = x) /\
  rank acc <= rank (JS.maxStep acc x) /\ rank x <= rank (JS.maxStep acc x).
Proof.
  intros Na Nx. unfold JS.maxStep, JS.is_neg_zero, JS.is_pos_zero.
  destruct (is_zero x && negb (get_sign x) && (is_zero acc && get_sign acc)) eqn:Ez.
  - apply andb_prop in Ez as [Ex Ea].
    apply andb_prop in Ex as [Ex _]. apply andb_prop in Ea as [Ea _].
    pose proof (is_zero_rank x Nx Ex). pose proof (is_zero_rank acc Na Ea).
    repeat split; auto; lia.
  - rewrite (ltb_rank acc x Na Nx).
    destruct (Z.ltb_spec (rank acc) (rank x)); repeat split; auto; lia.
Qed.

Section Scan.
Variable step : float -> float -> float.
Variable le : Z -> Z -> Prop.
Hypothesis le_trans : forall a b c, le a b -> le b c -> le a c.
Hypothesis step_spec : forall acc x,
  is_nan acc = false -> is_nan x = false ->
  is_nan (step acc x) = false /\
  (step acc x = acc \/ step acc x = x) /\
  le (rank (step acc x)) (rank acc) /\ le (rank (step acc x)) (rank x).
Hypothesis le_refl : forall a, le a a.

Lemma scan_spec l : forall acc,
  is_nan acc = false -> Forall (fun x => is_nan x = false) l ->
  let r := fold_left step l acc in
  is_nan r = false /\ (r = acc \/ In r l) /\
  le (rank r) (rank acc) /\ (forall x, In x l -> le (rank r) (rank x)).
Proof.
  induction l as [|y l IH]; intros acc Na Hl; cbn [fold_left].
  - repeat split; auto. intros x [].
  - inversion Hl as [|? ? Ny Hl']; subst.
    destruct (step_spec acc y Na Ny) as (Ns & Hsel & Hacc & Hy).
    destruct (IH (step acc y) Ns Hl') as (Nr & Hin & Hle & Hall).
    split; [exact Nr|]. split; [|split].
    + destruct Hin as [E|Hin]; [|right; now right].
      rewrite E. destruct Hsel as [->| ->]; [now left | right; now left].
    + eapply le_trans; eauto.
    + intros x [<-|Hx]; [eapply le_trans; eauto | auto].
Qed.
End Scan.

Lemma no_nan_existsb l :
  Forall (fun x => is_nan x = false) l -> existsb is_nan l = false.
Proof.
  induction 1 as [|x l Hx _ IH]; [reflexivity|]. simpl. now rewrite Hx, IH.
Qed.

Lemma rank_top_infinity x : is_nan x = false -> rank x = top -> x = infinity.
Proof.
  intros N E. apply (rank_inj x infinity N eq_refl); [exact E|].
  pose proof top_pos. lia.
Qed.

Lemma rank_bottom_infinity x : is_nan x = false -> rank x = - top -> x = neg_infinity.
Proof.
  intros N E. apply (rank_inj x neg_infinity N eq_refl); [exact E|].
  pose proof top_pos. lia.
Qed.

(** [Math.min] of numbers: an element, and below every element. *)
Lemma Math_min_spec l :
  l <> [] -> Forall (fun x => is_nan x = false) l ->
  is_nan (JS.Math_min l) = false /\ In (JS.Math_min l) l /\
  forall x, In x l -> rank (JS.Math_min l) <= rank x.
Proof.
  intros Hne Hl. unfold JS.Math_min. rewrite (no_nan_existsb l Hl).
  destruct (scan_spec JS.minStep Z.le Z.le_trans minStep_spec Z.le_refl l infinity eq_refl Hl)
    as (Nr & Hin & _ & Hall).
  split; [exact Nr|]. split; [|exact Hall].
  destruct Hin as [E|Hin]; [|exact Hin].
  destruct l as [|y l]; [congruence|].
  assert (Hy : rank (fold_left JS.minStep (y :: l) infinity) <= rank y) by (apply Hall; now left).
  rewrite E in Hy |- *. change (rank infinity) with top in Hy.
  inversion Hl as [|? ? Ny _]; subst.
  pose proof (rank_le_top y).
  left. apply rank_top_infinity; [exact Ny | lia].
Qed.

Lemma Math_max_spec l :
  l <> [] -> Forall (fun x => is_nan x = false) l ->
  is_nan (JS.Math_max l) = false /\ In (JS.Math_max l) l /\
  forall x, In x l -> rank x <= rank (JS.Math_max l).
Proof.
  intros Hne Hl. unfold JS.Math_max. rewrite (no_nan_existsb l Hl).
  destruct (scan_spec JS.maxStep Z.ge
              (fun a b c H1 H2 => Z.le_ge _ _ (Z.le_trans _ _ _ (Z.ge_le _ _ H2) (Z.ge_le _ _ H1)))
              (fun acc x Na Nx =>
                 match maxStep_spec acc x Na Nx with
                 | conj Hn (conj Hs (conj Ha Hb)) =>
                     conj Hn (conj Hs (conj (Z.le_ge _ _ Ha) (Z.le_ge _ _ Hb)))
                 end)
              (fun a => Z.le_ge _ _ (Z.le_refl a))
              l neg_infinity eq_refl Hl)
    as (Nr & Hin & _ & Hall).
  split; [exact Nr|]. split; [|intros x Hx; apply Z.ge_le; now apply Hall].
  destruct Hin as [E|Hin]; [|exact Hin].
  destruct l as [|y l]; [congruence|].
  assert (Hy : rank (fold_left JS.maxStep (y :: l) neg_infinity) >= rank y) by (apply Hall; now left).
  rewrite E in Hy |- *. change (rank neg_infinity) with (- top) in Hy.
  inversion Hl as [|? ? Ny _]; subst.
  pose proof (rank_le_top y).
  left. apply rank_bottom_infinity; [exact Ny | lia].
Qed.

Lemma div_rank_zero a d :
  is_finite a = true -> rank a = 0 -> is_finite d = true -> rank d <> 0 ->
  is_nan (a / d) = false /\ rank (a / d) = 0.
Proof.
  intros Fa Ea Fd Hd.
  destruct (finite_zero_shape a Fa Ea) as (s & Ha).
  rewrite not_nan_spec. unfold rank in *. rewrite div_spec, Ha.
  rewrite is_finite_spec in Fd.
  destruct (Prim2SF d) as [sd|sd| |sd md ed]; try discriminate.
  - unfold SFrank in Hd. lia.
  - split; [discriminate | reflexivity].
Qed.

Lemma finite_all_numbers l :
  Forall (fun x => is_finite x = true) l -> Forall (fun x => is_nan x = false) l.
Proof. apply Forall_impl. intros x. apply finite_not_nan. Qed.

Lemma unit_seven_tenths : unitInterval 0.7%float.
Proof. split; reflexivity. Qed.

(** One score of the non-degenerate case: [(x - min) / (max - min)] for
    finite [min <= x <= max] with [min < max] and a finite spread. *)
Lemma scaled_score mn mx x :
  is_finite mn = true -> is_finite mx = true -> is_finite x = true ->
  is_finite (mx - mn) = true ->
  rank mn <= rank x <= rank mx -> rank mn < rank mx ->
  let y := ((x - mn) / (mx - mn))%float in
  unitInterval y /\
  (rank x = rank mn -> num_eq y 0) /\
  (rank x = rank mx -> num_eq y 1).
Proof.
  intros Fmn Fmx Fx Fd Hx Hlt y.
  destruct (sub_rank x mn Fx Fmn) as (Na & Ra).
  destruct (sub_rank mx mn Fmx Fmn) as (Nd & Rd).
  pose proof (roundZ_mono 0 (rank x - rank mn) ltac:(lia)) as Hlo.
  pose proof (roundZ_mono (rank x - rank mn) (rank mx - rank mn) ltac:(lia)) as Hhi.
  pose proof (roundZ_sign (rank mx - rank mn)) as (Hpos & _ & _).
  specialize (Hpos ltac:(lia)).
  rewrite roundZ_0 in Hlo. rewrite <- Ra in Hlo, Hhi. rewrite <- Rd in Hhi, Hpos.
  pose proof (finite_rank _ Fd) as Hdb. pose proof top_gt.
  assert (Fa : is_finite (x - mn) = true) by (apply rank_finite; [exact Na | lia]).
  destruct (div_unit (x - mn) (mx - mn) Fa Fd ltac:(lia) Hpos) as (Ny & Hy).
  fold y in Ny, Hy.
  split; [|split].
  - split; unfold num_le.
    + rewrite (leb_rank 0 y eq_refl Ny). apply Z.leb_le. rewrite rank_zero. lia.
    + rewrite (leb_rank y 1 Ny eq_refl). apply Z.leb_le. lia.
  - intros E. 
    assert (Ez : rank (x - mn) = 0).
    { rewrite Ra. replace (rank x - rank mn) with 0 by lia. apply roundZ_0. }
    destruct (div_rank_zero (x - mn) (mx - mn) Fa Ez Fd ltac:(lia)) as (_ & Hz).
    fold y in Hz. unfold num_eq. now apply eqb_zero_rank.
  - intros E.
    assert (Eq : (x - mn)%float = (mx - mn)%float).
    { assert (Er : rank (x - mn) = rank (mx - mn)) by (rewrite Ra, Rd; now rewrite E).
      apply rank_inj; auto. lia. }
    unfold y. rewrite Eq, div_self by (auto; lia). reflexivity.
Qed.

Lemma normalizeScores_length values invert :
  List.length (normalizeScores values invert) = List.length values.
Proof.
  unfold normalizeScores.
  destruct (Nat.eqb_spec (List.length values) 0) as [E|E]; [now rewrite E|].
  destruct (_ =? _)%float; rewrite length_map; destruct invert;
    rewrite ?length_map; reflexivity.
Qed.

(** The extremes of a non-empty list of numbers. *)
Lemma extremes_spec v :
  v <> [] -> Forall (fun x => is_nan x = false) v ->
  is_nan (JS.Math_min v) = false /\ is_nan (JS.Math_max v) = false /\
  In (JS.Math_min v) v /\ In (JS.Math_max v) v /\
  forall b, In b v -> rank (JS.Math_min v) <= rank b <= rank (JS.Math_max v).
Proof.
  intros Hne Hn.
  destruct (Math_min_spec v Hne Hn) as (N1 & I1 & L1).
  destruct (Math_max_spec v Hne Hn) as (N2 & I2 & L2).
  repeat split; auto.
Qed.

(** Scores of finite inputs with a finite spread lie in [0, 1]. *)
Lemma normalizeScores_unit (values : list float) (invert : bool) :
  finiteSpread (if invert then map PrimFloat.opp values else values) ->
  Forall unitInterval (normalizeScores values invert).
Proof.
  unfold normalizeScores.
  set (v := if invert then map (fun x => (- x)%float) values else values).
  change (if invert then map PrimFloat.opp values else values) with v.
  intros (Hfin & Hspread).
  destruct (Nat.eqb_spec (List.length values) 0) as [E0|El]; [constructor|].
  assert (Hne : v <> []).
  { intros E. apply El. unfold v in E. destruct invert; [|now rewrite E].
    destruct values; [reflexivity | discriminate]. }
  specialize (Hspread Hne).
  pose proof (finite_all_numbers v Hfin) as Hn.
  destruct (extremes_spec v Hne Hn) as (Nmn & Nmx & Imn & Imx & Hbounds).
  pose proof (proj1 (Forall_forall _ _) Hfin) as Hfin'.
  rewrite (eqb_rank _ _ Nmx Nmn).
  destruct (Z.eqb_spec (rank (JS.Math_max v)) (rank (JS.Math_min v))) as [E|E];
    apply Forall_forall; intros y Hy; apply in_map_iff in Hy as (x & <- & Hx).
  - apply unit_seven_tenths.
  - apply scaled_score; auto.
    pose proof (Hbounds (JS.Math_min v) Imn). lia.
Qed.

Lemma opp_rank x : rank (- x) = - rank x.
Proof.
  unfold rank. rewrite opp_spec.
  destruct (Prim2SF x) as [s|s| |s m e]; unfold SFrank, SFopp; try reflexivity;
    destruct s; cbn [negb]; lia.
Qed.

Lemma opp_finite x : is_finite (- x) = is_finite x.
Proof.
  rewrite !is_finite_spec, opp_spec. now destruct (Prim2SF x).
Qed.

(** Negating every element keeps the elements finite and the spread
    finite. *)
Lemma finiteSpread_opp v : finiteSpread v -> finiteSpread (map PrimFloat.opp v).
Proof.
  intros (Hfin & Hspread).
  assert (Hfin' : Forall (fun x => is_finite x = true) (map PrimFloat.opp v)).
  { apply Forall_forall. intros y Hy. apply in_map_iff in Hy as (x & <- & Hx).
    rewrite opp_finite. rewrite Forall_forall in Hfin. now apply Hfin. }
  split; [exact Hfin'|]. intros Hne'.
  assert (Hne : v <> []) by (intros E; now rewrite E in Hne').
  specialize (Hspread Hne).
  destruct (extremes_spec v Hne (finite_all_numbers v Hfin))
    as (_ & _ & Imn & Imx & Hb).
  destruct (extremes_spec _ Hne' (finite_all_numbers _ Hfin'))
    as (_ & _ & Imn' & Imx' & Hb').
  set (mn := JS.Math_min v) in *. set (mx := JS.Math_max v) in *.
  set (mn' := JS.Math_min (map PrimFloat.opp v)) in *.
  set (mx' := JS.Math_max (map PrimFloat.opp v)) in *.
  pose proof (proj1 (Forall_forall _ _) Hfin) as F.
  pose proof (proj1 (Forall_forall _ _) Hfin') as F'.
  assert (Emx : rank mx' = - rank mn).
  { pose proof Imx' as I. apply in_map_iff in I as (a & Ea & Ia).
    pose proof (Hb' (- mn)%float (in_map _ _ _ Imn)) as H1.
    pose proof (Hb a Ia) as H2.
    rewrite opp_rank in H1. rewrite <- Ea in H1 |- *. rewrite opp_rank in H1 |- *. lia. }
  assert (Emn : rank mn' = - rank mx).
  { pose proof Imn' as I. apply in_map_iff in I as (a & Ea & Ia).
    pose proof (Hb' (- mx)%float (in_map _ _ _ Imx)) as H1.
    pose proof (Hb a Ia) as H2.
    rewrite opp_rank in H1. rewrite <- Ea in H1 |- *. rewrite opp_rank in H1 |- *. lia. }
  destruct (sub_rank mx mn (F _ Imx) (F _ Imn)) as (_ & R).
  destruct (sub_rank mx' mn' (F' _ Imx') (F' _ Imn')) as (N' & R').
  apply rank_finite; [exact N'|].
  pose proof (finite_rank _ Hspread) as Hr. pose proof top_gt.
  rewrite R', Emx, Emn.
  replace (- rank mn - - rank mx) with (rank mx - rank mn) by lia.
  rewrite <- R. lia.
Qed.




(* ------------------------------------------------------------------ *)
(** ** Sums of products of non-negative numbers are numbers *)

Local Open Scope Z_scope.

Lemma shr_m_nonneg mrs e n :
  0 <= shr_m mrs -> 0 <= shr_m (fst (shr mrs e n)).
Proof.
  intros Hm. pose proof (shr_m_spec mrs e n Hm) as H.
  destruct (shr mrs e n) as [mrs' e']. cbn [fst]. destruct H as (Hno & Hsh).
  destruct (Z.ltb_spec 0 n) as [Hn|Hn].
  - destruct (Hsh Hn) as (-> & _). apply Z.div_pos; [lia|]. apply Z.pow_pos_nonneg; lia.
  - destruct (Hno Hn) as (-> & _). exact Hm.
Qed.

(** Rounding a non-negative significand gives no NaN and nothing
    negative. *)
Lemma binary_round_aux_nonneg m e l :
  0 <= m -> SFnonneg (binary_round_aux prec emax false m e l) = true.
Proof.
  intros Hm. unfold binary_round_aux, shr_fexp.
  assert (Hq0 : 0 <= shr_m (shr_record_of_loc m l)).
  { destruct l as [|[ | | ]]; simpl; lia. }
  pose proof (shr_m_nonneg (shr_record_of_loc m l) e
                (fexp prec emax (Zdigits2 m + e) - e) Hq0) as H1.
  destruct (shr (shr_record_of_loc m l) e _) as [mrs1 e1]. cbn [fst] in H1.
  pose proof (round_nearest_even_range (shr_m mrs1) (loc_of_shr_record mrs1)) as Hr.
  set (m1 := round_nearest_even (shr_m mrs1) (loc_of_shr_record mrs1)) in *.
  pose proof (shr_m_nonneg (shr_record_of_loc m1 loc_Exact) e1
                (fexp prec emax (Zdigits2 m1 + e1) - e1) ltac:(simpl; lia)) as H2.
  destruct (shr (shr_record_of_loc m1 loc_Exact) e1 _) as [mrs2 e2]. cbn [fst] in H2.
  destruct (shr_m mrs2) as [|p|p]; [reflexivity| |lia].
  destruct (e2 <=? emax - prec); reflexivity.
Qed.

Lemma SFmul_nonneg x y :
  SFnonnegFinite x = true -> SFnonnegFinite y = true ->
  SFnonneg (SFmul prec emax x y) = true.
Proof.
  destruct x as [sx|sx| |sx mx ex], y as [sy|sy| |sy my ey]; try discriminate;
    try reflexivity.
  destruct sx, sy; try discriminate. intros _ _.
  unfold SFmul. cbn [xorb]. apply binary_round_aux_nonneg. lia.
Qed.

Lemma SFadd_nonneg x y :
  SFnonneg x = true -> SFnonneg y = true -> SFnonneg (SFadd prec emax x y) = true.
Proof.
  destruct x as [sx|sx| |sx mx ex], y as [sy|sy| |sy my ey]; try discriminate;
    try destruct sx; try destruct sy; try discriminate; try reflexivity.
  intros _ _. cbn [SFadd cond_Zopp].
  unfold binary_normalize.
  set (a := fst (shl_align mx ex (Z.min ex ey))).
  set (b := fst (shl_align my ey (Z.min ex ey))).
  change (Zpos a + Zpos b) with (Zpos (a + b)). cbv iota.
  unfold binary_round.
  destruct (shl_align (a + b) (Z.min ex ey) _) as [mz ez].
  apply binary_round_aux_nonneg. lia.
Qed.

Lemma nonneg_not_nan x : SFnonneg (Prim2SF x) = true -> is_nan x = false.
Proof.
  intros H. apply not_nan_spec. intros E. rewrite E in H. discriminate.
Qed.

(** [a * u + b * v + c * w] is a number when the six operands are
    non-negative and finite. *)
Lemma weighted_sum_is_number a u b v c w :
  nonnegFinite a = true -> nonnegFinite u = true ->
  nonnegFinite b = true -> nonnegFinite v = true ->
  nonnegFinite c = true -> nonnegFinite w = true ->
  is_nan (a * u + b * v + c * w) = false.
Proof.
  unfold nonnegFinite. intros Ha Hu Hb Hv Hc Hw.
  apply nonneg_not_nan.
  rewrite !add_spec, !mul_spec.
  apply SFadd_nonneg; [apply SFadd_nonneg|]; apply SFmul_nonneg; assumption.
Qed.

Lemma unitInterval_nonnegFinite x : unitInterval x -> nonnegFinite x = true.
Proof.
  intros (H0 & H1). unfold num_le in *.
  assert (Nx : is_nan x = false).
  { destruct (is_nan x) eqn:E; [|reflexivity]. now rewrite (leb_nan_l x 1 E) in H1. }
  rewrite (leb_rank 0 x eq_refl Nx) in H0. rewrite (leb_rank x 1 Nx eq_refl) in H1.
  apply Z.leb_le in H0, H1. rewrite rank_zero in H0. rewrite rank_one in H1.
  apply not_nan_spec in Nx. pose proof (Prim2SF_valid x) as V.
  unfold nonnegFinite, rank in *.
  pose proof top_gt as Ht. pose proof top_pos as Htp.
  assert (Hp : 2 ^ 1074 < 2 ^ 2099) by (apply Z.pow_lt_mono_r; lia).
  destruct (Prim2SF x) as [s|s| |s m e]; try reflexivity; try congruence.
  - exfalso. unfold SFrank in *. destruct s; [lia|].
    apply (Z.lt_irrefl top). eapply Z.le_lt_trans; [exact H1|].
    eapply Z.lt_trans; eassumption.
  - unfold SFrank in H0. destruct s; [|reflexivity].
    pose proof (finite_rank_bounds true m e V). lia.
Qed.

(* ------------------------------------------------------------------ *)
(** ** WeightPolicy *)

Local Open Scope Q_scope.

(** C6.  For each of the three strategies and three tolerances, the weights
    are non-negative and sum to 1 over the rationals; each is the base
    weight times its tolerance factor, divided by the sum of the three
    adjusted weights.  Evaluated in binary64, the weights are non-negative
    and their sum is within 1e-9 of 1. *)
Theorem getWeights_normalized (strategy latencyTolerance : string)
    (b1 b2 b3 fl fo : Q) :
  In (strategy, (b1, b2, b3)) baseWeightTable ->
  In (latencyTolerance, (fl, fo)) toleranceTable ->
  let w := getWeights (T := Q) strategy latencyTolerance in
  let sum := b1 * fo + b2 * fl + b3 * fo in
  (0 <= w_co2 w /\ 0 <= w_latency w /\ 0 <= w_cost w) /\
  w_co2 w + w_latency w + w_cost w == 1 /\
  (w_co2 w == b1 * fo / sum /\ w_latency w == b2 * fl / sum /\
   w_cost w == b3 * fo / sum) /\
  let f := getWeights (T := float) strategy latencyTolerance in
  nonnegF (w_co2 f) = true /\ nonnegF (w_latency f) = true /\
  nonnegF (w_cost f) = true /\
  within_1e9_of_one (w_co2 f + w_latency f + w_cost f)%float = true.
Proof.
  intros Hs Ht.
  simpl in Hs, Ht.
  destruct Hs as [Hs|[Hs|[Hs|[]]]]; destruct Ht as [Ht|[Ht|[Ht|[]]]];
    inversion Hs; inversion Ht; subst; clear Hs Ht;
    vm_compute; intuition congruence.
Qed.

Lemma getWeights_normalized_witness :
  In ("max-green", (60 # 100, 25 # 100, 15 # 100)) baseWeightTable /\
  In ("strict", (12 # 10, 9 # 10)) toleranceTable /\
  w_co2 (getWeights (T := Q) "max-green" "strict")
  + w_latency (getWeights (T := Q) "max-green" "strict")
  + w_cost (getWeights (T := Q) "max-green" "strict") == 1.
Proof.
  assert (Hs : In ("max-green", (60 # 100, 25 # 100, 15 # 100)) baseWeightTable)
    by (simpl; auto).
  assert (Ht : In ("strict", (12 # 10, 9 # 10)) toleranceTable) by (simpl; auto).
  split; [exact Hs|]. split; [exact Ht|].
  exact (proj1 (proj2 (getWeights_normalized _ _ _ _ _ _ _ Hs Ht))).
Defined.

(* ------------------------------------------------------------------ *)
(** ** ReplicaEstimator *)

Ltac zdiv := Z.to_euclidean_division_equations; lia.

Lemma Math_ceil_half (n : Z) : JS.Math_ceil (inject_Z n / 2) = ((n + 1) / 2)%Z.
Proof.
  unfold JS.Math_ceil, Qceiling, Qfloor, Qdiv, Qmult, Qinv, Qopp, inject_Z. simpl.
  rewrite Z.mul_1_r.
  zdiv.
Qed.

(** [calcReplicas] as a function of the runtime-component count. *)
Lemma calcReplicas_formula components latencyTolerance :
  let n := countRuntimeComponents components in
  calcReplicas components latencyTolerance =
  Z.min 4 (Z.max 1 ((n + 1) / 2)
           + (if String.eqb latencyTolerance "strict" && (1 <? n)%Z then 1 else 0))%Z.
Proof.
  intros n. unfold calcReplicas. fold n. rewrite Math_ceil_half.
  destruct (String.eqb latencyTolerance "strict" && (1 <? n)%Z);
    match goal with |- context [(?a <? ?b)%Z] => destruct (Z.ltb_spec a b) end; lia.
Qed.

(** C7.  [runtimeCount] counts the components whose type is one of the four
    runtime types; the replica count lies in [1, 4] and equals
    max(1, ceiling(runtimeCount / 2)), plus 1 when the tolerance is strict
    and runtimeCount > 1, capped at 4. *)
Theorem calcReplicas_spec (components : list Component) (latencyTolerance : string) :
  let runtimeCount := countRuntimeComponents components in
  let replicas := calcReplicas components latencyTolerance in
  runtimeCount =
    Z.of_nat (List.length
                (filter (fun c => if in_dec string_dec (type c)
                                       ["api-gateway"; "frontend"; "container"; "function"]
                                  then true else false) components)) /\
  (1 <= replicas <= 4)%Z /\
  exists ceilHalf,
    (2 * ceilHalf - 2 < runtimeCount <= 2 * ceilHalf)%Z /\
    replicas =
      Z.min 4 (Z.max 1 ceilHalf +
               (if string_dec latencyTolerance "strict"
                then (if Z_gt_dec runtimeCount 1 then 1 else 0) else 0))%Z.
Proof.
  intros runtimeCount replicas. split; [|split].
  - unfold runtimeCount, countRuntimeComponents. do 2 f_equal.
    apply filter_ext. intros c. unfold isRuntime.
    fold runtimeTypes.
    destruct (in_dec string_dec (type c) runtimeTypes) as [Hin|Hin].
    + apply existsb_exists. exists (type c). split; [exact Hin | apply String.eqb_refl].
    + destruct (existsb _ _) eqn:E; [|reflexivity].
      apply existsb_exists in E as (s & Hs & Heq).
      apply String.eqb_eq in Heq. subst s. contradiction.
  - unfold replicas. rewrite calcReplicas_formula. cbv zeta.
    destruct (_ && _); zdiv.
  - exists ((runtimeCount + 1) / 2)%Z. split; [zdiv|].
    unfold replicas. rewrite calcReplicas_formula. cbv zeta. fold runtimeCount.
    destruct (string_dec latencyTolerance "strict") as [->|Hne].
    + rewrite String.eqb_refl. cbn [andb].
      destruct (Z_gt_dec runtimeCount 1), (Z.ltb_spec 1 runtimeCount); lia.
    + apply String.eqb_neq in Hne. rewrite Hne. reflexivity.
Qed.

(** C8.  With the tolerance fixed, a component list with twice as many
    runtime components never gets fewer replicas. *)
Theorem calcReplicas_doubling (small large : list Component) (latencyTolerance : string) :
  countRuntimeComponents large = (2 * countRuntimeComponents small)%Z ->
  (calcReplicas small latencyTolerance <= calcReplicas large latencyTolerance)%Z.
Proof.
  intros Hdouble. rewrite !calcReplicas_formula. cbv zeta. rewrite Hdouble.
  assert (0 <= countRuntimeComponents small)%Z by (unfold countRuntimeComponents; lia).
  generalize dependent (countRuntimeComponents small). intros n _ Hn.
  destruct (String.eqb latencyTolerance "strict"); cbn [andb];
    repeat match goal with |- context [(?a <? ?b)%Z] => destruct (Z.ltb_spec a b) end;
    zdiv.
Qed.

Lemma calcReplicas_doubling_witness :
  (calcReplicas [ {| name := "web"; type := "frontend" |} ] "strict"
   <= calcReplicas [ {| name := "web"; type := "frontend" |};
                     {| name := "api"; type := "api-gateway" |} ] "strict")%Z.
Proof.
  apply calcReplicas_doubling. reflexivity.
Defined.

(* ------------------------------------------------------------------ *)
(** ** CarbonIntensitySource *)

Lemma truthy_false_iff s : JS.truthy s = false <-> s = "".
Proof. destruct s; simpl; split; congruence. Qed.

Ltac async_unfold :=
  unfold Async.tryCatch, Async.bind, Async.await, Async.ret, fetch in *.

Section CarbonFacts.
Variable key : string.
Variable net : string -> string -> completion Response.

(** The call always resolves. *)
Lemma getCarbonIntensityForRegion_resolves region tr :
  exists reading tr',
    getCarbonIntensityForRegion key net region tr = (Normal reading, tr').
Proof.
  unfold getCarbonIntensityForRegion.
  destruct (JS.truthy key); [|async_unfold; eauto].
  destruct (REGION_ZONE_MAP (id region)) as [m|]; [|async_unfold; eauto].
  async_unfold.
  destruct (net _ key) as [resp|e]; [|eauto].
  destruct (ok resp); simpl.
  - destruct (json resp) as [data|e]; [|eauto].
    destruct (carbonIntensityOf data) as [[[]|]|]; eauto.
  - destruct (text resp); eauto.
Qed.

End CarbonFacts.

(** C3 (as amended).  [getCarbonIntensityForRegion] always resolves.  The
    reading is the static fallback when the API key is empty, when the
    region has no entry in the zone map, when the request fails, when the
    response is not a success, when the body is not JSON, and when the
    payload has no numeric [carbonIntensity]; otherwise it carries the
    provider's value with the source tag "electricitymaps". *)
Theorem getCarbonIntensityForRegion_spec
    (key : string) (net : string -> string -> completion Response)
    (region : Region) (tr : list string) :
  exists reading tr',
    getCarbonIntensityForRegion key net region tr = (Normal reading, tr') /\
    (key = "" -> reading = fallbackReading region) /\
    (REGION_ZONE_MAP (id region) = None -> reading = fallbackReading region) /\
    (key <> "" -> REGION_ZONE_MAP (id region) <> None ->
     exists url,
       tr' = (tr ++ [url])%list /\
       match net url key with
       | Throw _ => reading = fallbackReading region
       | Normal resp =>
           (ok resp = false -> reading = fallbackReading region) /\
           (ok resp = true ->
            match json resp with
            | Throw _ => reading = fallbackReading region
            | Normal data =>
                (forall ci, numericCarbonIntensity data ci ->
                            reading = {| value := ci; source := "electricitymaps" |}) /\
                ((forall ci, ~ numericCarbonIntensity data ci) ->
                 reading = fallbackReading region)
            end)
       end).
Proof.
  unfold getCarbonIntensityForRegion.
  destruct (JS.truthy key) eqn:Hkey.
  2:{ apply truthy_false_iff in Hkey. async_unfold.
      do 2 eexists. split; [reflexivity|]. repeat split; auto; contradiction. }
  assert (Hk : key <> "") by (intros ->; discriminate).
  destruct (REGION_ZONE_MAP (id region)) as [m|] eqn:Hmap.
  2:{ async_unfold. do 2 eexists. split; [reflexivity|].
      repeat split; auto; try contradiction. }
  async_unfold.
  match goal with |- context [net ?u key] => set (url := u) end.
  destruct (net url key) as [resp|e] eqn:Hnet.
  2:{ do 2 eexists. split; [reflexivity|]. split; [contradiction|]. split; [discriminate|].
      intros _ _. exists url. split; [reflexivity|]. rewrite Hnet. reflexivity. }
  destruct (ok resp) eqn:Hok; simpl.
  - destruct (json resp) as [data|e] eqn:Hjson.
    2:{ do 2 eexists. split; [reflexivity|]. split; [contradiction|]. split; [discriminate|].
        intros _ _. exists url. split; [reflexivity|]. rewrite Hnet, Hok, Hjson.
        split; [discriminate | reflexivity]. }
    assert (Hcases :
      (exists ci, numericCarbonIntensity data ci /\
                  carbonIntensityOf data = Normal (Some (JS.JNumber ci))) \/
      ((forall ci, ~ numericCarbonIntensity data ci) /\
       forall ci, carbonIntensityOf data <> Normal (Some (JS.JNumber ci)))).
    { destruct data as [| | | | |props];
        try (right; split; [intros ci (p & Hp & _); discriminate | simpl; congruence]).
      simpl. destruct (JS.get_prop "carbonIntensity" props) as [[| |x| | |]|] eqn:Hp;
        try (right; split; [intros ci (p & Hd & Hg); congruence | congruence]).
      left. exists x. split; [exists props; auto | reflexivity]. }
    destruct Hcases as [(ci & Hnum & Hci)|(Hnone & Hci)].
    + rewrite Hci. do 2 eexists. split; [reflexivity|].
      split; [contradiction|]. split; [discriminate|].
      intros _ _. exists url. split; [reflexivity|]. rewrite Hnet, Hok, Hjson.
      split; [discriminate|]. intros _. split.
      * intros ci' (p' & Hd' & Hg'). destruct Hnum as (p & Hd & Hg).
        congruence.
      * intros Hno. now destruct (Hno ci).
    + exists (fallbackReading region), (tr ++ [url])%list. split.
      { destruct (carbonIntensityOf data) as [[[]|]|]; try reflexivity.
        now destruct (Hci x). }
      split; [contradiction|]. split; [discriminate|].
      intros _ _. exists url. split; [reflexivity|]. rewrite Hnet, Hok, Hjson.
      split; [discriminate|]. intros _. split.
      * intros ci Hnum. now destruct (Hnone ci).
      * reflexivity.
  - exists (fallbackReading region), (tr ++ [url])%list. split.
    { destruct (text resp); reflexivity. }
    split; [contradiction|]. split; [discriminate|].
    intros _ _. exists url. split; [reflexivity|]. rewrite Hnet, Hok.
    split; [reflexivity | discriminate].
Qed.

(** C3, the claim as stated fails: a well-formed provider answer is tagged
    "electricitymaps", not "live". *)
Lemma live_reading_is_not_tagged_live :
  In london REGIONS /\
  getCarbonIntensityForRegion "token" liveNetwork london []
  = (Normal {| value := 123; source := "electricitymaps" |},
     ["https://api.electricitymaps.com/v3/carbon-intensity/latest?zone=GB"]) /\
  "electricitymaps" <> "live".
Proof.
  split; [left; reflexivity|]. split; [reflexivity | discriminate].
Qed.

(* ------------------------------------------------------------------ *)
(** ** Region selection *)

Lemma num_le_rank x y :
  is_nan x = false -> is_nan y = false -> (num_le x y <-> (rank x <= rank y)%Z).
Proof.
  intros Nx Ny. unfold num_le. rewrite (leb_rank x y Nx Ny). apply Z.leb_le.
Qed.

Lemma num_lt_rank x y :
  is_nan x = false -> is_nan y = false -> (num_lt x y <-> (rank x < rank y)%Z).
Proof.
  intros Nx Ny. unfold num_lt. rewrite (ltb_rank x y Nx Ny). apply Z.ltb_lt.
Qed.

Section Insertion.
Context {A : Type} (behind : A -> A -> bool).

Lemma insert_In a l x : In x (JS.insert behind a l) <-> x = a \/ In x l.
Proof.
  induction l as [|b l IH]; simpl.
  - intuition.
  - destruct (behind a b); simpl; [rewrite IH|]; intuition.
Qed.

Lemma stable_sort_In l x : In x (JS.stable_sort behind l) <-> In x l.
Proof.
  induction l as [|a l IH]; simpl; [tauto|].
  rewrite insert_In, IH. intuition.
Qed.

Lemma stable_sort_nonempty l : l <> [] -> JS.stable_sort behind l <> [].
Proof.
  destruct l as [|a l]; [congruence|]. intros _ E.
  assert (H : In a (JS.stable_sort behind (a :: l))) by (apply stable_sort_In; now left).
  rewrite E in H. destruct H.
Qed.
End Insertion.

Section FirstMaximum.
Context {A : Type} (score : A -> float) (cmp : A -> A -> float).
Hypothesis cmp_desc : forall a b, cmp a b = (score b - score a)%float.

Lemma insert_head a l :
  is_nan (score a) = false ->
  match l with
  | [] => JS.insert (fun a b => (0 <? cmp a b)%float) a l = [a]
  | b :: l' =>
      is_nan (score b) = false ->
      (num_le (score b) (score a) /\
       JS.insert (fun a b => (0 <? cmp a b)%float) a l = a :: l) \/
      (num_lt (score a) (score b) /\
       exists rest, JS.insert (fun a b => (0 <? cmp a b)%float) a l = b :: rest)
  end.
Proof.
  intros Na. destruct l as [|b l']; [reflexivity|]. intros Nb. cbn [JS.insert].
  rewrite cmp_desc, (sub_positive (score a) (score b) Na Nb).
  destruct (score a <? score b)%float eqn:E.
  - right. split; [exact E | eauto].
  - left. split; [|reflexivity].
    apply num_le_rank; auto.
    rewrite (ltb_rank _ _ Na Nb) in E. apply Z.ltb_ge in E. exact E.
Qed.

(** The head of the sorted array is the first maximum of the array, when
    the scores are numbers. *)
Lemma sort_head_first_max l :
  l <> [] -> Forall (fun a => is_nan (score a) = false) l ->
  exists i best rest, JS.sort cmp l = best :: rest /\ first_max_at score l i best.
Proof.
  unfold JS.sort.
  induction l as [|a l IH]; [congruence|]. intros _ Hn.
  inversion Hn as [|? ? Na Hn']; subst.
  destruct l as [|b l'].
  { exists 0%nat, a, []. split; [reflexivity|]. split; [reflexivity|]. split.
    - intros [|[|j]] other Hj; simpl in Hj; try discriminate.
      injection Hj as <-. apply num_le_rank; auto. lia.
    - intros j other Hlt. inversion Hlt. }
  destruct IH as (i & best & rest & Hsort & Hnth & Hmax & Hstrict); [discriminate|exact Hn'|].
  assert (Nbest : is_nan (score best) = false).
  { apply nth_error_In in Hnth. rewrite Forall_forall in Hn'. now apply Hn'. }
  assert (Nall : forall j other, nth_error (b :: l') j = Some other ->
                                 is_nan (score other) = false).
  { intros j other Hj. apply nth_error_In in Hj. rewrite Forall_forall in Hn'. now apply Hn'. }
  change (JS.stable_sort ?f (a :: b :: l')) with (JS.insert f a (JS.stable_sort f (b :: l'))).
  rewrite Hsort.
  pose proof (insert_head a (best :: rest) Na Nbest) as [(Hle & ->)|(Hlt & rest' & ->)].
  - exists 0%nat, a, (best :: rest). split; [reflexivity|]. split; [reflexivity|]. split.
    + intros [|j] other Hj; simpl in Hj.
      * injection Hj as <-. apply num_le_rank; auto. lia.
      * pose proof (Nall j other Hj) as No.
        pose proof (Hmax j other Hj) as H1.
        apply num_le_rank in H1; auto. apply num_le_rank in Hle; auto.
        apply num_le_rank; auto. lia.
    + intros j other Hlt. inversion Hlt.
  - exists (S i), best, rest'. split; [reflexivity|]. split; [exact Hnth|]. split.
    + intros [|j] other Hj; simpl in Hj.
      * injection Hj as <-. apply num_lt_rank in Hlt; auto. apply num_le_rank; auto. lia.
      * eapply Hmax; exact Hj.
    + intros [|j] other Hji Hj; simpl in Hj.
      * injection Hj as <-. exact Hlt.
      * eapply Hstrict; [|exact Hj]. lia.
Qed.

End FirstMaximum.

(* ------------------------------------------------------------------ *)
(** ** The planner endpoint *)

Lemma getWeights_nonnegFinite (strategy latencyTolerance : string) :
  let w := getWeights (T := float) strategy latencyTolerance in
  nonnegFinite (w_co2 w) = true /\ nonnegFinite (w_latency w) = true /\
  nonnegFinite (w_cost w) = true.
Proof.
  unfold getWeights, adjustWeights, baseWeights.
  destruct (String.eqb strategy "max-green"), (String.eqb strategy "budget"),
    (String.eqb latencyTolerance "strict"), (String.eqb latencyTolerance "relaxed");
    vm_compute; auto.
Qed.

Lemma latencyBaseScore_nonnegFinite (userRegion : string) (region : Region) :
  nonnegFinite (latencyBaseScore userRegion region) = true.
Proof.
  unfold latencyBaseScore.
  repeat match goal with
         | |- context [if ?c then _ else _] => destruct c
         end; reflexivity.
Qed.

Lemma costScores_nonnegFinite :
  Forall (fun x => nonnegFinite x = true) (normalizeScores (map baseCost REGIONS) true).
Proof. apply Forall_forall, forallb_forall. vm_compute. reflexivity. Qed.

Section HandlerFacts.
Variable key : string.
Variable net : string -> string -> completion Response.

Lemma all_readings_resolve (regions : list Region) :
  forall tr, exists results tr',
    Async.all (map (getCarbonIntensityForRegion key net) regions) tr
    = (Normal results, tr') /\
    List.length results = List.length regions.
Proof.
  induction regions as [|r rest IH]; intros tr; simpl.
  - exists [], tr. auto.
  - destruct (getCarbonIntensityForRegion_resolves key net r tr) as (rd & tr1 & ->).
    destruct (IH tr1) as (rds & tr2 & -> & Hlen).
    exists (rd :: rds), tr2. simpl. auto.
Qed.

Lemma nth_error_mapi_from {A B} (f : A -> nat -> B) (l : list A) :
  forall k i, nth_error (mapi_from f k l) i
              = option_map (fun x => f x (k + i)%nat) (nth_error l i).
Proof.
  induction l as [|x l IH]; intros k [|i]; simpl; try reflexivity.
  - now rewrite Nat.add_0_r.
  - rewrite IH. now rewrite Nat.add_succ_r.
Qed.

Lemma length_mapi_from {A B} (f : A -> nat -> B) (l : list A) :
  forall k, List.length (mapi_from f k l) = List.length l.
Proof. induction l; intros k; simpl; auto. Qed.

Lemma buildRegionScores_length userRegion carbonResults :
  List.length (buildRegionScores userRegion carbonResults) = List.length REGIONS.
Proof. unfold buildRegionScores. apply length_mapi_from. Qed.

Lemma buildRegionScores_nth userRegion carbonResults i entry :
  nth_error (buildRegionScores userRegion carbonResults) i = Some entry ->
  nth_error REGIONS i = Some (base (region entry)).
Proof.
  unfold buildRegionScores. rewrite nth_error_mapi_from.
  destruct (nth_error REGIONS i) as [r|]; simpl; [|discriminate].
  intros [= <-]. reflexivity.
Qed.

(** The three scores of an entry are taken from the three score arrays. *)
Lemma buildRegionScores_entry userRegion carbonResults entry :
  List.length carbonResults = List.length REGIONS ->
  In entry (buildRegionScores userRegion carbonResults) ->
  In (co2 entry) (normalizeScores (map value carbonResults) true) /\
  In (cost entry) (normalizeScores (map baseCost REGIONS) true) /\
  latency entry = latencyBaseScore userRegion (base (region entry)).
Proof.
  intros Hlen Hin. apply In_nth_error in Hin as (i & Hi).
  assert (Hlt : (i < List.length REGIONS)%nat).
  { rewrite <- (buildRegionScores_length userRegion carbonResults).
    apply nth_error_Some. congruence. }
  unfold buildRegionScores in Hi. rewrite nth_error_mapi_from in Hi.
  destruct (nth_error REGIONS i) as [r|] eqn:Hr; cbn [option_map] in Hi; [|discriminate].
  assert (Eco2 : co2 entry = nth i (normalizeScores (map value carbonResults) true) nan)
    by (injection Hi as <-; reflexivity).
  assert (Ecost : cost entry = nth i (normalizeScores (map baseCost REGIONS) true) nan)
    by (injection Hi as <-; reflexivity).
  assert (Elat : latency entry = nth i (map (latencyBaseScore userRegion) REGIONS) nan)
    by (injection Hi as <-; reflexivity).
  assert (Ebase : base (region entry) = r) by (injection Hi as <-; reflexivity).
  rewrite Eco2, Ecost, Elat, Ebase.
  split; [|split].
  - apply nth_In. now rewrite normalizeScores_length, length_map, Hlen.
  - apply nth_In. now rewrite normalizeScores_length, length_map.
  - rewrite (nth_indep _ _ (latencyBaseScore userRegion r))
      by (now rewrite length_map).
    rewrite map_nth. f_equal. now apply nth_error_nth.
Qed.

(** Finite readings whose spread is finite give overall scores that are
    numbers, for every strategy and tolerance. *)
Lemma finite_readings_give_numbers userRegion carbonResults strategy latencyTolerance :
  List.length carbonResults = List.length REGIONS ->
  finiteSpread (map value carbonResults) ->
  scoresAreNumbers (getWeights (T := float) strategy latencyTolerance)
                   (buildRegionScores userRegion carbonResults).
Proof.
  intros Hlen Hfin. apply Forall_forall. intros entry Hin.
  destruct (buildRegionScores_entry userRegion carbonResults entry Hlen Hin)
    as (Hco2 & Hcost & Hlat).
  destruct (getWeights_nonnegFinite strategy latencyTolerance) as (W1 & W2 & W3).
  unfold overallOf. apply weighted_sum_is_number; auto.
  - apply unitInterval_nonnegFinite.
    pose proof (normalizeScores_unit (map value carbonResults) true
                  (finiteSpread_opp _ Hfin)) as Hunit.
    rewrite Forall_forall in Hunit. now apply Hunit.
  - rewrite Hlat. apply latencyBaseScore_nonnegFinite.
  - pose proof costScores_nonnegFinite as Hc. rewrite Forall_forall in Hc. now apply Hc.
Qed.

Lemma scoresAreNumbers_dec w regionScores :
  {scoresAreNumbers w regionScores} + {~ scoresAreNumbers w regionScores}.
Proof.
  apply Forall_dec. intros entry.
  destruct (is_nan (overallOf w entry)); [right; discriminate | left; reflexivity].
Defined.

Lemma scoreRegions_nth w regionScores i scored :
  nth_error (scoreRegions w regionScores) i = Some scored ->
  nth_error regionScores i = Some (rs scored) /\ overall scored = overallOf w (rs scored).
Proof.
  unfold scoreRegions. rewrite nth_error_map.
  destruct (nth_error regionScores i) as [e|]; simpl; [|discriminate].
  intros [= <-]. split; reflexivity.
Qed.

(** [scoredRegions.sort(...)[0]] exists for a non-empty catalog and is one
    of the entries; when the scores are numbers it is the first entry
    with the highest score. *)
Lemma pickBest_spec (w : Weights float) (regionScores : list RegionScore) :
  regionScores <> [] ->
  exists i best,
    pickBest (scoreRegions w regionScores) = Some best /\
    nth_error regionScores i = Some (rs best) /\
    overall best = overallOf w (rs best) /\
    (scoresAreNumbers w regionScores ->
     first_max_at (overallOf w) regionScores i (rs best)).
Proof.
  intros Hne.
  assert (Hne' : scoreRegions w regionScores <> []).
  { destruct regionScores; [congruence | discriminate]. }
  assert (Hentry : forall j other,
             nth_error regionScores j = Some other ->
             nth_error (scoreRegions w regionScores) j
             = Some {| rs := other; overall := overallOf w other |}).
  { intros j other Hj. unfold scoreRegions. rewrite nth_error_map, Hj. reflexivity. }
  destruct (scoresAreNumbers_dec w regionScores) as [Hnum|Hnan].
  - assert (Hnum' : Forall (fun a => is_nan (overall a) = false)
                           (scoreRegions w regionScores)).
    { unfold scoreRegions. apply Forall_map. exact Hnum. }
    destruct (sort_head_first_max overall byOverallDesc (fun a b => eq_refl) _ Hne' Hnum')
      as (i & best & rest & Hsort & Hnth & Hmax & Hstrict).
    destruct (scoreRegions_nth _ _ _ _ Hnth) as (Hbi & Hov).
    exists i, best. split; [unfold pickBest; now rewrite Hsort|].
    split; [exact Hbi|]. split; [exact Hov|]. intros _.
    split; [exact Hbi|]. split.
    + intros j other Hj. rewrite <- Hov. apply (Hmax j _ (Hentry j other Hj)).
    + intros j other Hlt Hj. rewrite <- Hov. apply (Hstrict j _ Hlt (Hentry j other Hj)).
  - pose proof (stable_sort_nonempty
                  (fun a b => (0 <? byOverallDesc a b)%float) _ Hne') as Hs.
    unfold pickBest, JS.sort.
    destruct (JS.stable_sort _ (scoreRegions w regionScores)) as [|best rest] eqn:Hsort;
      [congruence|].
    assert (Hin : In best (scoreRegions w regionScores)).
    { apply (stable_sort_In (fun a b => (0 <? byOverallDesc a b)%float)).
      rewrite Hsort. now left. }
    apply In_nth_error in Hin as (i & Hnth).
    destruct (scoreRegions_nth _ _ _ _ Hnth) as (Hbi & Hov).
    exists i, best. split; [reflexivity|]. split; [exact Hbi|]. split; [exact Hov|].
    intros Hnum. now destruct Hnan.
Qed.

(** What [buildPlan] yields for one strategy. *)
Lemma buildPlan_selects components latencyTolerance regionScores replicas sid slabel :
  regionScores <> [] ->
  exists plan i best,
    buildPlan components latencyTolerance regionScores replicas (sid, slabel)
    = Normal plan /\
    nth_error regionScores i = Some best /\
    (scoresAreNumbers (getWeights (T := float) sid latencyTolerance) regionScores ->
     first_max_at (overallOf (getWeights (T := float) sid latencyTolerance))
                  regionScores i best) /\
    plan_id plan = sid /\
    civo_region (civo plan) = id (base (region best)) /\
    instanceClass (civo plan) = instanceClassFor sid.
Proof.
  intros Hne. unfold buildPlan.
  destruct (pickBest_spec (getWeights sid latencyTolerance) regionScores Hne)
    as (i & best & -> & Hnth & _ & Hfirst).
  eexists _, i, (rs best). split; [reflexivity|]. split; [exact Hnth|].
  split; [exact Hfirst|]. simpl. auto.
Qed.

(** The plan of one strategy over the scores of the catalog. *)
Lemma buildPlan_selectsFirstMaximum components latencyTolerance userRegion carbonResults
    replicas sid slabel :
  exists plan,
    buildPlan components latencyTolerance (buildRegionScores userRegion carbonResults)
              replicas (sid, slabel) = Normal plan /\
    selectsFirstMaximum latencyTolerance (buildRegionScores userRegion carbonResults)
                        sid plan.
Proof.
  set (regionScores := buildRegionScores userRegion carbonResults).
  assert (Hrs : regionScores <> []).
  { intros E. pose proof (buildRegionScores_length userRegion carbonResults) as L.
    fold regionScores in L. rewrite E in L. discriminate. }
  destruct (buildPlan_selects components latencyTolerance regionScores replicas sid slabel Hrs)
    as (plan & i & best & Hplan & Hnth & Hfirst & Hid & Hreg & _).
  exists plan. split; [exact Hplan|]. split; [exact Hid|].
  exists i, best, (base (region best)).
  split; [eapply buildRegionScores_nth; exact Hnth|].
  split; [exact Hnth|]. split; [reflexivity|]. split; [exact Hreg|]. exact Hfirst.
Qed.

End HandlerFacts.

(** C1 (as amended).  For a request whose [components] is a non-empty
    array that the planner can read, the handler answers with exactly
    three plans, those of "balanced", "max-green" and "budget" in this
    order.  The region of each plan is the catalog region at some index
    [i]; when no catalog region's overall score
    co2 * w_co2 + latency * w_latency + cost * w_cost under the strategy's
    weights is NaN, that score is at least the score of every catalog
    region and strictly above the score of every region in front of it,
    in the comparisons of binary64.  No overall score is NaN when the
    carbon readings are finite and their spread is finite. *)
Theorem selected_region_is_first_argmax
    (key : string) (net : string -> string -> completion Response)
    (b : PlanBody) (items : list JS.json) (components : list Component)
    (tr : list string) :
  req_components b = Some (JS.JArray items) ->
  items <> [] ->
  readComponents items = Normal components ->
  let userRegion := orDefault (req_userRegion b) "global" in
  let latencyTolerance := orDefault (req_latencyTolerance b) "balanced" in
  exists carbonResults tr' payload,
    Async.all (map (getCarbonIntensityForRegion key net) REGIONS) tr
    = (Normal carbonResults, tr') /\
    planHandler key net (Some b) tr = (Normal (StatusOk payload), tr') /\
    let regionScores := buildRegionScores userRegion carbonResults in
    List.length regionScores = List.length REGIONS /\
    (exists balanced maxGreen budget,
        plans payload = [balanced; maxGreen; budget] /\
        selectsFirstMaximum latencyTolerance regionScores "balanced" balanced /\
        selectsFirstMaximum latencyTolerance regionScores "max-green" maxGreen /\
        selectsFirstMaximum latencyTolerance regionScores "budget" budget) /\
    (finiteSpread (map value carbonResults) ->
     forall strategyId,
       scoresAreNumbers (getWeights (T := float) strategyId latencyTolerance)
                        regionScores).
Proof.
  intros Hcomp Hne Hread userRegion latencyTolerance.
  destruct (all_readings_resolve key net REGIONS tr) as (carbonResults & tr' & Hall & Hlen).
  set (replicas := calcReplicas components latencyTolerance).
  destruct (buildPlan_selectsFirstMaximum components latencyTolerance userRegion
              carbonResults replicas "balanced" "Balanced") as (p1 & E1 & S1).
  destruct (buildPlan_selectsFirstMaximum components latencyTolerance userRegion
              carbonResults replicas "max-green" "Max Green") as (p2 & E2 & S2).
  destruct (buildPlan_selectsFirstMaximum components latencyTolerance userRegion
              carbonResults replicas "budget" "Budget Friendly") as (p3 & E3 & S3).
  eexists carbonResults, tr', _. split; [exact Hall|]. split.
  - unfold planHandler. rewrite Hcomp. cbn [orDefault arrayItems].
    destruct items as [|c cs]; [congruence|].
    cbn [List.length Nat.eqb].
    unfold Async.bind. rewrite Hall.
    fold userRegion latencyTolerance.
    unfold Async.await. rewrite Hread. fold replicas.
    unfold strategies. cbn [forEachPlan]. rewrite E1, E2, E3.
    unfold Async.ret. reflexivity.
  - cbv zeta. cbn [plans]. split; [apply buildRegionScores_length|]. split.
    + exists p1, p2, p3. auto.
    + intros Hfin strategyId. now apply finite_readings_give_numbers.
Qed.

Lemma selected_region_is_first_argmax_witness :
  exists payload tr',
    planHandler "" offline (Some sampleBody) [] = (Normal (StatusOk payload), tr') /\
    map plan_id (plans payload) = ["balanced"; "max-green"; "budget"] /\
    map (fun p => civo_region (civo p)) (plans payload) = ["LON1"; "FRA1"; "BLR1"] /\
    scoresAreNumbers (getWeights (T := float) "max-green" "balanced") staticScores.
Proof.
  destruct (selected_region_is_first_argmax "" offline sampleBody
              (map itemOf sampleComponents) sampleComponents [])
    as (carbonResults & tr' & payload & Hall & Hrun & _ & Hplans & Hnumbers).
  - reflexivity.
  - discriminate.
  - reflexivity.
  - exists payload, tr'. split; [exact Hrun|].
    split.
    { destruct Hplans as (p1 & p2 & p3 & -> & (H1 & _) & (H2 & _) & (H3 & _)).
      cbn [map]. now rewrite H1, H2, H3. }
    assert (Eresults : carbonResults = map fallbackReading REGIONS).
    { vm_compute in Hall. injection Hall as <- _. reflexivity. }
    subst carbonResults. split.
    + assert (Epayload := Hrun). vm_compute in Epayload.
      injection Epayload as <- _. reflexivity.
    + assert (Hfinite : finiteSpread (map value (map fallbackReading REGIONS))).
      { split; [repeat constructor | intros _; reflexivity]. }
      exact (Hnumbers Hfinite "max-green").
Defined.

(** C1, the claim as stated fails: when the provider answers one zone
    with a number too large for binary64, every overall score is NaN; the
    handler selects LON1 for "balanced", and no region, LON1 included,
    has a score that is at least its own. *)
Lemma selected_region_without_maximum :
  let net := answeringPerZone spikingReadings in
  let regionScores := buildRegionScores "eu-west" spikingResults in
  let w := getWeights (T := float) "balanced" "balanced" in
  exists payload tr' plan rest,
    Async.all (map (getCarbonIntensityForRegion "key" net) REGIONS) []
    = (Normal spikingResults, tr') /\
    planHandler "key" net (Some sampleBody) [] = (Normal (StatusOk payload), tr') /\
    plans payload = plan :: rest /\
    plan_id plan = "balanced" /\
    civo_region (civo plan) = "LON1" /\
    forall i best, ~ first_max_at (overallOf w) regionScores i best.
Proof.
  intros net regionScores w.
  do 4 eexists. split; [vm_compute; reflexivity|].
  split; [vm_compute; reflexivity|].
  split; [reflexivity|]. split; [reflexivity|]. split; [reflexivity|].
  intros i best (Hnth & Hmax & _).
  specialize (Hmax i best Hnth). unfold num_le in Hmax.
  assert (Hnan : forallb (fun e => is_nan (overallOf w e)) regionScores = true)
    by (vm_compute; reflexivity).
  rewrite forallb_forall in Hnan.
  rewrite (leb_nan_l _ _ (Hnan best (nth_error_In _ _ Hnth))) in Hmax.
  discriminate.
Qed.

(** C9.  When the body has no [components], or [components] is not an
    array, or it is the empty array, the handler answers 400 with the
    validation error and nothing else; no request to the carbon provider
    has been sent (the list of requested URLs is unchanged). *)
Theorem planHandler_rejects_invalid_components
    (key : string) (net : string -> string -> completion Response)
    (body : option PlanBody) (tr : list string) :
  bodyComponents body = None \/
  (exists v, bodyComponents body = Some v /\ forall items, v <> JS.JArray items) \/
  bodyComponents body = Some (JS.JArray []) ->
  planHandler key net body tr
  = (Normal (StatusError 400 "At least one component is required to generate a plan."), tr).
Proof.
  intros Hinvalid. unfold planHandler.
  change (match body with Some b => req_components b | None => None end)
    with (bodyComponents body).
  destruct Hinvalid as [->|[(v & -> & Hv)| ->]]; cbn [orDefault arrayItems].
  - reflexivity.
  - destruct v; try reflexivity. now destruct (Hv items).
  - reflexivity.
Qed.

Lemma planHandler_rejects_invalid_components_witness :
  planHandler "token" (fun _ _ => Throw "offline")
    (Some {| req_components := Some (JS.JString "api");
             req_userRegion := None; req_latencyTolerance := None;
             req_optimizationPreference := None |}) []
  = (Normal (StatusError 400 "At least one component is required to generate a plan."), []).
Proof.
  apply planHandler_rejects_invalid_components.
  right. left. exists (JS.JString "api"). split; [reflexivity | discriminate].
Defined.

(** C10.  Two requests that differ only in [optimizationPreference] send
    the same provider requests and complete alike; when they succeed the
    plans and the rest of the payload are equal, and the echoed preference
    is the one supplied (or the default "balanced"). *)
Theorem optimizationPreference_is_only_echoed
    (key : string) (net : string -> string -> completion Response)
    (b : PlanBody) (p1 p2 : option JS.json) (tr : list string) :
  let run p := planHandler key net (Some (withPreference b p)) tr in
  snd (run p1) = snd (run p2) /\
  match fst (run p1), fst (run p2) with
  | Normal (StatusOk r1), Normal (StatusOk r2) =>
      plans r1 = plans r2 /\
      electricityMaps_enabled r1 = electricityMaps_enabled r2 /\
      echo_components (inputEcho r1) = echo_components (inputEcho r2) /\
      echo_userRegion (inputEcho r1) = echo_userRegion (inputEcho r2) /\
      echo_latencyTolerance (inputEcho r1) = echo_latencyTolerance (inputEcho r2) /\
      echo_optimizationPreference (inputEcho r1) = orDefault p1 (JS.JString "balanced") /\
      echo_optimizationPreference (inputEcho r2) = orDefault p2 (JS.JString "balanced")
  | Normal (StatusError c1 e1), Normal (StatusError c2 e2) => c1 = c2 /\ e1 = e2
  | Throw e1, Throw e2 => e1 = e2
  | _, _ => False
  end.
Proof.
  intros run. unfold run, planHandler, withPreference.
  cbn [req_components req_userRegion req_latencyTolerance req_optimizationPreference].
  destruct (arrayItems (orDefault (req_components b) (JS.JArray []))) as [items|];
    [|cbn; auto].
  destruct (List.length items =? 0)%nat; [cbn; auto|].
  unfold Async.bind, Async.await, Async.ret.
  destruct (Async.all _ tr) as [[carbonResults|e] tr']; [|cbn; auto].
  destruct (readComponents items) as [components|e]; [|cbn; auto].
  destruct (forEachPlan _ strategies) as [ps|e]; cbn; auto 10.
Qed.

(** C2 (as amended).  A strategy id other than "max-green" and "budget",
    so in particular any id outside the enumeration, gets the weights of
    "balanced" (in binary64 as in any other arithmetic) and the instance
    class "standard-medium", and building its
    plan does not fail: it selects what the balanced plan selects.  The
    handler itself only evaluates the three enumerated strategies. *)
Theorem unknown_strategy_treated_as_balanced (strategy latencyTolerance : string) :
  strategy <> "max-green" -> strategy <> "budget" ->
  (forall (T : Type) (arithmetic : JS.Number T),
      getWeights (T := T) strategy latencyTolerance
      = getWeights (T := T) "balanced" latencyTolerance) /\
  instanceClassFor strategy = "standard-medium" /\
  (forall components regionScores replicas label,
      regionScores <> [] ->
      exists plan balancedPlan,
        buildPlan components latencyTolerance regionScores replicas (strategy, label)
        = Normal plan /\
        buildPlan components latencyTolerance regionScores replicas ("balanced", label)
        = Normal balancedPlan /\
        civo plan = civo balancedPlan /\
        scores plan = scores balancedPlan /\
        instanceClass (civo plan) = "standard-medium") /\
  Forall (fun s => In (fst s) strategyEnumeration) strategies.
Proof.
  intros Hg Hb.
  apply String.eqb_neq in Hg, Hb.
  assert (Hw : forall (T : Type) (arithmetic : JS.Number T),
               getWeights (T := T) strategy latencyTolerance
               = getWeights (T := T) "balanced" latencyTolerance).
  { intros T arithmetic. unfold getWeights, baseWeights. now rewrite Hg, Hb. }
  assert (Hc : instanceClassFor strategy = "standard-medium").
  { unfold instanceClassFor. now rewrite Hg, Hb. }
  split; [exact Hw|]. split; [exact Hc|]. split.
  - intros components regionScores replicas label Hne.
    unfold buildPlan. rewrite (Hw float JS.NumberF64), Hc.
    destruct (pickBest_spec (getWeights "balanced" latencyTolerance) regionScores Hne)
      as (i & best & -> & _).
    do 2 eexists. split; [reflexivity|]. split; [reflexivity|].
    repeat split; reflexivity.
  - unfold strategies, strategyEnumeration.
    repeat (apply Forall_cons; [simpl; tauto|]). apply Forall_nil.
Qed.

Lemma unknown_strategy_treated_as_balanced_witness :
  getWeights (T := float) "turbo" "strict" = getWeights (T := float) "balanced" "strict" /\
  getWeights (T := Q) "turbo" "strict" = getWeights (T := Q) "balanced" "strict" /\
  instanceClassFor "turbo" = "standard-medium".
Proof.
  destruct (unknown_strategy_treated_as_balanced "turbo" "strict") as (Hw & Hc & _).
  - discriminate.
  - discriminate.
  - split; [apply Hw | split; [apply Hw | exact Hc]].
Defined.

(** C2, the claim as stated fails: the strategy id "turbo" is outside the
    enumeration, and its plan is built without failure, with the balanced
    defaults. *)
Lemma unknown_strategy_does_not_fail :
  ~ In "turbo" strategyEnumeration /\
  exists plan,
    buildPlan sampleComponents "balanced" staticScores 1 ("turbo", "Turbo") = Normal plan /\
    instanceClass (civo plan) = "standard-medium" /\
    civo_region (civo plan) = "LON1".
Proof.
  split.
  - simpl. intuition discriminate.
  - eexists. split; [vm_compute; reflexivity|]. split; reflexivity.
Qed.

(* ------------------------------------------------------------------ *)
(** ** ManifestGenerator *)

(** C4, at the failing input.  For a single api-gateway component with an
    empty name the manifest has one workload unit, named "service", and no
    service block. *)
Theorem unnamed_gateway_gets_no_service :
  let lines := manifestLines "balanced" "LON1" "standard-medium" 1 unnamedGateway in
  countRuntimeComponents unnamedGateway = 1%Z /\
  map safeName (filter isRuntime unnamedGateway) = ["service"] /\
  In "  name: service" lines /\
  workloadUnits lines = 1%nat /\
  serviceBlocks lines = 0%nat.
Proof.
  cbv zeta. split; [reflexivity|]. split; [reflexivity|].
  split; [vm_compute; tauto|]. split; reflexivity.
Qed.

Lemma map_string_empty f s : JS.map_string f s = "" -> s = "".
Proof. destruct s; simpl; [reflexivity | discriminate]. Qed.

Lemma derivedName_empty comp : derivedName comp = "" -> name comp = "".
Proof.
  unfold derivedName, JS.replace_unsafe, JS.toLowerCase.
  intros H. now apply map_string_empty, map_string_empty in H.
Qed.

Lemma deploymentLines_no_service planId regionId instanceClass replicas comp :
  filter (String.eqb "kind: Service")
         (deploymentLines planId regionId instanceClass replicas comp) = [].
Proof. reflexivity. Qed.

Lemma deployments_no_service planId regionId instanceClass replicas comps :
  filter (String.eqb "kind: Service")
         (flat_map (deploymentLines planId regionId instanceClass replicas) comps) = [].
Proof.
  induction comps as [|c cs IH]; [reflexivity|].
  cbn [flat_map]. rewrite filter_app, IH, deploymentLines_no_service. reflexivity.
Qed.

(** With a gateway component whose name is not empty, the manifest ends
    with exactly one service block, and its selector is the name of that
    component's workload unit. *)
Lemma named_gateway_gets_one_service planId regionId instanceClass replicas components g :
  gatewayComponent (filter isRuntime components) = Some g ->
  name g <> "" ->
  let lines := manifestLines planId regionId instanceClass replicas components in
  lines = (namespaceLines planId
           ++ flat_map (deploymentLines planId regionId instanceClass replicas)
                       (filter isRuntime components)
           ++ serviceLines (safeName g))%list /\
  In ("    app: " ++ safeName g) (serviceLines (safeName g)) /\
  serviceBlocks lines = 1%nat.
Proof.
  intros Hg Hname.
  assert (Hd : JS.truthy (derivedName g) = true).
  { destruct (derivedName g) eqn:E; [|reflexivity].
    now apply derivedName_empty in E. }
  assert (Hs : safeName g = derivedName g).
  { unfold safeName, JS.or_else. now rewrite Hd. }
  assert (Hlines : manifestLines planId regionId instanceClass replicas components
                   = (namespaceLines planId
                      ++ flat_map (deploymentLines planId regionId instanceClass replicas)
                                  (filter isRuntime components)
                      ++ serviceLines (safeName g))%list).
  { unfold manifestLines, gatewayName. rewrite Hg. cbn [option_map]. rewrite Hd, Hs.
    destruct (filter isRuntime components); [discriminate|].
    cbn [List.length Nat.eqb]. now rewrite app_assoc. }
  cbv zeta. rewrite Hlines. split; [reflexivity|]. split.
  - simpl. tauto.
  - unfold serviceBlocks, countLines.
    rewrite !filter_app, deployments_no_service. reflexivity.
Qed.

(** Which component the service is bound to. *)
Lemma gatewayComponent_spec (runtimeComponents : list Component) :
  match gatewayComponent runtimeComponents with
  | Some g =>
      In g runtimeComponents /\
      (type g = "api-gateway" \/
       (hd_error runtimeComponents = Some g /\
        forall c, In c runtimeComponents -> type c <> "api-gateway"))
  | None => runtimeComponents = []
  end.
Proof.
  unfold gatewayComponent.
  destruct (find _ runtimeComponents) as [g|] eqn:Hfind.
  - apply find_some in Hfind as (Hin & Heq). apply String.eqb_eq in Heq. auto.
  - destruct runtimeComponents as [|c cs]; [reflexivity|]. cbn [hd_error].
    split; [now left|]. right. split; [reflexivity|].
    intros c' Hc' Heq.
    pose proof (find_none _ _ Hfind c' Hc') as Hno. cbv beta in Hno.
    rewrite Heq in Hno. discriminate.
Qed.

(** With a gateway component whose name is empty, the workload unit is
    called "service" and the manifest has no service block, whatever the
    other arguments are. *)
Lemma unnamed_gateway_never_gets_service
    planId regionId instanceClass replicas components g :
  gatewayComponent (filter isRuntime components) = Some g ->
  name g = "" ->
  let lines := manifestLines planId regionId instanceClass replicas components in
  safeName g = "service" /\
  In "  name: service" lines /\
  serviceBlocks lines = 0%nat.
Proof.
  intros Hg Hname.
  assert (Hd : derivedName g = "") by (unfold derivedName; now rewrite Hname).
  assert (Hs : safeName g = "service") by (unfold safeName; now rewrite Hd).
  pose proof (gatewayComponent_spec (filter isRuntime components)) as Hspec.
  rewrite Hg in Hspec. destruct Hspec as (Hin & _).
  assert (Hlines : manifestLines planId regionId instanceClass replicas components
                   = (namespaceLines planId
                      ++ flat_map (deploymentLines planId regionId instanceClass replicas)
                                  (filter isRuntime components))%list).
  { unfold manifestLines, gatewayName. rewrite Hg. cbn [option_map]. rewrite Hd.
    destruct (filter isRuntime components); reflexivity. }
  cbv zeta. rewrite Hlines. split; [exact Hs|]. split.
  - apply in_or_app. right. apply in_flat_map. exists g. split; [exact Hin|].
    unfold deploymentLines. rewrite Hs. simpl. tauto.
  - unfold serviceBlocks, countLines.
    rewrite filter_app, deployments_no_service. reflexivity.
Qed.

(* ------------------------------------------------------------------ *)
(** ** LatencyEstimator *)

Local Open Scope Q_scope.

Ltac split_ifs :=
  repeat match goal with
         | |- context [if ?b then _ else _] => destruct b eqn:?
         end.

Lemma latencyBaseScore_bounds (userRegion : string) (region : Region) :
  num_le 0.45 (latencyBaseScore userRegion region) /\
  num_le (latencyBaseScore userRegion region) 1.
Proof.
  unfold latencyBaseScore. split_ifs; split; reflexivity.
Qed.

(** X1.  Whatever the caller's affinity and the region's geography group,
    the latency score lies between 0.45 and 1, and it is one of the nine
    values of the proximity table. *)
Theorem latencyBaseScore_range (userRegion : string) (region : Region) :
  (num_le 0.45 (latencyBaseScore userRegion region) /\
   num_le (latencyBaseScore userRegion region) 1) /\
  In (latencyBaseScore userRegion region)
     [1; 0.85; 0.8; 0.75; 0.7; 0.6; 0.55; 0.5; 0.45]%float.
Proof.
  split; [apply latencyBaseScore_bounds|].
  unfold latencyBaseScore. split_ifs; simpl; auto 12.
Qed.

Lemma latencyBaseScore_flat (userRegion : string) (region : Region) :
  ~ In userRegion (map fst affinityTable) ->
  latencyBaseScore userRegion region = 0.6%float.
Proof.
  intros Hnot. simpl in Hnot.
  assert (Ht : latency_target userRegion = "global").
  { unfold latency_target.
    destruct (String.eqb_spec userRegion "ap-south"); [subst; exfalso; apply Hnot; auto 10|].
    destruct (String.eqb_spec userRegion "eu-west"); [subst; exfalso; apply Hnot; auto 10|].
    destruct (String.eqb_spec userRegion "us-east"); [subst; exfalso; apply Hnot; auto 10|].
    destruct (String.eqb_spec userRegion "us-west"); [subst; exfalso; apply Hnot; auto 10|].
    reflexivity. }
  unfold latencyBaseScore. rewrite Ht. reflexivity.
Qed.

(** X2.  An affinity that is none of "ap-south", "eu-west", "us-east" and
    "us-west" scores 0.6 for every region, so it does not tell regions
    apart. *)
Theorem latencyBaseScore_unrecognized (userRegion : string) (region other : Region) :
  ~ In userRegion (map fst affinityTable) ->
  latencyBaseScore userRegion region = 0.6%float /\
  latencyBaseScore userRegion region = latencyBaseScore userRegion other.
Proof.
  intros Hnot. rewrite !latencyBaseScore_flat by exact Hnot. split; reflexivity.
Qed.

Lemma latencyBaseScore_unrecognized_witness :
  latencyBaseScore "mars-north" london = 0.6%float.
Proof.
  apply (latencyBaseScore_unrecognized "mars-north" london london).
  simpl. intuition discriminate.
Defined.

(** X3.  The score is 1 exactly when the affinity is a known one and the
    region lies in the geography group that affinity targets. *)
Theorem latencyBaseScore_one_iff (userRegion : string) (region : Region) :
  num_eq (latencyBaseScore userRegion region) 1 <->
  In (userRegion, geoGroup region) affinityTable.
Proof.
  unfold latencyBaseScore, latency_target, affinityTable, num_eq.
  destruct (String.eqb_spec userRegion "ap-south") as [->|H1];
    [|destruct (String.eqb_spec userRegion "eu-west") as [->|H2];
      [|destruct (String.eqb_spec userRegion "us-east") as [->|H3];
        [|destruct (String.eqb_spec userRegion "us-west") as [->|H4]]]];
    cbn [String.eqb Ascii.eqb Bool.eqb andb];
    repeat match goal with
           | |- context [String.eqb (geoGroup region) ?s] =>
               destruct (String.eqb_spec (geoGroup region) s)
           | |- context [JS.startsWith ?a ?b] => destruct (JS.startsWith a b)
           end;
    split; intros H;
    try (exfalso; vm_compute in H; discriminate H);
    try reflexivity;
    try (simpl; rewrite <- ?e; tauto);
    try (simpl in H; intuition congruence).
Qed.

(* ------------------------------------------------------------------ *)
(** ** WeightPolicy and ReplicaEstimator, beyond the enumerations *)

Ltac weight_cases strategy latencyTolerance :=
  unfold getWeights, adjustWeights, baseWeights;
  destruct (String.eqb strategy "max-green");
  [|destruct (String.eqb strategy "budget")];
  (destruct (String.eqb latencyTolerance "strict");
   [|destruct (String.eqb latencyTolerance "relaxed")]).

(** Weights for arbitrary strings are positive and sum to 1. *)
Lemma getWeights_positive_sum (strategy latencyTolerance : string) :
  let w := getWeights (T := Q) strategy latencyTolerance in
  0 < w_co2 w /\ 0 < w_latency w /\ 0 < w_cost w /\
  w_co2 w + w_latency w + w_cost w == 1.
Proof.
  weight_cases strategy latencyTolerance; vm_compute; intuition congruence.
Qed.

(** X4.  For any strategy string and any tolerance string, known or not,
    the three weights are positive and sum to 1; evaluated in binary64
    they are non-negative and their sum is within 1e-9 of 1. *)
Theorem getWeights_total (strategy latencyTolerance : string) :
  let w := getWeights (T := Q) strategy latencyTolerance in
  let f := getWeights (T := float) strategy latencyTolerance in
  (0 < w_co2 w /\ 0 < w_latency w /\ 0 < w_cost w /\
   w_co2 w + w_latency w + w_cost w == 1) /\
  (nonnegF (w_co2 f) = true /\ nonnegF (w_latency f) = true /\
   nonnegF (w_cost f) = true /\
   within_1e9_of_one (w_co2 f + w_latency f + w_cost f)%float = true).
Proof.
  split; [apply getWeights_positive_sum|].
  weight_cases strategy latencyTolerance; vm_compute; intuition congruence.
Qed.

(** X5.  For every strategy, the latency weight grows from "relaxed" over
    any other tolerance to "strict", and the carbon and cost weights
    shrink; a tolerance that is neither "strict" nor "relaxed" gives the
    weights of "balanced". *)
Theorem getWeights_tolerance_order (strategy other : string) :
  other <> "strict" -> other <> "relaxed" ->
  let relaxed := getWeights (T := Q) strategy "relaxed" in
  let neutral := getWeights (T := Q) strategy other in
  let strict := getWeights (T := Q) strategy "strict" in
  neutral = getWeights (T := Q) strategy "balanced" /\
  (w_latency relaxed < w_latency neutral /\ w_latency neutral < w_latency strict) /\
  (w_co2 strict < w_co2 neutral /\ w_co2 neutral < w_co2 relaxed) /\
  (w_cost strict < w_cost neutral /\ w_cost neutral < w_cost relaxed).
Proof.
  intros Hs Hr. apply String.eqb_neq in Hs, Hr.
  cbv zeta. unfold getWeights, adjustWeights, baseWeights.
  rewrite Hs, Hr.
  destruct (String.eqb strategy "max-green");
    [|destruct (String.eqb strategy "budget")];
    vm_compute; intuition congruence.
Qed.

Lemma getWeights_tolerance_order_witness :
  w_latency (getWeights (T := Q) "budget" "relaxed")
  < w_latency (getWeights (T := Q) "budget" "whatever").
Proof.
  destruct (getWeights_tolerance_order "budget" "whatever") as (_ & (H & _) & _).
  - discriminate.
  - discriminate.
  - exact H.
Defined.

(** X6.  Under every tolerance, "max-green" weighs carbon above latency
    and cost, and "budget" weighs cost above latency and carbon. *)
Theorem getWeights_dominant_criterion (latencyTolerance : string) :
  let green := getWeights (T := Q) "max-green" latencyTolerance in
  let budget := getWeights (T := Q) "budget" latencyTolerance in
  (w_latency green < w_co2 green /\ w_cost green < w_co2 green) /\
  (w_latency budget < w_cost budget /\ w_co2 budget < w_cost budget).
Proof.
  cbv zeta. unfold getWeights, adjustWeights, baseWeights.
  destruct (String.eqb latencyTolerance "strict");
    [|destruct (String.eqb latencyTolerance "relaxed")];
    vm_compute; intuition congruence.
Qed.

Local Open Scope Z_scope.

Lemma isRuntime_iff (c : Component) :
  isRuntime c = true <->
  type c = "api-gateway"%string \/ type c = "frontend"%string \/
  type c = "container"%string \/ type c = "function"%string.
Proof.
  unfold isRuntime, runtimeTypes. cbn [existsb].
  rewrite !orb_true_iff, !String.eqb_eq. intuition discriminate.
Qed.

Lemma countRuntimeComponents_nonneg components : 0 <= countRuntimeComponents components.
Proof. unfold countRuntimeComponents. lia. Qed.

Lemma countRuntimeComponents_cons c components :
  countRuntimeComponents (c :: components)
  = (if isRuntime c then 1 else 0) + countRuntimeComponents components.
Proof.
  unfold countRuntimeComponents. cbn [filter].
  destruct (isRuntime c); cbn [List.length]; lia.
Qed.

Ltac replicas_cases :=
  rewrite ?calcReplicas_formula; cbv zeta;
  repeat match goal with
         | |- context [String.eqb ?t "strict"] => destruct (String.eqb t "strict")
         end;
  cbn [andb];
  repeat match goal with
         | |- context [(?a <? ?b)%Z] => destruct (Z.ltb_spec a b)
         end.

(** X7.  With the tolerance fixed, more runtime components never means
    fewer replicas. *)
Theorem calcReplicas_monotone (fewer more : list Component) (latencyTolerance : string) :
  countRuntimeComponents fewer <= countRuntimeComponents more ->
  calcReplicas fewer latencyTolerance <= calcReplicas more latencyTolerance.
Proof.
  intros Hle.
  pose proof (countRuntimeComponents_nonneg fewer) as Hn.
  rewrite !calcReplicas_formula. cbv zeta.
  set (n := countRuntimeComponents fewer) in *.
  set (m := countRuntimeComponents more) in *.
  clearbody n m.
  replicas_cases; zdiv.
Qed.

Lemma calcReplicas_monotone_witness :
  calcReplicas sampleComponents "relaxed" <= calcReplicas fiveRuntimeComponents "relaxed".
Proof.
  apply calcReplicas_monotone. vm_compute. discriminate.
Defined.

(** X8.  One more component adds at most one replica and never removes
    one; a component that is not a runtime component changes nothing. *)
Theorem calcReplicas_add_component (c : Component) (components : list Component)
    (latencyTolerance : string) :
  calcReplicas components latencyTolerance
    <= calcReplicas (c :: components) latencyTolerance
    <= calcReplicas components latencyTolerance + 1 /\
  (~ In (type c) ["api-gateway"; "frontend"; "container"; "function"]%string ->
   calcReplicas (c :: components) latencyTolerance
   = calcReplicas components latencyTolerance).
Proof.
  pose proof (countRuntimeComponents_nonneg components) as Hn.
  rewrite !calcReplicas_formula. cbv zeta.
  rewrite countRuntimeComponents_cons.
  set (n := countRuntimeComponents components) in *. clearbody n.
  split.
  - destruct (isRuntime c); replicas_cases; zdiv.
  - intros Hnot. destruct (isRuntime c) eqn:E.
    + apply isRuntime_iff in E. simpl in Hnot. exfalso. apply Hnot.
      destruct E as [E|[E|[E|E]]]; rewrite E; auto.
    + reflexivity.
Qed.

(** X9.  For the same components, "strict" asks for at least as many
    replicas as any other tolerance, and for at most one more. *)
Theorem calcReplicas_strict_vs_other (components : list Component)
    (latencyTolerance : string) :
  calcReplicas components latencyTolerance
    <= calcReplicas components "strict"
    <= calcReplicas components latencyTolerance + 1.
Proof.
  pose proof (countRuntimeComponents_nonneg components) as Hn.
  rewrite !calcReplicas_formula. cbv zeta.
  set (n := countRuntimeComponents components) in *. clearbody n.
  change (String.eqb "strict" "strict") with true.
  destruct (String.eqb latencyTolerance "strict"); cbn [andb];
    repeat match goal with
           | |- context [(?a <? ?b)%Z] => destruct (Z.ltb_spec a b)
           end; zdiv.
Qed.

(** X10.  The cap of 4 replicas is reached from 5 runtime components on
    under "strict" and from 7 on otherwise; a single replica is kept up to
    1 runtime component under "strict" and up to 2 otherwise. *)
Theorem calcReplicas_thresholds (components : list Component) (latencyTolerance : string) :
  let n := countRuntimeComponents components in
  let strict := String.eqb latencyTolerance "strict" in
  (calcReplicas components latencyTolerance = 4 <-> (if strict then 5 else 7) <= n) /\
  (calcReplicas components latencyTolerance = 1 <-> n <= (if strict then 1 else 2)).
Proof.
  pose proof (countRuntimeComponents_nonneg components) as Hn.
  cbv zeta. rewrite !calcReplicas_formula. cbv zeta.
  set (n := countRuntimeComponents components) in *. clearbody n.
  destruct (String.eqb latencyTolerance "strict"); cbn [andb];
    repeat match goal with
           | |- context [(?a <? ?b)%Z] => destruct (Z.ltb_spec a b)
           end; split; split; intros; zdiv.
Qed.

(* ------------------------------------------------------------------ *)
(** ** ManifestGenerator: names and blocks *)

Local Open Scope Q_scope.
Local Open Scope string_scope.

Lemma in_a_z_0_9_dash_alphabet c :
  JS.in_a_z_0_9_dash c = true <-> In c nameAlphabet.
Proof.
  destruct c as [[] [] [] [] [] [] [] []]; vm_compute;
    split; intros H; try discriminate; try reflexivity;
    intuition (try discriminate; auto 40).
Qed.

Lemma lower_char_safe c : JS.in_a_z_0_9_dash c = true -> JS.lower_char c = c.
Proof.
  destruct c as [[] [] [] [] [] [] [] []]; vm_compute; intros H;
    try discriminate; reflexivity.
Qed.

Lemma map_string_chars f s :
  list_ascii_of_string (JS.map_string f s) = map f (list_ascii_of_string s).
Proof. induction s; simpl; [reflexivity | now rewrite IHs]. Qed.

Lemma map_string_length f s : String.length (JS.map_string f s) = String.length s.
Proof. induction s; simpl; [reflexivity | now rewrite IHs]. Qed.

Lemma replace_unsafe_chars s :
  Forall (fun ch => In ch nameAlphabet) (list_ascii_of_string (JS.replace_unsafe s)).
Proof.
  unfold JS.replace_unsafe. rewrite map_string_chars.
  apply Forall_forall. intros ch Hin. apply in_map_iff in Hin as (c & <- & _).
  destruct (JS.in_a_z_0_9_dash c) eqn:E.
  - now apply in_a_z_0_9_dash_alphabet.
  - now apply in_a_z_0_9_dash_alphabet.
Qed.

Lemma sanitize_safe_string s :
  Forall (fun ch => In ch nameAlphabet) (list_ascii_of_string s) ->
  JS.replace_unsafe (JS.toLowerCase s) = s.
Proof.
  unfold JS.replace_unsafe, JS.toLowerCase.
  induction s as [|c s IH]; intros H; [reflexivity|].
  simpl in H. inversion H as [|? ? Hc Hs]; subst.
  apply in_a_z_0_9_dash_alphabet in Hc.
  cbn [JS.map_string]. rewrite (lower_char_safe c Hc), Hc. f_equal. now apply IH.
Qed.

Lemma safeName_chars comp :
  Forall (fun ch => In ch nameAlphabet) (list_ascii_of_string (safeName comp)).
Proof.
  unfold safeName, JS.or_else.
  destruct (JS.truthy (derivedName comp)).
  - apply replace_unsafe_chars.
  - change "service" with (JS.replace_unsafe "service"). apply replace_unsafe_chars.
Qed.

(** X13.  The name of a workload unit is never empty and consists of
    lower-case letters, digits and dashes only; for a component with a
    non-empty name it has as many characters as that name. *)
Theorem safeName_wellformed (comp : Component) :
  safeName comp <> "" /\
  Forall (fun ch => In ch nameAlphabet) (list_ascii_of_string (safeName comp)) /\
  (name comp <> "" -> String.length (safeName comp) = String.length (name comp)).
Proof.
  split; [|split].
  - unfold safeName, JS.or_else.
    destruct (derivedName comp) eqn:E; cbn [JS.truthy]; discriminate.
  - apply safeName_chars.
  - intros Hname. unfold safeName, JS.or_else.
    destruct (derivedName comp) eqn:E; cbn [JS.truthy].
    + now apply derivedName_empty in E.
    + rewrite <- E. unfold derivedName, JS.replace_unsafe, JS.toLowerCase.
      now rewrite !map_string_length.
Qed.

(** X14.  Generated names are stable: a component that is named by a
    generated name gets that same name. *)
Theorem safeName_idempotent (comp : Component) (anyType : string) :
  safeName {| name := safeName comp; type := anyType |} = safeName comp.
Proof.
  unfold safeName at 1. unfold derivedName. cbn [name].
  rewrite (sanitize_safe_string _ (safeName_chars comp)).
  unfold JS.or_else.
  destruct (safeName comp) eqn:E; [|reflexivity].
  exfalso. revert E. unfold safeName, JS.or_else. destruct (derivedName comp); cbn [JS.truthy]; discriminate.
Qed.

Lemma append_assoc (a b c : string) : ((a ++ b) ++ c = a ++ (b ++ c))%string.
Proof. induction a; simpl; [reflexivity | now rewrite IHa]. Qed.

Lemma filter_line_namespace line planId :
  line = "kind: Service" \/ line = "kind: Deployment" ->
  filter (String.eqb line) (namespaceLines planId) = [].
Proof. intros [-> | ->]; reflexivity. Qed.

Lemma deploymentLines_one_unit planId regionId instanceClass replicas comp :
  filter (String.eqb "kind: Deployment")
         (deploymentLines planId regionId instanceClass replicas comp)
  = ["kind: Deployment"].
Proof. reflexivity. Qed.

Lemma deploymentLines_no_namespace planId regionId instanceClass replicas comp :
  filter (String.eqb "kind: Namespace")
         (deploymentLines planId regionId instanceClass replicas comp) = [].
Proof. reflexivity. Qed.

Lemma count_flat_map {A} (line : string) (block : A -> list string) (k : nat) l :
  (forall a, countLines line (block a) = k) ->
  countLines line (flat_map block l) = (k * List.length l)%nat.
Proof.
  intros H. unfold countLines in *.
  induction l as [|a l IH]; [now rewrite Nat.mul_0_r|].
  cbn [flat_map List.length]. rewrite filter_app, length_app, IH, H. lia.
Qed.

Lemma countLines_app line l1 l2 :
  countLines line (l1 ++ l2) = (countLines line l1 + countLines line l2)%nat.
Proof. unfold countLines. now rewrite filter_app, length_app. Qed.

(** The three shapes of a manifest. *)
Lemma manifestLines_shape planId regionId instanceClass replicas components :
  let runtime := filter isRuntime components in
  let units := flat_map (deploymentLines planId regionId instanceClass replicas) runtime in
  match gatewayComponent runtime with
  | None =>
      runtime = [] /\
      manifestLines planId regionId instanceClass replicas components
      = namespaceLines planId
  | Some g =>
      if JS.truthy (derivedName g)
      then manifestLines planId regionId instanceClass replicas components
           = (namespaceLines planId ++ units ++ serviceLines (derivedName g))%list
      else manifestLines planId regionId instanceClass replicas components
           = (namespaceLines planId ++ units)%list
  end.
Proof.
  cbv zeta. unfold manifestLines, gatewayName.
  pose proof (gatewayComponent_spec (filter isRuntime components)) as Hspec.
  destruct (gatewayComponent (filter isRuntime components)) as [g|].
  - destruct Hspec as (Hin & _). cbn [option_map].
    destruct (filter isRuntime components); [destruct Hin|].
    cbn [List.length Nat.eqb].
    destruct (JS.truthy (derivedName g)); [now rewrite app_assoc | reflexivity].
  - rewrite Hspec. split; reflexivity.
Qed.

(** X15.  Without runtime components the manifest is the namespace block
    alone, whatever the region, instance class and replica count are. *)
Theorem manifest_without_runtime_components
    (planId regionId instanceClass : string) (replicas : Z) (components : list Component) :
  countRuntimeComponents components = 0%Z ->
  generateKubernetesYaml planId regionId instanceClass replicas components
  = "apiVersion: v1" ++ newline ++ "kind: Namespace" ++ newline ++ "metadata:" ++ newline
    ++ "  name: greenops-app" ++ newline ++ "  labels:" ++ newline
    ++ "    greenops-plan: " ++ planId ++ newline.
Proof.
  intros Hzero.
  assert (Hrt : filter isRuntime components = []).
  { unfold countRuntimeComponents in Hzero.
    destruct (filter isRuntime components); [reflexivity | discriminate]. }
  unfold generateKubernetesYaml, manifestLines. rewrite Hrt.
  cbn [List.length Nat.eqb namespaceLines JS.join].
  rewrite !append_assoc. reflexivity.
Qed.

Lemma manifest_without_runtime_components_witness :
  generateKubernetesYaml "budget" "BLR1" "standard-small" 3
    [ {| name := "orders-db"; type := "database" |} ]
  = "apiVersion: v1" ++ newline ++ "kind: Namespace" ++ newline ++ "metadata:" ++ newline
    ++ "  name: greenops-app" ++ newline ++ "  labels:" ++ newline
    ++ "    greenops-plan: " ++ "budget" ++ newline.
Proof.
  apply manifest_without_runtime_components. reflexivity.
Defined.

(** X16.  Every manifest has exactly one namespace block and one workload
    unit per runtime component; it has at most one service block, and has
    one exactly when the gateway component exists and its name is not
    empty. *)
Theorem manifest_block_counts
    (planId regionId instanceClass : string) (replicas : Z) (components : list Component) :
  let lines := manifestLines planId regionId instanceClass replicas components in
  countLines "kind: Namespace" lines = 1%nat /\
  Z.of_nat (workloadUnits lines) = countRuntimeComponents components /\
  (serviceBlocks lines <= 1)%nat /\
  (serviceBlocks lines = 1%nat <->
   exists g, gatewayComponent (filter isRuntime components) = Some g /\ name g <> "").
Proof.
  cbv zeta.
  pose proof (manifestLines_shape planId regionId instanceClass replicas components)
    as Hshape. cbv zeta in Hshape.
  set (units := flat_map (deploymentLines planId regionId instanceClass replicas)
                         (filter isRuntime components)) in *.
  assert (Hns : countLines "kind: Namespace" units = 0%nat).
  { unfold units. rewrite (count_flat_map _ _ 0); [reflexivity|]. intros; reflexivity. }
  assert (Hdp : workloadUnits units = List.length (filter isRuntime components)).
  { unfold units, workloadUnits. rewrite (count_flat_map _ _ 1); [lia|].
    intros; reflexivity. }
  assert (Hsv : serviceBlocks units = 0%nat).
  { unfold units, serviceBlocks. rewrite (count_flat_map _ _ 0); [reflexivity|].
    intros; reflexivity. }
  unfold workloadUnits, serviceBlocks, countRuntimeComponents in *.
  destruct (gatewayComponent (filter isRuntime components)) as [g|] eqn:Hg.
  - destruct (JS.truthy (derivedName g)) eqn:Ht; rewrite Hshape;
      rewrite !countLines_app, ?Hns, ?Hdp, ?Hsv.
    + split; [reflexivity|]. split; [cbn; lia|]. split; [cbn; lia|].
      split; [|reflexivity]. intros _. exists g. split; [reflexivity|].
      intros Hname. unfold derivedName in Ht. rewrite Hname in Ht. discriminate.
    + split; [reflexivity|]. split; [cbn; lia|]. split; [cbn; lia|].
      split; [cbn; discriminate|]. intros (g' & [= <-] & Hname).
      destruct (derivedName g) eqn:E; [|discriminate].
      now apply derivedName_empty in E.
  - destruct Hshape as (Hrt & ->). rewrite Hrt.
    split; [reflexivity|]. split; [reflexivity|]. split; [cbn; lia|].
    split; [cbn; discriminate|]. intros (g' & [=] & _).
Qed.

(** X17.  When the gateway component (the first runtime component typed
    "api-gateway", else the first runtime component) has a non-empty name,
    the manifest ends with its service block; the service is named after
    the component's workload unit, and its selector is the very label that
    the workload unit of that component carries. *)
Theorem service_selects_gateway_workload
    (planId regionId instanceClass : string) (replicas : Z)
    (components : list Component) (g : Component) :
  gatewayComponent (filter isRuntime components) = Some g ->
  name g <> "" ->
  manifestLines planId regionId instanceClass replicas components
  = (namespaceLines planId
     ++ flat_map (deploymentLines planId regionId instanceClass replicas)
                 (filter isRuntime components)
     ++ serviceLines (safeName g))%list /\
  In g (filter isRuntime components) /\
  In ("    app: " ++ safeName g)
     (deploymentLines planId regionId instanceClass replicas g) /\
  In ("    app: " ++ safeName g) (serviceLines (safeName g)) /\
  In ("  name: " ++ safeName g ++ "-svc") (serviceLines (safeName g)).
Proof.
  intros Hg Hname.
  destruct (named_gateway_gets_one_service planId regionId instanceClass replicas
              components g Hg Hname) as (Hlines & _ & _).
  pose proof (gatewayComponent_spec (filter isRuntime components)) as Hspec.
  rewrite Hg in Hspec. destruct Hspec as (Hin & _).
  split; [exact Hlines|]. split; [exact Hin|].
  split; [|split]; simpl; tauto.
Qed.

Lemma service_selects_gateway_workload_witness :
  In "    app: checkout-api"
     (deploymentLines "balanced" "FRA1" "standard-medium" 2
        {| name := "Checkout API"; type := "api-gateway" |}) /\
  In "    app: checkout-api" (serviceLines "checkout-api").
Proof.
  destruct (service_selects_gateway_workload "balanced" "FRA1" "standard-medium" 2
              sampleComponents {| name := "Checkout API"; type := "api-gateway" |})
    as (_ & _ & Hunit & Hsel & _).
  - reflexivity.
  - discriminate.
  - split; [exact Hunit | exact Hsel].
Defined.

(* ------------------------------------------------------------------ *)
(** ** CarbonIntensitySource and the planner endpoint: effects and payload *)

Local Open Scope string_scope.
Local Open Scope Q_scope.

Section PlannerFacts.
Variable key : string.
Variable net : string -> string -> completion Response.

Lemma getCarbonIntensityForRegion_run region tr :
  exists reading,
    getCarbonIntensityForRegion key net region tr
    = (Normal reading, (tr ++ requestsOf key region)%list) /\
    (reading = fallbackReading region \/ source reading = "electricitymaps").
Proof.
  unfold getCarbonIntensityForRegion, requestsOf.
  destruct (JS.truthy key);
    [|async_unfold; rewrite app_nil_r; eexists; split; [reflexivity | now left]].
  destruct (REGION_ZONE_MAP (id region)) as [m|];
    [|async_unfold; rewrite app_nil_r; eexists; split; [reflexivity | now left]].
  destruct m as [zone|]; cbv zeta;
    [ change (ELECTRICITYMAPS_API_BASE_URL ++ "/carbon-intensity/latest?zone="
              ++ JS.encodeURIComponent zone)%string
        with (zoneUrl (JS.encodeURIComponent zone))
    | change (ELECTRICITYMAPS_API_BASE_URL ++ "/carbon-intensity/latest?zone="
              ++ JS.encodeURIComponent "undefined")%string
        with (zoneUrl "undefined") ];
    async_unfold.
  all: match goal with |- context [net ?u key] => destruct (net u key) as [resp|e] end.
  all: try (eexists; split; [reflexivity | now left]).
  all: destruct (ok resp); cbn [negb].
  all: try (destruct (text resp); eexists; (split; [reflexivity | now left])).
  all: destruct (json resp) as [data|e]; [|eexists; split; [reflexivity | now left]].
  all: destruct (carbonIntensityOf data) as [[[]|]|];
    eexists; (split; [reflexivity | (now left) || (now right)]).
Qed.

Lemma all_readings_run (regions : list Region) :
  forall tr, exists results,
    Async.all (map (getCarbonIntensityForRegion key net) regions) tr
    = (Normal results, (tr ++ flat_map (requestsOf key) regions)%list) /\
    Forall2 (fun region reading =>
               reading = fallbackReading region \/ source reading = "electricitymaps")
            regions results.
Proof.
  induction regions as [|r rest IH]; intros tr; cbn [map flat_map Async.all].
  - exists []. rewrite app_nil_r. split; [reflexivity | constructor].
  - destruct (getCarbonIntensityForRegion_run r tr) as (rd & -> & Hrd).
    destruct (IH (tr ++ requestsOf key r)%list) as (rds & -> & Hrds).
    exists (rd :: rds). rewrite app_assoc. split; [reflexivity | now constructor].
Qed.

End PlannerFacts.

Lemma forEachPlan_Forall2 (f : string * string -> completion Plan)
    (P : string * string -> Plan -> Prop) (l : list (string * string)) :
  (forall s, In s l -> exists p, f s = Normal p /\ P s p) ->
  exists ps, forEachPlan f l = Normal ps /\ Forall2 P l ps.
Proof.
  induction l as [|s rest IH]; intros H; simpl.
  - exists []. auto.
  - destruct (H s (or_introl eq_refl)) as (p & -> & Hp).
    destruct IH as (ps & -> & Hps); [intros s' Hs'; apply H; now right|].
    exists (p :: ps). auto.
Qed.

Section PlannerRuns.
Variable key : string.
Variable net : string -> string -> completion Response.

(** A request with a non-empty array of components sends the requests of
    the catalog; the readings are those of the calls, one per region. *)
Lemma planHandler_readings (b : PlanBody) (items : list JS.json) tr :
  req_components b = Some (JS.JArray items) ->
  items <> [] ->
  exists carbonResults,
    Async.all (map (getCarbonIntensityForRegion key net) REGIONS) tr
    = (Normal carbonResults, (tr ++ flat_map (requestsOf key) REGIONS)%list) /\
    Forall2 (fun region reading =>
               reading = fallbackReading region \/ source reading = "electricitymaps")
            REGIONS carbonResults /\
    planHandler key net (Some b) tr
    = (let userRegion := orDefault (req_userRegion b) "global" in
       let latencyTolerance := orDefault (req_latencyTolerance b) "balanced" in
       match readComponents items with
       | Throw e => Throw e
       | Normal components =>
           match forEachPlan
                   (buildPlan components latencyTolerance
                              (buildRegionScores userRegion carbonResults)
                              (calcReplicas components latencyTolerance))
                   strategies with
           | Throw e => Throw e
           | Normal ps =>
               Normal (StatusOk
                 {| inputEcho :=
                      {| echo_components := items;
                         echo_userRegion := userRegion;
                         echo_latencyTolerance := latencyTolerance;
                         echo_optimizationPreference :=
                           orDefault (req_optimizationPreference b)
                                     (JS.JString "balanced") |};
                    electricityMaps_enabled := JS.truthy key;
                    plans := ps |})
           end
       end,
       (tr ++ flat_map (requestsOf key) REGIONS)%list).
Proof.
  intros Hcomp Hne.
  destruct (all_readings_run key net REGIONS tr) as (carbonResults & Hall & Htags).
  exists carbonResults. split; [exact Hall|]. split; [exact Htags|].
  unfold planHandler. rewrite Hcomp. cbn [orDefault arrayItems].
  destruct items as [|c cs]; [congruence|].
  cbn [List.length Nat.eqb].
  unfold Async.bind. rewrite Hall. cbv zeta.
  unfold Async.await, Async.ret.
  destruct (readComponents (c :: cs)) as [components|e]; [|reflexivity].
  destruct (forEachPlan _ strategies); reflexivity.
Qed.

(** A valid request runs to a 200 answer; the readings, the plans and the
    requests sent are those of the steps of the handler. *)
Lemma planHandler_valid_run (b : PlanBody) (items : list JS.json)
    (components : list Component) tr :
  req_components b = Some (JS.JArray items) ->
  items <> [] ->
  readComponents items = Normal components ->
  let userRegion := orDefault (req_userRegion b) "global" in
  let latencyTolerance := orDefault (req_latencyTolerance b) "balanced" in
  exists carbonResults ps,
    Async.all (map (getCarbonIntensityForRegion key net) REGIONS) tr
    = (Normal carbonResults, (tr ++ flat_map (requestsOf key) REGIONS)%list) /\
    Forall2 (fun region reading =>
               reading = fallbackReading region \/ source reading = "electricitymaps")
            REGIONS carbonResults /\
    Forall2 (fun strategy plan =>
               buildPlan components latencyTolerance
                         (buildRegionScores userRegion carbonResults)
                         (calcReplicas components latencyTolerance) strategy
               = Normal plan)
            strategies ps /\
    planHandler key net (Some b) tr
    = (Normal (StatusOk
                 {| inputEcho :=
                      {| echo_components := items;
                         echo_userRegion := userRegion;
                         echo_latencyTolerance := latencyTolerance;
                         echo_optimizationPreference :=
                           orDefault (req_optimizationPreference b) (JS.JString "balanced") |};
                    electricityMaps_enabled := JS.truthy key;
                    plans := ps |}),
       (tr ++ flat_map (requestsOf key) REGIONS)%list).
Proof.
  intros Hcomp Hne Hread userRegion latencyTolerance.
  destruct (planHandler_readings b items tr Hcomp Hne)
    as (carbonResults & Hall & Htags & Hrun).
  cbv zeta in Hrun. rewrite Hread in Hrun.
  fold userRegion latencyTolerance in Hrun.
  set (regionScores := buildRegionScores userRegion carbonResults) in *.
  assert (Hrs : regionScores <> []).
  { intros E. pose proof (buildRegionScores_length userRegion carbonResults) as L.
    fold regionScores in L. rewrite E in L. discriminate. }
  destruct (forEachPlan_Forall2
              (buildPlan components latencyTolerance regionScores
                         (calcReplicas components latencyTolerance))
              (fun strategy plan =>
                 buildPlan components latencyTolerance regionScores
                           (calcReplicas components latencyTolerance) strategy
                 = Normal plan)
              strategies) as (ps & Hps & Hall2).
  { intros [sid slabel] _.
    destruct (buildPlan_selects components latencyTolerance regionScores
                (calcReplicas components latencyTolerance) sid slabel Hrs)
      as (plan & _ & _ & Hplan & _).
    exists plan. split; exact Hplan. }
  exists carbonResults, ps. split; [exact Hall|]. split; [exact Htags|].
  split; [exact Hall2|].
  rewrite Hrun, Hps. reflexivity.
Qed.

(** The plan built for a strategy, field by field. *)
Lemma buildPlan_fields components latencyTolerance regionScores replicas sid slabel plan :
  buildPlan components latencyTolerance regionScores replicas (sid, slabel) = Normal plan ->
  exists i best,
    nth_error regionScores i = Some best /\
    plan_id plan = sid /\
    plan_label plan = (slabel ++ " Plan")%string /\
    scores plan =
      {| s_co2 := rounded (co2 best); s_latency := rounded (latency best);
         s_cost := rounded (cost best);
         s_overall := rounded (overallOf (getWeights (T := float) sid latencyTolerance) best) |} /\
    carbonIntensity plan =
      {| value_gCo2PerKwh := rounded (liveCarbonIntensity (region best));
         ci_source := carbonSource (region best) |} /\
    civo plan =
      {| civo_region := id (base (region best));
         regionLabel := label (base (region best));
         clusterType := "kubernetes";
         instanceClass := instanceClassFor sid;
         replicas := replicas |} /\
    kubernetesYaml plan =
      generateKubernetesYaml sid (id (base (region best))) (instanceClassFor sid)
                             replicas components.
Proof.
  intros Hplan.
  assert (Hne : regionScores <> []).
  { intros ->. discriminate Hplan. }
  unfold buildPlan in Hplan.
  destruct (pickBest_spec (getWeights sid latencyTolerance) regionScores Hne)
    as (i & best & Hpick & Hnth & Hov & _).
  rewrite Hpick in Hplan. injection Hplan as <-.
  exists i, (rs best). split; [exact Hnth|]. cbn. rewrite Hov.
  repeat split; reflexivity.
Qed.

End PlannerRuns.

(** Entry [i] of the region scores. *)
Lemma buildRegionScores_entry_at userRegion carbonResults i entry :
  nth_error (buildRegionScores userRegion carbonResults) i = Some entry ->
  exists r,
    nth_error REGIONS i = Some r /\
    base (region entry) = r /\
    liveCarbonIntensity (region entry) = nth i (map value carbonResults) PrimFloat.nan /\
    carbonSource (region entry) = source (nth i carbonResults (fallbackReading r)).
Proof.
  unfold buildRegionScores. rewrite nth_error_mapi_from.
  destruct (nth_error REGIONS i) as [r|] eqn:Hr; cbn [option_map]; [|discriminate].
  intros Hentry. cbn [Nat.add] in Hentry. exists r. split; [reflexivity|].
  repeat split; injection Hentry as <-; reflexivity.
Qed.


Lemma Forall2_Forall_r {A B} (P : A -> B -> Prop) (Q : B -> Prop) l l' :
  (forall a b, P a b -> Q b) -> Forall2 P l l' -> Forall Q l'.
Proof. intros H. induction 1; constructor; eauto. Qed.




Lemma catalog_requests key :
  flat_map (requestsOf key) REGIONS
  = if String.eqb key "" then [] else map zoneUrl catalogZones.
Proof.
  unfold requestsOf. destruct key; reflexivity.
Qed.

(** X20.  A request with a non-empty component array sends exactly one
    provider request per catalog region, in catalog order, to the URL of
    that region's zone; without an API key it sends none.  When the
    components can be read the request is answered, and the answer says
    whether a key is configured. *)
Theorem planHandler_requests
    (key : string) (net : string -> string -> completion Response)
    (b : PlanBody) (items : list JS.json) (tr : list string) :
  req_components b = Some (JS.JArray items) ->
  items <> [] ->
  snd (planHandler key net (Some b) tr)
  = (tr ++ (if String.eqb key "" then [] else map zoneUrl catalogZones))%list /\
  forall components,
    readComponents items = Normal components ->
    exists payload,
      planHandler key net (Some b) tr
      = (Normal (StatusOk payload),
         (tr ++ (if String.eqb key "" then [] else map zoneUrl catalogZones))%list) /\
      electricityMaps_enabled payload = negb (String.eqb key "").
Proof.
  intros Hcomp Hne. split.
  - destruct (planHandler_readings key net b items tr Hcomp Hne)
      as (carbonResults & _ & _ & ->).
    cbn [snd]. now rewrite catalog_requests.
  - intros components Hread.
    destruct (planHandler_valid_run key net b items components tr Hcomp Hne Hread)
      as (carbonResults & ps & _ & _ & _ & Hrun).
    rewrite catalog_requests in Hrun.
    eexists. split; [exact Hrun|]. cbn [electricityMaps_enabled].
    destruct key; reflexivity.
Qed.

Lemma planHandler_requests_witness :
  snd (planHandler "token" offline (Some sampleBody) [])
  = map zoneUrl catalogZones.
Proof.
  destruct (planHandler_requests "token" offline sampleBody (map itemOf sampleComponents) [])
    as (Hsent & _).
  - reflexivity.
  - discriminate.
  - exact Hsent.
Defined.

Lemma Forall2_nth_error_l {A B} (R : A -> B -> Prop) l l' i a :
  Forall2 R l l' -> nth_error l i = Some a ->
  exists b, nth_error l' i = Some b /\ R a b.
Proof.
  intros H. revert i. induction H as [|u w l l' Huw _ IH]; intros [|i] Ha;
    simpl in *; try discriminate.
  - injection Ha as <-. eauto.
  - eauto.
Qed.

(** X21.  Each plan of a valid request reports the reading that was
    obtained for the region it selects: the label is that region's, the
    intensity is [Math.round(value * 100) / 100] of the reading's value on
    doubles, and the source is the reading's; a reading tagged
    "fallback-static" is the region's static default. *)
Theorem planHandler_reports_selected_reading
    (key : string) (net : string -> string -> completion Response)
    (b : PlanBody) (items : list JS.json) (components : list Component)
    (tr : list string) :
  req_components b = Some (JS.JArray items) ->
  items <> [] ->
  readComponents items = Normal components ->
  exists carbonResults payload tr',
    Async.all (map (getCarbonIntensityForRegion key net) REGIONS) tr
    = (Normal carbonResults, tr') /\
    planHandler key net (Some b) tr = (Normal (StatusOk payload), tr') /\
    Forall (fun p =>
              exists i r reading,
                nth_error REGIONS i = Some r /\
                nth_error carbonResults i = Some reading /\
                civo_region (civo p) = id r /\
                regionLabel (civo p) = label r /\
                value_gCo2PerKwh (carbonIntensity p) = rounded (value reading) /\
                ci_source (carbonIntensity p) = source reading /\
                (source reading = "fallback-static" ->
                 value reading = defaultCarbonIntensity r))
           (plans payload).
Proof.
  intros Hcomp Hne Hread.
  destruct (planHandler_valid_run key net b items components tr Hcomp Hne Hread)
    as (carbonResults & ps & Hall & Htags & Hplans & Hrun).
  eexists carbonResults, _, _. split; [exact Hall|]. split; [exact Hrun|].
  cbn [plans]. eapply Forall2_Forall_r; [|exact Hplans].
  intros [sid slabel] plan Hplan. cbv beta in Hplan.
  apply buildPlan_fields in Hplan
    as (i & best & Hnth & _ & _ & _ & -> & -> & _).
  destruct (buildRegionScores_entry_at _ _ _ _ Hnth)
    as (r & Hr & Hbase & Hlive & Hsrc).
  destruct (Forall2_nth_error_l _ _ _ _ _ Htags Hr) as (reading & Hreading & Htag).
  exists i, r, reading.
  cbn [civo_region regionLabel value_gCo2PerKwh ci_source].
  rewrite Hbase, Hlive, Hsrc.
  rewrite (nth_error_nth _ _ _ Hreading).
  rewrite (nth_error_nth _ _ PrimFloat.nan (map_nth_error value _ _ Hreading)).
  repeat split; try assumption; try reflexivity.
  intros Hfb. destruct Htag as [-> | Htag]; [reflexivity|].
  rewrite Htag in Hfb. discriminate.
Qed.

Lemma planHandler_reports_selected_reading_witness :
  exists payload tr',
    planHandler "" offline (Some sampleBody) [] = (Normal (StatusOk payload), tr') /\
    Forall (fun p => exists r, In r REGIONS /\ regionLabel (civo p) = label r)
           (plans payload).
Proof.
  destruct (planHandler_reports_selected_reading "" offline sampleBody
              (map itemOf sampleComponents) sampleComponents [])
    as (carbonResults & payload & tr' & _ & Hrun & Hall).
  - reflexivity.
  - discriminate.
  - reflexivity.
  - exists payload, tr'. split; [exact Hrun|].
    eapply Forall_impl; [|exact Hall].
    intros p (i & r & reading & Hr & _ & _ & Hl & _).
    exists r. split; [eapply nth_error_In; exact Hr | exact Hl].
Defined.

Lemma Forall2_functional {A B} (f : A -> completion B) l ps qs :
  Forall2 (fun a p => f a = Normal p) l ps ->
  Forall2 (fun a q => f a = Normal q) l qs ->
  ps = qs.
Proof.
  intros H. revert qs. induction H as [|a p l ps Hp _ IH]; intros qs Hq.
  - now inversion Hq.
  - inversion Hq as [|? q ? qs' Hq1 Hq2]; subst. f_equal.
    + congruence.
    + now apply IH.
Qed.

Lemma Forall2_join {A B C} (P : A -> B -> Prop) (Q : A -> C -> Prop) l l1 l2 :
  Forall2 P l l1 -> Forall2 Q l l2 ->
  Forall2 (fun b c => exists a, P a b /\ Q a c) l1 l2.
Proof.
  intros H. revert l2. induction H as [|a b l l1 Hab _ IH]; intros l2 Hq.
  - inversion Hq. constructor.
  - inversion Hq as [|? c ? l2' Hc Hq2]; subst. constructor; eauto.
Qed.

Lemma orDefault_unrecognized u :
  unrecognizedAffinity u ->
  forall r, latencyBaseScore (orDefault u "global") r = 0.6%float.
Proof.
  intros Hu r. destruct u as [s|]; cbn [orDefault].
  - now apply latencyBaseScore_flat.
  - reflexivity.
Qed.

Lemma buildRegionScores_unrecognized u1 u2 carbonResults :
  unrecognizedAffinity u1 -> unrecognizedAffinity u2 ->
  buildRegionScores (orDefault u1 "global") carbonResults
  = buildRegionScores (orDefault u2 "global") carbonResults.
Proof.
  intros H1 H2. unfold buildRegionScores.
  assert (E : forall u, unrecognizedAffinity u ->
              map (latencyBaseScore (orDefault u "global")) REGIONS
              = map (fun _ => 0.6%float) REGIONS).
  { intros u Hu. apply map_ext. intros r. now apply orDefault_unrecognized. }
  rewrite (E u1 H1), (E u2 H2). reflexivity.
Qed.

(** X22.  Affinities the latency table does not know are interchangeable:
    two valid requests that differ only in such an affinity (or in not
    sending one) send the same requests and get the same three plans. *)
Theorem planHandler_unrecognized_affinity
    (key : string) (net : string -> string -> completion Response)
    (b : PlanBody) (items : list JS.json) (components : list Component)
    (u1 u2 : option string) (tr : list string) :
  req_components b = Some (JS.JArray items) ->
  items <> [] ->
  readComponents items = Normal components ->
  unrecognizedAffinity u1 -> unrecognizedAffinity u2 ->
  exists payload1 payload2 tr',
    planHandler key net (Some (withUserRegion b u1)) tr
    = (Normal (StatusOk payload1), tr') /\
    planHandler key net (Some (withUserRegion b u2)) tr
    = (Normal (StatusOk payload2), tr') /\
    plans payload1 = plans payload2.
Proof.
  intros Hcomp Hne Hread Hu1 Hu2.
  destruct (planHandler_valid_run key net (withUserRegion b u1) items components tr
              Hcomp Hne Hread) as (cr1 & ps1 & Hall1 & _ & Hplans1 & Hrun1).
  destruct (planHandler_valid_run key net (withUserRegion b u2) items components tr
              Hcomp Hne Hread) as (cr2 & ps2 & Hall2 & _ & Hplans2 & Hrun2).
  assert (cr2 = cr1) as -> by congruence.
  cbn [withUserRegion req_userRegion req_latencyTolerance] in Hplans1, Hplans2.
  rewrite (buildRegionScores_unrecognized u2 u1 cr1 Hu2 Hu1) in Hplans2.
  pose proof (Forall2_functional _ _ _ _ Hplans1 Hplans2) as <-.
  eexists _, _, _. split; [exact Hrun1|]. split; [exact Hrun2|]. reflexivity.
Qed.

Lemma planHandler_unrecognized_affinity_witness :
  exists payload1 payload2 tr',
    planHandler "" offline (Some (withUserRegion sampleBody (Some "moon"))) []
    = (Normal (StatusOk payload1), tr') /\
    planHandler "" offline (Some (withUserRegion sampleBody None)) []
    = (Normal (StatusOk payload2), tr') /\
    plans payload1 = plans payload2.
Proof.
  apply (planHandler_unrecognized_affinity "" offline sampleBody
           (map itemOf sampleComponents) sampleComponents).
  - reflexivity.
  - discriminate.
  - reflexivity.
  - simpl. intuition discriminate.
  - exact I.
Defined.

Lemma buildPlan_components_irrelevant c1 c2 tol regionScores r1 r2 strategy q1 q2 :
  buildPlan c1 tol regionScores r1 strategy = Normal q1 ->
  buildPlan c2 tol regionScores r2 strategy = Normal q2 ->
  plan_id q1 = plan_id q2 /\ scores q1 = scores q2 /\
  carbonIntensity q1 = carbonIntensity q2 /\
  civo_region (civo q1) = civo_region (civo q2) /\
  regionLabel (civo q1) = regionLabel (civo q2) /\
  instanceClass (civo q1) = instanceClass (civo q2).
Proof.
  destruct strategy as [sid slabel]. unfold buildPlan.
  destruct (pickBest _) as [best|]; [|discriminate].
  intros [= <-] [= <-]. cbn. repeat split; reflexivity.
Qed.

(** X23.  Which regions are selected, and with which scores and readings,
    does not depend on the components: two valid requests that differ only
    in their components get plans that agree on region, scores, carbon
    reading and instance class (replica count and manifest may differ). *)
Theorem planHandler_selection_ignores_components
    (key : string) (net : string -> string -> completion Response)
    (b : PlanBody) (items1 items2 : list JS.json)
    (components1 components2 : list Component) (tr : list string) :
  items1 <> [] -> items2 <> [] ->
  readComponents items1 = Normal components1 ->
  readComponents items2 = Normal components2 ->
  exists payload1 payload2 tr',
    planHandler key net (Some (withComponents b items1)) tr
    = (Normal (StatusOk payload1), tr') /\
    planHandler key net (Some (withComponents b items2)) tr
    = (Normal (StatusOk payload2), tr') /\
    Forall2 (fun q1 q2 =>
               plan_id q1 = plan_id q2 /\ scores q1 = scores q2 /\
               carbonIntensity q1 = carbonIntensity q2 /\
               civo_region (civo q1) = civo_region (civo q2) /\
               regionLabel (civo q1) = regionLabel (civo q2) /\
               instanceClass (civo q1) = instanceClass (civo q2))
            (plans payload1) (plans payload2).
Proof.
  intros Hne1 Hne2 Hread1 Hread2.
  destruct (planHandler_valid_run key net (withComponents b items1) items1 components1 tr
              eq_refl Hne1 Hread1) as (cr1 & ps1 & Hall1 & _ & Hplans1 & Hrun1).
  destruct (planHandler_valid_run key net (withComponents b items2) items2 components2 tr
              eq_refl Hne2 Hread2) as (cr2 & ps2 & Hall2 & _ & Hplans2 & Hrun2).
  assert (cr2 = cr1) as -> by congruence.
  cbn [withComponents req_userRegion req_latencyTolerance] in Hplans1, Hplans2.
  eexists _, _, _. split; [exact Hrun1|]. split; [exact Hrun2|]. cbn [plans].
  eapply Forall2_impl; [|exact (Forall2_join _ _ _ _ _ Hplans1 Hplans2)].
  intros q1 q2 (strategy & H1 & H2). cbv beta in H1, H2.
  eapply buildPlan_components_irrelevant; eassumption.
Qed.

Lemma planHandler_selection_ignores_components_witness :
  exists payload1 payload2 tr',
    planHandler "" offline
      (Some (withComponents sampleBody (map itemOf sampleComponents))) []
    = (Normal (StatusOk payload1), tr') /\
    planHandler "" offline
      (Some (withComponents sampleBody (map itemOf fiveRuntimeComponents))) []
    = (Normal (StatusOk payload2), tr') /\
    map (fun q => civo_region (civo q)) (plans payload1)
    = map (fun q => civo_region (civo q)) (plans payload2).
Proof.
  destruct (planHandler_selection_ignores_components "" offline sampleBody
              (map itemOf sampleComponents) (map itemOf fiveRuntimeComponents)
              sampleComponents fiveRuntimeComponents [])
    as (p1 & p2 & tr' & H1 & H2 & Hall).
  - discriminate.
  - discriminate.
  - reflexivity.
  - reflexivity.
  - exists p1, p2, tr'. split; [exact H1|]. split; [exact H2|].
    induction Hall as [|q1 q2 l1 l2 Hq _ IH]; [reflexivity|].
    cbn [map]. f_equal; [apply Hq | exact IH].
Defined.

(* ------------------------------------------------------------------ *)
(** ** The deploy endpoint *)

Local Open Scope string_scope.
Local Open Scope Q_scope.

Lemma falsy_iff x : falsy x = true <-> missingOrEmpty x.
Proof.
  unfold falsy, missingOrEmpty. destruct x as [[|c s]|]; cbn; split; intros H;
    try reflexivity; try discriminate; auto;
    destruct H as [H|H]; discriminate.
Qed.

Lemma falsy_false x : falsy x = false -> exists s, x = Some s /\ s <> "" /\ stringOr x "" = s.
Proof.
  destruct x as [[|c s]|]; cbn; intros H; try discriminate.
  eexists. split; [reflexivity|]. split; [discriminate | reflexivity].
Qed.

Section DeployFacts.
Variable ENABLE_CIVO_DEPLOY : bool.
Variable KUBECTL_CONTEXT : string.
Variable USD_TO_INR : float.
Variable now_iso : string.
Variable now_ms : Z.
Variable tmpdir : string.
Variable path_join : string -> string -> string.
Variable writeFile_result : string -> string -> completion unit.
Variable exec_result : string -> ExecOutcome.

Local Notation "'runDeploy'" :=
  (deployHandler ENABLE_CIVO_DEPLOY KUBECTL_CONTEXT USD_TO_INR now_iso now_ms
                 tmpdir path_join writeFile_result exec_result).

(** X24.  A deploy request without a body, or whose planId, region or
    kubernetesYaml is absent or empty, is answered with 400; nothing is
    added to the history, no file is written and no command is run. *)
Theorem deployHandler_rejects_incomplete (body : option DeployBody)
    (history : list Deployment) :
  (forall b, body = Some b ->
     missingOrEmpty (dep_planId b) \/ missingOrEmpty (dep_region b) \/
     missingOrEmpty (dep_kubernetesYaml b)) ->
  runDeploy body history
  = {| dr_response :=
         DeployBadRequest 400 "planId, region, and kubernetesYaml are required to deploy.";
       dr_history := history;
       dr_effects := [] |}.
Proof.
  intros H. unfold deployHandler.
  destruct body as [b|]; [|reflexivity].
  assert (E : falsy (dep_planId b) || falsy (dep_region b)
              || falsy (dep_kubernetesYaml b) = true).
  { rewrite !orb_true_iff, !falsy_iff. specialize (H b eq_refl). tauto. }
  rewrite E. reflexivity.
Qed.

(** The record appended for an accepted request. *)
Lemma deployHandler_accepted (b : DeployBody) (history : list Deployment)
    planId region yaml :
  dep_planId b = Some planId -> planId <> "" ->
  dep_region b = Some region -> region <> "" ->
  dep_kubernetesYaml b = Some yaml -> yaml <> "" ->
  exists record,
    dr_history (runDeploy (Some b) history) = (history ++ [record])%list /\
    d_planId record = planId /\ d_region record = region /\
    timestamp record = now_iso /\
    d_regionLabel record = stringOr (dep_regionLabel b) region /\
    d_replicas record =
      match dep_replicas b with
      | Some (JS.JNumber r) => if PrimFloat.ltb 0 r then r else 1
      | _ => 1
      end%float /\
    estimatedHourlyCostUsd record =
      JS.Number_toFixed
        (match find (fun r => String.eqb (id r) region) REGIONS with
         | Some r => baseCost r
         | None => 0.25
         end * d_replicas record)%float 4.
Proof.
  intros Hp Hpne Hr Hrne Hy Hyne. unfold deployHandler.
  rewrite Hp, Hr, Hy.
  destruct planId as [|c1 s1]; [congruence|].
  destruct region as [|c2 s2]; [congruence|].
  destruct yaml as [|c3 s3]; [congruence|].
  cbn [falsy JS.truthy negb orb stringOr JS.or_else].
  destruct (writeFile_result _ _); [destruct ENABLE_CIVO_DEPLOY; cbn [negb];
                                    [destruct (exec_result _)|]|];
    cbn [dr_history]; eexists; (split; [reflexivity|]); cbn; repeat split; reflexivity.
Qed.

(** X25.  Responses and effects of a deploy request correspond: kubectl is
    run only when deployment is enabled and the manifest file was written
    (the file holding exactly the manifest of the request); the answer is
    "dry-run" exactly when deployment is disabled, and otherwise reports how
    the command settled; a rejected request has no effect at all. *)
Theorem deployHandler_effects (body : option DeployBody) (history : list Deployment) :
  let result := runDeploy body history in
  let yamlSent y := exists b, body = Some b /\ dep_kubernetesYaml b = Some y in
  match dr_response result with
  | DeployBadRequest code _ =>
      code = 400%Z /\ dr_effects result = [] /\ dr_history result = history
  | DeployWriteFailed code _ details =>
      code = 500%Z /\
      exists path yaml,
        yamlSent yaml /\ dr_effects result = [WriteFile path yaml] /\
        writeFile_result path yaml = Throw details
  | DeployDryRun _ _ _ _ =>
      ENABLE_CIVO_DEPLOY = false /\
      exists path yaml,
        yamlSent yaml /\ dr_effects result = [WriteFile path yaml] /\
        writeFile_result path yaml = Normal tt
  | DeployApplied _ _ command stdout stderr _ =>
      ENABLE_CIVO_DEPLOY = true /\
      exists path yaml,
        yamlSent yaml /\ dr_effects result = [WriteFile path yaml; Exec command] /\
        writeFile_result path yaml = Normal tt /\
        exec_result command = ExecResolved stdout stderr
  | DeployApplyFailed code _ _ command error stdout stderr =>
      code = 500%Z /\ ENABLE_CIVO_DEPLOY = true /\
      exists path yaml,
        yamlSent yaml /\ dr_effects result = [WriteFile path yaml; Exec command] /\
        writeFile_result path yaml = Normal tt /\
        exec_result command = ExecRejected error stdout stderr
  end.
Proof.
  cbv zeta. unfold deployHandler.
  destruct body as [b|]; [|cbn; auto].
  destruct (falsy (dep_planId b) || falsy (dep_region b)
            || falsy (dep_kubernetesYaml b)) eqn:E; [cbn; auto|].
  apply orb_false_iff in E as (E & Ey). apply orb_false_iff in E as (Ep & Er).
  destruct (falsy_false _ Ey) as (yaml & Hy & _ & Hyaml).
  rewrite Hyaml.
  match goal with |- context [writeFile_result ?p yaml] => set (path := p) end.
  destruct (writeFile_result path yaml) as [[]|details] eqn:Hw.
  - destruct ENABLE_CIVO_DEPLOY; cbn [negb].
    + match goal with |- context [exec_result ?c] => set (cmd := c) end.
      destruct (exec_result cmd) as [out err|msg out err] eqn:Hx; cbn.
      * split; [reflexivity|]. exists path, yaml. repeat split; eauto.
      * split; [reflexivity|]. split; [reflexivity|].
        exists path, yaml. repeat split; eauto.
    + cbn. split; [reflexivity|]. exists path, yaml. repeat split; eauto.
  - cbn. split; [reflexivity|]. exists path, yaml. repeat split; eauto.
Qed.

End DeployFacts.

Lemma deployHandler_rejects_incomplete_witness :
  deployHandler true "prod" 85%float "2025-01-01T00:00:00.000Z" 1735689600000 "/tmp"
    simplePathJoin (fun _ _ => Normal tt) (fun _ => ExecResolved "" "")
    (Some {| dep_planId := Some "budget"; dep_region := Some "";
             dep_regionLabel := None; dep_carbonIntensity := None;
             dep_replicas := None; dep_scores := None;
             dep_kubernetesYaml := Some "kind: Namespace" |}) []
  = {| dr_response :=
         DeployBadRequest 400 "planId, region, and kubernetesYaml are required to deploy.";
       dr_history := [];
       dr_effects := [] |}.
Proof.
  apply deployHandler_rejects_incomplete.
  intros b [= <-]. right. left. right. reflexivity.
Defined.

Lemma deployHandler_history_independent
    e1 c1 m1 t1 p1 w1 x1 e2 c2 m2 t2 p2 w2 x2 usd now body history :
  dr_history (deployHandler e1 c1 usd now m1 t1 p1 w1 x1 body history)
  = dr_history (deployHandler e2 c2 usd now m2 t2 p2 w2 x2 body history).
Proof.
  unfold deployHandler.
  destruct (falsy _ || falsy _ || falsy _); [reflexivity|].
  destruct (w1 _ _); [destruct e1; cbn [negb]; [destruct (x1 _)|]|];
    (destruct (w2 _ _); [destruct e2; cbn [negb]; [destruct (x2 _)|]|]);
    reflexivity.
Qed.

(** X26.  A deploy request that names a plan, a region and a manifest is
    recorded exactly once, and before anything is written or run: the
    history grows by one record, the same whether deployment is enabled or
    not and however the file write and kubectl settle.  The record carries
    the plan and region as sent, a non-empty region label and a positive
    replica count. *)
Theorem deployHandler_records_once
    (usd : float) (now : string) (b : DeployBody) (history : list Deployment)
    (planId region yaml : string) :
  dep_planId b = Some planId -> planId <> "" ->
  dep_region b = Some region -> region <> "" ->
  dep_kubernetesYaml b = Some yaml -> yaml <> "" ->
  exists record,
    (forall enabled context ms tmp join written executed,
        dr_history (deployHandler enabled context usd now ms tmp join written executed
                                  (Some b) history)
        = (history ++ [record])%list) /\
    d_planId record = planId /\ d_region record = region /\
    timestamp record = now /\
    d_regionLabel record <> "" /\
    num_lt 0 (d_replicas record).
Proof.
  intros Hp Hpne Hr Hrne Hy Hyne.
  destruct (deployHandler_accepted false "" usd now 0%Z "" (fun _ _ => "")
              (fun _ _ => Throw "") (fun _ => ExecRejected "" "" "")
              b history planId region yaml Hp Hpne Hr Hrne Hy Hyne)
    as (record & Hh & Hid & Hreg & Hts & Hlabel & Hrep & _).
  exists record. split; [|split; [exact Hid|split; [exact Hreg|split; [exact Hts|split]]]].
  - intros. rewrite <- Hh. apply deployHandler_history_independent.
  - rewrite Hlabel. unfold stringOr, JS.or_else.
    destruct (dep_regionLabel b) as [[|c s]|]; cbn [JS.truthy]; try assumption.
    discriminate.
  - rewrite Hrep. unfold num_lt. destruct (dep_replicas b) as [[]|]; try reflexivity.
    destruct (0 <? x)%float eqn:E; [exact E | reflexivity].
Qed.

Lemma deployHandler_records_once_witness :
  exists record,
    dr_history
      (deployHandler true "prod" 85%float "2025-01-01T00:00:00.000Z" 1735689600000 "/tmp"
         simplePathJoin (fun _ _ => Throw "disk full") (fun _ => ExecResolved "" "")
         (Some sampleDeployBody) [])
    = [record] /\
    d_planId record = "max-green".
Proof.
  destruct (deployHandler_records_once 85%float "2025-01-01T00:00:00.000Z" sampleDeployBody []
              "max-green" "FRA1" "kind: Namespace")
    as (record & Hh & Hid & _); try reflexivity; try discriminate.
  exists record. split; [apply Hh | exact Hid].
Defined.

(* ------------------------------------------------------------------ *)
(** ** The analytics endpoint *)

Local Open Scope string_scope.
Local Open Scope Q_scope.

Lemma insert_permutation {A} (behind : A -> A -> bool) a l :
  Permutation (JS.insert behind a l) (a :: l).
Proof.
  induction l as [|b l IH]; cbn [JS.insert]; [reflexivity|].
  destruct (behind a b); [|reflexivity].
  rewrite IH. apply perm_swap.
Qed.

Lemma sort_permutation {A} (behind : A -> A -> bool) l :
  Permutation (JS.stable_sort behind l) l.
Proof.
  induction l as [|a l IH]; [reflexivity|].
  change (JS.stable_sort behind (a :: l))
    with (JS.insert behind a (JS.stable_sort behind l)).
  rewrite insert_permutation. now constructor.
Qed.

Lemma filter_partition_permutation {A} (p : A -> bool) l :
  Permutation (filter p l ++ filter (fun a => negb (p a)) l) l.
Proof.
  induction l as [|a l IH]; [reflexivity|].
  cbn [filter]. destruct (p a); cbn [negb].
  - cbn. now constructor.
  - rewrite <- Permutation_middle. now constructor.
Qed.

Lemma Object_values_permutation props : Permutation (Object_values props) props.
Proof.
  unfold Object_values. rewrite sort_permutation. apply filter_partition_permutation.
Qed.

Section Grouping.
Variable keyOf : Deployment -> string.
Variable labelOf : Deployment -> option string.

Local Notation "'step'" := (fun obj d => addToGroup (keyOf d) (labelOf d) d obj).

Lemma recordsOf_snoc key l d :
  recordsOf keyOf key (l ++ [d])
  = (recordsOf keyOf key l ++ (if String.eqb (keyOf d) key then [d] else []))%list.
Proof. unfold recordsOf. rewrite filter_app. reflexivity. Qed.

Lemma sumF_snoc l x : sumF (l ++ [x]) = (sumF l + x)%float.
Proof. unfold sumF. rewrite fold_left_app. reflexivity. Qed.

Lemma existsb_key_In key (obj : list Group) :
  existsb (fun g => String.eqb (g_key g) key) obj = true <-> In key (map g_key obj).
Proof.
  rewrite existsb_exists, in_map_iff. split.
  - intros (g & Hg & E). apply String.eqb_eq in E. eauto.
  - intros (g & E & Hg). exists g. split; [exact Hg|]. now apply String.eqb_eq.
Qed.

Lemma proto_key_In key :
  existsb (String.eqb key) Object_prototype_keys = true <-> In key Object_prototype_keys.
Proof.
  rewrite existsb_exists. split.
  - intros (k & Hk & E). apply String.eqb_eq in E. now subst.
  - intros H. exists key. split; [exact H | apply String.eqb_refl].
Qed.

(** A record filed under another key leaves a group as it is. *)
Lemma groupFor_other l d g :
  keyOf d <> g_key g ->
  groupFor keyOf labelOf l g -> groupFor keyOf labelOf (l ++ [d]) g.
Proof.
  intros Hne H. unfold groupFor in *. cbv zeta in *.
  rewrite recordsOf_snoc. apply String.eqb_neq in Hne. rewrite Hne, app_nil_r.
  exact H.
Qed.

(** A record filed under the key of a group is added to it. *)
Lemma groupFor_same l d g :
  keyOf d = g_key g ->
  groupFor keyOf labelOf l g ->
  groupFor keyOf labelOf (l ++ [d])
    {| g_key := g_key g;
       g_regionLabel := g_regionLabel g;
       g_deployments := g_deployments g + 1;
       g_totalCO2 := g_totalCO2 g + estimatedHourlyCO2Kg d;
       g_totalCI := g_totalCI g + carbonIntensity_gCo2PerKwh d;
       g_totalCostUsd := g_totalCostUsd g + estimatedHourlyCostUsd d |}.
Proof.
  intros He (Hp & Hpos & Hn & Hco2 & Hci & Hcost & Hlabel).
  unfold groupFor. cbv zeta. cbn [g_key g_regionLabel g_deployments g_totalCO2
                                   g_totalCI g_totalCostUsd].
  rewrite recordsOf_snoc, He, String.eqb_refl.
  rewrite !map_app. cbn [map]. rewrite !sumF_snoc, length_app. cbn [List.length].
  rewrite <- Hco2, <- Hci, <- Hcost.
  repeat split; try assumption; try lia.
  rewrite Hlabel.
  destruct (recordsOf keyOf (g_key g) l) as [|d0 ds] eqn:E; [|reflexivity].
  cbn [List.length] in Hn. lia.
Qed.

(** The group created for the first record of a key. *)
Lemma groupFor_new l d :
  ~ In (keyOf d) Object_prototype_keys ->
  recordsOf keyOf (keyOf d) l = [] ->
  groupFor keyOf labelOf (l ++ [d])
    {| g_key := keyOf d;
       g_regionLabel := labelOf d;
       g_deployments := 0 + 1;
       g_totalCO2 := 0 + estimatedHourlyCO2Kg d;
       g_totalCI := 0 + carbonIntensity_gCo2PerKwh d;
       g_totalCostUsd := 0 + estimatedHourlyCostUsd d |}.
Proof.
  intros Hp He. unfold groupFor. cbv zeta.
  cbn [g_key g_regionLabel g_deployments g_totalCO2 g_totalCI g_totalCostUsd].
  rewrite recordsOf_snoc, He, String.eqb_refl. cbn [app map List.length hd_error].
  repeat split; try assumption; try lia; reflexivity.
Qed.

Lemma recordsOf_empty key l :
  (forall d, In d l -> keyOf d <> key) -> recordsOf keyOf key l = [].
Proof.
  intros H. unfold recordsOf. induction l as [|d l IH]; [reflexivity|].
  cbn [filter]. destruct (String.eqb_spec (keyOf d) key) as [E|_].
  - now destruct (H d (or_introl eq_refl)).
  - apply IH. intros d' Hd'. apply H. now right.
Qed.

Lemma addToGroup_invariant l obj d :
  groupedBy keyOf labelOf l obj ->
  groupedBy keyOf labelOf (l ++ [d]) (addToGroup (keyOf d) (labelOf d) d obj).
Proof.
  intros (Hnd & Hall & Hcov). unfold addToGroup.
  destruct (existsb (String.eqb (keyOf d)) Object_prototype_keys) eqn:Eproto.
  { (* the key names a member of Object.prototype *)
    apply proto_key_In in Eproto.
    split; [exact Hnd|]. split.
    - apply Forall_forall. intros g Hg.
      rewrite Forall_forall in Hall. specialize (Hall g Hg).
      apply groupFor_other; [|exact Hall].
      intros E. destruct Hall as (Hp & _). apply Hp. now rewrite <- E.
    - intros d' Hd' Hp. apply in_app_or in Hd' as [Hd'|[<-|[]]]; [now apply Hcov|].
      contradiction. }
  assert (Hproto : ~ In (keyOf d) Object_prototype_keys).
  { intros H. apply proto_key_In in H. congruence. }
  set (upd := fun g =>
         if String.eqb (g_key g) (keyOf d) then
           {| g_key := g_key g;
              g_regionLabel := g_regionLabel g;
              g_deployments := g_deployments g + 1;
              g_totalCO2 := g_totalCO2 g + estimatedHourlyCO2Kg d;
              g_totalCI := g_totalCI g + carbonIntensity_gCo2PerKwh d;
              g_totalCostUsd := g_totalCostUsd g + estimatedHourlyCostUsd d |}
         else g).
  assert (Hkey : forall g, g_key (upd g) = g_key g).
  { intros g. unfold upd. destruct (String.eqb _ _); reflexivity. }
  assert (Hkeys : forall o, map g_key (map upd o) = map g_key o).
  { intros o. rewrite map_map. apply map_ext. exact Hkey. }
  assert (Hupd : forall g, groupFor keyOf labelOf l g ->
                           groupFor keyOf labelOf (l ++ [d]) (upd g)).
  { intros g Hg. unfold upd.
    destruct (String.eqb_spec (g_key g) (keyOf d)) as [E|E].
    - now apply groupFor_same.
    - apply groupFor_other; [congruence | exact Hg]. }
  destruct (existsb (fun g => String.eqb (g_key g) (keyOf d)) obj) eqn:Eown.
  - (* the group exists *)
    apply existsb_key_In in Eown.
    split; [now rewrite Hkeys|]. split.
    + apply Forall_forall. intros g' Hg'. apply in_map_iff in Hg' as (g & <- & Hg).
      rewrite Forall_forall in Hall. now apply Hupd, Hall.
    + intros d' Hd' Hp. rewrite Hkeys.
      apply in_app_or in Hd' as [Hd'|[<-|[]]]; [now apply Hcov | exact Eown].
  - (* the group is created *)
    assert (Hnew : ~ In (keyOf d) (map g_key obj)).
    { intros H. apply existsb_key_In in H. congruence. }
    assert (Hnone : recordsOf keyOf (keyOf d) l = []).
    { apply recordsOf_empty. intros d' Hd' E.
      apply Hnew. rewrite <- E. apply Hcov; [exact Hd'|]. now rewrite E. }
    split; [|split].
    + rewrite Hkeys, map_app. cbn [map g_key].
      apply NoDup_app; [exact Hnd | repeat constructor; intros [] |].
      intros k Hk [<-|[]]. contradiction.
    + rewrite map_app. apply Forall_app. split.
      * apply Forall_forall. intros g' Hg'. apply in_map_iff in Hg' as (g & <- & Hg).
        rewrite Forall_forall in Hall. now apply Hupd, Hall.
      * cbn [map]. constructor; [|constructor].
        unfold upd. cbn [g_key]. rewrite String.eqb_refl.
        cbn [g_key g_regionLabel g_deployments g_totalCO2 g_totalCI g_totalCostUsd].
        now apply groupFor_new.
    + intros d' Hd' Hp. rewrite Hkeys, map_app. apply in_or_app.
      apply in_app_or in Hd' as [Hd'|[<-|[]]]; [left; now apply Hcov|].
      right. now left.
Qed.

Lemma scan_groups_invariant l :
  groupedBy keyOf labelOf l (fold_left step l []).
Proof.
  induction l as [|d l IH] using rev_ind.
  - split; [constructor|]. split; [constructor|]. intros d [].
  - rewrite fold_left_app. cbn [fold_left]. now apply addToGroup_invariant.
Qed.

End Grouping.

(** The scan of the history, component by component. *)
Lemma scan_components l :
  forall t p r,
    fold_left scanDeployment l (t, p, r)
    = (fold_left (fun t d =>
                    {| totalCO2 := totalCO2 t + estimatedHourlyCO2Kg d;
                       totalCI := totalCI t + carbonIntensity_gCo2PerKwh d;
                       totalCostUsd := totalCostUsd t + estimatedHourlyCostUsd d;
                       baselineCostUsd := baselineCostUsd t + maxBaseCost * d_replicas d |})
                 l t,
       fold_left (fun obj d => addToGroup (d_planId d) None d obj) l p,
       fold_left (fun obj d => addToGroup (d_region d) (Some (d_regionLabel d)) d obj) l r).
Proof.
  induction l as [|d l IH]; intros t p r; [reflexivity|].
  cbn [fold_left]. unfold scanDeployment at 2. apply IH.
Qed.

Lemma groupedBy_permutation keyOf labelOf history groups groups' :
  Permutation groups' groups ->
  groupedBy keyOf labelOf history groups -> groupedBy keyOf labelOf history groups'.
Proof.
  intros Hperm (Hnd & Hall & Hcov).
  assert (Hkeys : Permutation (map g_key groups') (map g_key groups))
    by (now apply Permutation_map).
  split; [|split].
  - eapply Permutation_NoDup; [symmetry; exact Hkeys | exact Hnd].
  - eapply Permutation_Forall; [symmetry; exact Hperm | exact Hall].
  - intros d Hd Hp. eapply Permutation_in; [symmetry; exact Hkeys|]. now apply Hcov.
Qed.

Lemma analyticsHandler_unfold usd history :
  analyticsHandler usd history =
  let t := fold_left (fun t d =>
                    {| totalCO2 := totalCO2 t + estimatedHourlyCO2Kg d;
                       totalCI := totalCI t + carbonIntensity_gCo2PerKwh d;
                       totalCostUsd := totalCostUsd t + estimatedHourlyCostUsd d;
                       baselineCostUsd := baselineCostUsd t + maxBaseCost * d_replicas d |})
                 history
                 {| totalCO2 := 0; totalCI := 0; totalCostUsd := 0; baselineCostUsd := 0 |} in
  let n := Z.of_nat (List.length history) in
  {| summary :=
       {| totalDeployments := n;
          totalEstimatedHourlyCO2Kg := JS.Number_toFixed (totalCO2 t) 3;
          averageCarbonIntensity_gCo2PerKwh :=
            JS.Number_toFixed
              (if (0 <? n)%Z then totalCI t / JS.float_of_Z n else 0)%float 2;
          totalEstimatedHourlyCostUsd := JS.Number_toFixed (totalCostUsd t) 4;
          totalEstimatedHourlyCostInr := JS.Number_toFixed (totalCostUsd t * usd) 2;
          baselineEstimatedHourlyCostUsd := JS.Number_toFixed (baselineCostUsd t) 4;
          baselineEstimatedHourlyCostInr :=
            JS.Number_toFixed (baselineCostUsd t * usd) 2;
          estimatedHourlySavingsUsd :=
            JS.Number_toFixed (baselineCostUsd t - totalCostUsd t) 4;
          estimatedHourlySavingsInr :=
            JS.Number_toFixed ((baselineCostUsd t - totalCostUsd t) * usd) 2 |};
     byPlan :=
       map (groupRow usd)
           (Object_values
              (fold_left (fun obj d => addToGroup (d_planId d) None d obj) history []));
     byRegion :=
       map (groupRow usd)
           (Object_values
              (fold_left (fun obj d =>
                            addToGroup (d_region d) (Some (d_regionLabel d)) d obj)
                         history []));
     deployments := history;
     currency_usdToInr := usd |}.
Proof.
  unfold analyticsHandler. rewrite scan_components. reflexivity.
Qed.

(** X28.  The byPlan and byRegion arrays of the analytics answer are the
    groups of the history by plan id and by region: one row per key that
    occurs (member names of Object.prototype excepted), no key twice; a
    row counts the records of its key and sums their CO2, carbon-intensity
    and cost estimates, a region row is labelled by the first record of
    its region, and the averages are the sums divided by the count. *)
Theorem analyticsHandler_groups (usd : float) (history : list Deployment) :
  let answer := analyticsHandler usd history in
  groupedBy d_planId (fun _ => None) history (map row_group (byPlan answer)) /\
  groupedBy d_region (fun d => Some (d_regionLabel d)) history
            (map row_group (byRegion answer)) /\
  Forall (fun row =>
            avgCI row
            = (g_totalCI (row_group row)
               / JS.float_of_Z (g_deployments (row_group row)))%float /\
            avgCostUsd row
            = (g_totalCostUsd (row_group row)
               / JS.float_of_Z (g_deployments (row_group row)))%float)
         (byPlan answer ++ byRegion answer) /\
  deployments answer = history /\
  totalDeployments (summary answer) = Z.of_nat (List.length history).
Proof.
  cbv zeta. rewrite analyticsHandler_unfold. cbv zeta.
  cbn [byPlan byRegion deployments summary totalDeployments].
  assert (Hrows : forall l, map row_group (map (groupRow usd) l) = l).
  { intros l. rewrite map_map. cbn [groupRow row_group]. apply map_id. }
  rewrite !Hrows.
  pose proof (scan_groups_invariant d_planId (fun _ => None) history) as HP.
  pose proof (scan_groups_invariant d_region (fun d => Some (d_regionLabel d)) history)
    as HR.
  pose proof (groupedBy_permutation _ _ _ _ _ (Object_values_permutation _) HP) as HP'.
  pose proof (groupedBy_permutation _ _ _ _ _ (Object_values_permutation _) HR) as HR'.
  split; [exact HP'|]. split; [exact HR'|]. split; [|split; reflexivity].
  assert (Havg : forall keyOf labelOf groups,
             groupedBy keyOf labelOf history groups ->
             Forall (fun row =>
                       avgCI row
                       = (g_totalCI (row_group row)
                          / JS.float_of_Z (g_deployments (row_group row)))%float /\
                       avgCostUsd row
                       = (g_totalCostUsd (row_group row)
                          / JS.float_of_Z (g_deployments (row_group row)))%float)
                    (map (groupRow usd) groups)).
  { intros keyOf labelOf groups (_ & Hall & _).
    apply Forall_forall. intros row Hrow. apply in_map_iff in Hrow as (g & <- & Hg).
    rewrite Forall_forall in Hall. destruct (Hall g Hg) as (_ & Hpos & _).
    unfold groupRow. cbn [avgCI avgCostUsd row_group].
    apply Z.ltb_lt in Hpos. rewrite Hpos. split; reflexivity. }
  apply Forall_app. split; eapply Havg; eassumption.
Qed.

Lemma sumZ_app l1 l2 : sumZ (l1 ++ l2) = (sumZ l1 + sumZ l2)%Z.
Proof. unfold sumZ. induction l1; cbn; [reflexivity | rewrite IHl1; lia]. Qed.

Lemma sumZ_permutation l1 l2 : Permutation l1 l2 -> sumZ l1 = sumZ l2.
Proof. unfold sumZ. induction 1; cbn in *; lia. Qed.

(** Increasing the group of [key] adds one to the counts when the group
    is there, given that no key occurs twice. *)
Lemma update_count key (bump : Group -> Group) (obj : list Group) :
  (forall g, g_key (bump g) = g_key g) ->
  (forall g, g_deployments (bump g) = (g_deployments g + 1)%Z) ->
  NoDup (map g_key obj) ->
  sumZ (map g_deployments
            (map (fun g => if String.eqb (g_key g) key then bump g else g) obj))
  = (sumZ (map g_deployments obj)
     + (if existsb (fun g => String.eqb (g_key g) key) obj then 1 else 0))%Z.
Proof.
  intros Hk Hb. induction obj as [|g obj IH]; intros Hnd; [reflexivity|].
  cbn [map] in Hnd. apply NoDup_cons_iff in Hnd as (Hnot & Hnd).
  cbn [map existsb]. unfold sumZ in *. cbn [fold_right].
  rewrite (IH Hnd).
  destruct (String.eqb_spec (g_key g) key) as [E|E]; cbn [orb].
  - rewrite Hb.
    destruct (existsb _ obj) eqn:Ex; [|lia].
    exfalso. apply Hnot. apply existsb_exists in Ex as (g' & Hg' & E').
    apply String.eqb_eq in E'. apply in_map_iff. exists g'. split; [congruence | exact Hg'].
  - lia.
Qed.

Lemma addToGroup_count keyOf labelOf l obj d :
  groupedBy keyOf labelOf l obj ->
  sumZ (map g_deployments (addToGroup (keyOf d) (labelOf d) d obj))
  = (sumZ (map g_deployments obj)
     + (if existsb (String.eqb (keyOf d)) Object_prototype_keys then 0 else 1))%Z.
Proof.
  intros (Hnd & _ & _). unfold addToGroup.
  destruct (existsb (String.eqb (keyOf d)) Object_prototype_keys); [lia|].
  destruct (existsb (fun g => String.eqb (g_key g) (keyOf d)) obj) eqn:Eown.
  - rewrite (update_count (keyOf d)
               (fun g => {| g_key := g_key g; g_regionLabel := g_regionLabel g;
                            g_deployments := g_deployments g + 1;
                            g_totalCO2 := g_totalCO2 g + estimatedHourlyCO2Kg d;
                            g_totalCI := g_totalCI g + carbonIntensity_gCo2PerKwh d;
                            g_totalCostUsd := g_totalCostUsd g + estimatedHourlyCostUsd d |}));
      [rewrite Eown; reflexivity | reflexivity | reflexivity | exact Hnd].
  - rewrite (update_count (keyOf d)
               (fun g => {| g_key := g_key g; g_regionLabel := g_regionLabel g;
                            g_deployments := g_deployments g + 1;
                            g_totalCO2 := g_totalCO2 g + estimatedHourlyCO2Kg d;
                            g_totalCI := g_totalCI g + carbonIntensity_gCo2PerKwh d;
                            g_totalCostUsd := g_totalCostUsd g + estimatedHourlyCostUsd d |}));
      [| reflexivity | reflexivity |].
    + rewrite existsb_app, Eown. cbn [existsb g_key]. rewrite String.eqb_refl.
      rewrite map_app, sumZ_app. cbn. lia.
    + rewrite map_app. cbn [map g_key].
      apply NoDup_app; [exact Hnd | repeat constructor; intros [] |].
      intros k Hk [<-|[]].
      assert (existsb (fun g => String.eqb (g_key g) (keyOf d)) obj = true); [|congruence].
      now apply existsb_key_In.
Qed.

Lemma scan_count keyOf labelOf l :
  sumZ (map g_deployments
            (fold_left (fun obj d => addToGroup (keyOf d) (labelOf d) d obj) l []))
  = Z.of_nat (List.length (ownKeyed keyOf l)).
Proof.
  induction l as [|d l IH] using rev_ind; [reflexivity|].
  rewrite fold_left_app. cbn [fold_left].
  rewrite (addToGroup_count keyOf labelOf l _ d (scan_groups_invariant keyOf labelOf l)).
  rewrite IH. unfold ownKeyed. rewrite filter_app, length_app. cbn [filter].
  destruct (existsb _ Object_prototype_keys); cbn [negb List.length]; lia.
Qed.

Lemma ownKeyed_all keyOf history :
  (forall d, In d history -> ~ In (keyOf d) Object_prototype_keys) ->
  ownKeyed keyOf history = history.
Proof.
  intros H. unfold ownKeyed.
  induction history as [|d l IH]; [reflexivity|]. cbn [filter].
  destruct (existsb _ Object_prototype_keys) eqn:E.
  - apply proto_key_In in E. now destruct (H d (or_introl eq_refl)).
  - cbn [negb]. f_equal. apply IH. intros d' Hd'. apply H. now right.
Qed.

(** X29.  The rows of byPlan account for every recorded deployment whose
    plan id is not a member name of Object.prototype, and the rows of
    byRegion likewise for regions: when no such name occurs in the
    history, the counts of either array add up to totalDeployments. *)
Theorem analyticsHandler_counts_add_up (usd : float) (history : list Deployment) :
  let answer := analyticsHandler usd history in
  let counts rows := sumZ (map (fun row => g_deployments (row_group row)) rows) in
  counts (byPlan answer) = Z.of_nat (List.length (ownKeyed d_planId history)) /\
  counts (byRegion answer) = Z.of_nat (List.length (ownKeyed d_region history)) /\
  ((forall d, In d history -> ~ In (d_planId d) Object_prototype_keys) ->
   counts (byPlan answer) = totalDeployments (summary answer)) /\
  ((forall d, In d history -> ~ In (d_region d) Object_prototype_keys) ->
   counts (byRegion answer) = totalDeployments (summary answer)).
Proof.
  cbv zeta. rewrite analyticsHandler_unfold. cbv zeta.
  cbn [byPlan byRegion summary totalDeployments].
  assert (Hcount : forall keyOf labelOf,
             sumZ (map (fun row => g_deployments (row_group row))
                       (map (groupRow usd)
                            (Object_values
                               (fold_left (fun obj d =>
                                             addToGroup (keyOf d) (labelOf d) d obj)
                                          history []))))
             = Z.of_nat (List.length (ownKeyed keyOf history))).
  { intros keyOf labelOf. rewrite map_map. cbn [groupRow row_group].
    rewrite (sumZ_permutation _ _
               (Permutation_map g_deployments (Object_values_permutation _))).
    apply scan_count. }
  rewrite (Hcount d_planId (fun _ => None)).
  rewrite (Hcount d_region (fun d => Some (d_regionLabel d))).
  split; [reflexivity|]. split; [reflexivity|]. split; intros H; now rewrite ownKeyed_all.
Qed.
